(** * PyCAS: the CAS chunk reader of [pycas/cas_reader.py]

    A shallow embedding of the chunk decoder ([CASReader.read]), of the
    derivations built on the parsed chunk list, of
    [parse_chunk_selection], and of [to_bin_file], [read_cas_file] and
    the console script [main], together with the properties stated about
    them.

    Python values are modelled as follows.
    - [bytes] and [bytearray] are [list byte].
    - [int] is [Z] (Python integers are unbounded).
    - [str] produced by the program is a list of Unicode code points
      ([pystr], a [list N]); the selection specification read by
      [parse_chunk_selection] is a [list ascii] whose characters stand for
      the code points 0..255, the range on which the model of [int()] and
      [str.strip()] below is exact.
    - A raised exception is the [Raise] outcome; [try]/[except] is
      [try_except].
    - The [while] loop of [read] runs on fuel; [OutOfFuel] is the outcome
      of a loop that did not finish within its fuel.
    - What the operating system and the terminal do is an environment
      ([Env.t]); a statement that prints or writes a file is a function
      on the world ([script]). *)

From Stdlib Require Import ZArith Lia List Ascii String.
From Stdlib.Strings Require Import Byte.
From Stdlib Require DecimalString HexadecimalString.
From stdpp Require Import base option list strings gmap sorting.

Local Open Scope Z_scope.

(** ** The Python runtime, as far as the reader uses it *)

(** The exceptions the program meets. [OSError] stands for an [OSError]
    that is no [FileNotFoundError], such as [IsADirectoryError] or
    [PermissionError]. *)
Inductive exn : Type :=
  | UnicodeDecodeError
  | StructError
  | ValueError
  | IndexError
  | FileNotFoundError
  | OSError
  | UnicodeEncodeError.

Inductive outcome (A : Type) : Type :=
  | Ok (a : A)
  | Raise (e : exn)
  | OutOfFuel.

Arguments Ok {A} a.
Arguments Raise {A} e.
Arguments OutOfFuel {A}.

Definition bind {A B : Type} (m : outcome A) (k : A → outcome B) : outcome B :=
  match m with
  | Ok a => k a
  | Raise e => Raise e
  | OutOfFuel => OutOfFuel
  end.

#[global] Instance outcome_ret : MRet outcome := @Ok.
#[global] Instance outcome_bind : MBind outcome := λ A B k m, bind m k.
#[global] Instance outcome_fmap : FMap outcome :=
  λ A B f m, bind m (λ a, Ok (f a)).

#[global] Instance exn_eq_dec : EqDecision exn.
Proof. solve_decision. Defined.

#[global] Instance byte_eq_dec' : EqDecision byte := byte_eq_dec.

(** [try: m except e: handler] for one exception class. *)
Definition try_except {A : Type} (m : outcome A) (e : exn)
    (handler : outcome A) : outcome A :=
  match m with
  | Raise e' => if bool_decide (e' = e) then handler else Raise e'
  | _ => m
  end.

(** [for x in xs: body], the loop state threaded through the body. *)
Fixpoint for_in {A S : Type} (xs : list A) (body : S → A → outcome S)
    (s : S) : outcome S :=
  match xs with
  | [] => Ok s
  | x :: xs' => s' ← body s x; for_in xs' body s'
  end.

Definition bytes : Type := list byte.
Definition pystr : Type := list N.

(** [len(l)] *)
Definition len {A : Type} (l : list A) : Z := Z.of_nat (length l).

(** Normalisation of one slice bound against a sequence of length [n]. *)
Definition clip_index (n i : Z) : Z :=
  if i <? 0 then Z.max (i + n) 0 else Z.min i n.

(** [l[a:b]] *)
Definition slice {A : Type} (l : list A) (a b : Z) : list A :=
  let a' := clip_index (len l) a in
  let b' := clip_index (len l) b in
  take (Z.to_nat (b' - a')) (drop (Z.to_nat a') l).

Definition byte_of_Z (z : Z) : byte :=
  default x00 (Byte.of_N (Z.to_N z)).

Definition Z_of_byte (b : byte) : Z := Z.of_N (Byte.to_N b).

(** [struct.unpack('<H', bs)[0]] *)
Definition struct_unpack_H (bs : bytes) : outcome Z :=
  match bs with
  | [b0; b1] => Ok (Z_of_byte b0 + 256 * Z_of_byte b1)
  | _ => Raise StructError
  end.

(** [struct.pack('<H', v)] *)
Definition struct_pack_H (v : Z) : outcome bytes :=
  if (0 <=? v) && (v <=? 65535)
  then Ok [byte_of_Z (v mod 256); byte_of_Z (v / 256)]
  else Raise StructError.

(** [range(start, stop)] and [range(0, stop, step)] *)
Definition py_range (start stop : Z) : list Z :=
  (λ k, start + Z.of_nat k) <$> seq 0 (Z.to_nat (stop - start)).

Definition py_range_step (stop step : Z) : list Z :=
  (λ k, step * Z.of_nat k) <$> seq 0 (Z.to_nat ((stop + step - 1) / step)).

(** *** Codecs *)

Definition in_range (b : byte) (lo hi : N) : bool :=
  ((lo <=? Byte.to_N b) && (Byte.to_N b <=? hi))%N.

Definition cont_bits (b : byte) : N := (Byte.to_N b - 0x80)%N.

(** [bs.decode('utf-8')]: the well-formed byte sequences of the Unicode
    standard; anything else raises [UnicodeDecodeError]. *)
Fixpoint decode_utf8 (bs : bytes) : outcome pystr :=
  match bs with
  | [] => Ok []
  | b0 :: r0 =>
    let c0 := Byte.to_N b0 in
    if (c0 <? 0x80)%N then cons c0 <$> decode_utf8 r0
    else if in_range b0 0xC2 0xDF then
      match r0 with
      | b1 :: r1 =>
        if in_range b1 0x80 0xBF
        then cons ((c0 - 0xC0) * 64 + cont_bits b1)%N <$> decode_utf8 r1
        else Raise UnicodeDecodeError
      | _ => Raise UnicodeDecodeError
      end
    else if in_range b0 0xE0 0xEF then
      match r0 with
      | b1 :: b2 :: r2 =>
        let lo := if (c0 =? 0xE0)%N then 0xA0%N else 0x80%N in
        let hi := if (c0 =? 0xED)%N then 0x9F%N else 0xBF%N in
        if in_range b1 lo hi && in_range b2 0x80 0xBF
        then cons ((c0 - 0xE0) * 4096 + cont_bits b1 * 64 + cont_bits b2)%N
               <$> decode_utf8 r2
        else Raise UnicodeDecodeError
      | _ => Raise UnicodeDecodeError
      end
    else if in_range b0 0xF0 0xF4 then
      match r0 with
      | b1 :: b2 :: b3 :: r3 =>
        let lo := if (c0 =? 0xF0)%N then 0x90%N else 0x80%N in
        let hi := if (c0 =? 0xF4)%N then 0x8F%N else 0xBF%N in
        if in_range b1 lo hi && in_range b2 0x80 0xBF && in_range b3 0x80 0xBF
        then cons ((c0 - 0xF0) * 262144 + cont_bits b1 * 4096
                   + cont_bits b2 * 64 + cont_bits b3)%N
               <$> decode_utf8 r3
        else Raise UnicodeDecodeError
      | _ => Raise UnicodeDecodeError
      end
    else Raise UnicodeDecodeError
  end.

(** [bs.decode('latin-1', errors='ignore')]: every byte is a code point. *)
Definition decode_latin1_ignore (bs : bytes) : outcome pystr :=
  Ok (Byte.to_N <$> bs).

(** [bs.decode('ascii', errors='ignore')]: bytes above 0x7F are left out. *)
Definition decode_ascii_ignore (bs : bytes) : outcome pystr :=
  Ok (Byte.to_N <$> filter (λ b, (Byte.to_N b < 0x80)%N) bs).

(** [bs.decode('ascii', errors='replace')]: bytes above 0x7F become
    U+FFFD. *)
Definition decode_ascii_replace (bs : bytes) : outcome pystr :=
  Ok ((λ b, if (Byte.to_N b <? 0x80)%N then Byte.to_N b else 0xFFFD%N) <$> bs).

(** *** Text *)

(** A literal of the source as a text. *)
Definition lit (s : string) : pystr := N_of_ascii <$> list_ascii_of_string s.

(** [chr(b)] for a byte. *)
Definition chr (b : byte) : pystr := [Byte.to_N b].

(** [sep.join(parts)] *)
Fixpoint str_join (sep : pystr) (parts : list pystr) : pystr :=
  match parts with
  | [] => []
  | [p] => p
  | p :: ps => p ++ sep ++ str_join sep ps
  end.

(** [s.ljust(width)] *)
Definition str_ljust (s : pystr) (width : Z) : pystr :=
  s ++ replicate (Z.to_nat (width - len s)) 32%N.

(** [s * n] for a text [s]. *)
Definition str_repeat (s : pystr) (n : Z) : pystr :=
  concat (replicate (Z.to_nat n) s).

(** [str(z)], also the rendering of [{z}] in an f-string. *)
Definition str_of_int (z : Z) : pystr :=
  lit (DecimalString.NilZero.string_of_int (Z.to_int z)).

(** [format(z, '0Nx')]: lower-case hexadecimal, zero-filled after the
    sign up to [width] characters. *)
Definition format_hex (width : Z) (z : Z) : pystr :=
  let digits :=
    lit (HexadecimalString.NilZero.string_of_uint (N.to_hex_uint (Z.abs_N z))) in
  let sign := if z <? 0 then lit "-" else [] in
  sign ++ replicate (Z.to_nat (width - len sign - len digits)) 48%N ++ digits.

(** [l[i]] *)
Definition list_index {A : Type} (l : list A) (i : Z) : outcome A :=
  let j := if i <? 0 then i + len l else i in
  if j <? 0 then Raise IndexError
  else match l !! Z.to_nat j with
       | Some x => Ok x
       | None => Raise IndexError
       end.

(** [enumerate(l)] *)
Definition enumerate {A : Type} (l : list A) : list (Z * A) :=
  zip (Z.of_nat <$> seq 0 (length l)) l.

(** *** Text read by the program

    A selection specification is a [list ascii]; a character stands for
    the code point of the same number. *)

(** [c.isspace()] on the code points below 256. *)
Definition is_space (c : ascii) : bool :=
  let n := N_of_ascii c in
  ((9 <=? n) && (n <=? 13) || (28 <=? n) && (n <=? 32)
   || (n =? 0x85) || (n =? 0xA0))%N.

(** The white space [int()] skips around a literal. *)
Definition is_int_space (c : ascii) : bool :=
  let n := N_of_ascii c in
  ((9 <=? n) && (n <=? 13) || (n =? 32) || (n =? 0x85) || (n =? 0xA0))%N.

Definition is_digit (c : ascii) : bool :=
  let n := N_of_ascii c in ((48 <=? n) && (n <=? 57))%N.

Definition digit_value (c : ascii) : Z := Z.of_N (N_of_ascii c) - 48.

Fixpoint drop_while {A : Type} (p : A → bool) (l : list A) : list A :=
  match l with
  | [] => []
  | x :: l' => if p x then drop_while p l' else l
  end.

(** [s.strip()] *)
Definition str_strip (s : list ascii) : list ascii :=
  reverse (drop_while is_space (reverse (drop_while is_space s))).

(** [s.split(sep)] for a separator of one character. *)
Fixpoint str_split (sep : ascii) (s : list ascii) : list (list ascii) :=
  match s with
  | [] => [[]]
  | c :: s' =>
    if bool_decide (c = sep) then [] :: str_split sep s'
    else match str_split sep s' with
         | p :: ps => (c :: p) :: ps
         | [] => [[c]]
         end
  end.

(** [s.split(sep, 1)] for a separator of one character. *)
Fixpoint str_split_once (sep : ascii) (s : list ascii) : list (list ascii) :=
  match s with
  | [] => [[]]
  | c :: s' =>
    if bool_decide (c = sep) then [[]; s']
    else match str_split_once sep s' with
         | p :: ps => (c :: p) :: ps
         | [] => [[c]]
         end
  end.

(** [a, b = l] *)
Definition unpack2 {A : Type} (l : list A) : outcome (A * A) :=
  match l with
  | [a; b] => Ok (a, b)
  | _ => Raise ValueError
  end.

(** The digits of a decimal literal, from its first digit on: digits,
    with single underscores between them. Returns the value, the number
    of digits read and the text after the literal. *)
Fixpoint int_digits (s : list ascii) (prev_underscore : bool) (acc : Z)
    (digits : Z) : option (Z * Z * list ascii) :=
  match s with
  | [] => if prev_underscore then None else Some (acc, digits, [])
  | c :: s' =>
    if is_digit c
    then int_digits s' false (10 * acc + digit_value c) (digits + 1)
    else if bool_decide (c = "_"%char) then
      if prev_underscore then None else int_digits s' true acc digits
    else if prev_underscore then None else Some (acc, digits, s)
  end.

(** [sys.get_int_max_str_digits()] as the interpreter starts with it
    ([sys.int_info.default_max_str_digits], in CPython 3.11 and later
    and in the security releases of 3.7 to 3.10): [int()] raises
    [ValueError] for a literal of more digits. Leading zeros count,
    underscores and the sign do not. *)
Definition int_max_str_digits : Z := 4300.

(** [int(s)] for a text [s]: optional white space, an optional sign, a
    decimal literal of at most [int_max_str_digits] digits, optional
    white space. The program passes every text through [str.strip()]
    before it calls [int()], so the white space [int()] would skip is
    already gone when it runs. *)
Definition py_int (s : list ascii) : outcome Z :=
  let s := drop_while is_int_space s in
  let '(negative, s) :=
    match s with
    | c :: s' =>
      if bool_decide (c = "+"%char) then (false, s')
      else if bool_decide (c = "-"%char) then (true, s')
      else (false, s)
    | [] => (false, s)
    end in
  match s with
  | c :: _ =>
    if is_digit c then
      match int_digits s false 0 0 with
      | Some (v, digits, rest) =>
        if forallb is_int_space rest && (digits <=? int_max_str_digits)
        then Ok (if negative then - v else v)
        else Raise ValueError
      | None => Raise ValueError
      end
    else Raise ValueError
  | [] => Raise ValueError
  end.

(** ** Data model *)

Module ChunkType.
Definition FUJI : bytes := [x46; x55; x4a; x49].
Definition BAUD : bytes := [x62; x61; x75; x64].
Definition DATA : bytes := [x64; x61; x74; x61].
Definition FSK : bytes := [x66; x73; x6b; x20].
Definition PWMS : bytes := [x70; x77; x6d; x73].
Definition PWMC : bytes := [x70; x77; x6d; x63].
Definition PWMD : bytes := [x70; x77; x6d; x64].
Definition PWML : bytes := [x70; x77; x6d; x6c].
End ChunkType.

Module ChunkHeader.
Record t : Type := mk {
  chunk_type : bytes;
  length : Z;
  aux_data : Z
}.
End ChunkHeader.

Module Chunk.
Record t : Type := mk {
  header : ChunkHeader.t;
  data : bytes
}.
End Chunk.

Module CASReader.
Record t : Type := mk {
  chunks : list Chunk.t;
  data_blocks : list bytes
}.
End CASReader.

(** [CASReader.__init__] (the file path plays no role once the file
    content is given). *)
Definition init : CASReader.t :=
  {| CASReader.chunks := []; CASReader.data_blocks := [] |}.

(** ** The decoder *)

(** The [while offset < len(file_data)] loop of [read]; each unfolding is
    one test of the loop condition. *)
Fixpoint read_loop (fuel : nat) (file_data : bytes) (offset : Z)
    (self : CASReader.t) : outcome CASReader.t :=
  match fuel with
  | O => OutOfFuel
  | S fuel' =>
    if offset <? len file_data then
      if offset + 8 >? len file_data then Ok self
      else
        let chunk_type := slice file_data offset (offset + 4) in
        length ← struct_unpack_H (slice file_data (offset + 4) (offset + 6));
        aux_data ← struct_unpack_H (slice file_data (offset + 6) (offset + 8));
        let header := ChunkHeader.mk chunk_type length aux_data in
        let offset := offset + 8 in
        if offset + length >? len file_data then Ok self
        else
          let chunk_data := slice file_data offset (offset + length) in
          let offset := offset + length in
          let chunk := Chunk.mk header chunk_data in
          let chunks := CASReader.chunks self ++ [chunk] in
          let data_blocks :=
            if bool_decide (chunk_type = ChunkType.DATA)
            then CASReader.data_blocks self ++ [chunk_data]
            else CASReader.data_blocks self in
          read_loop fuel' file_data offset (CASReader.mk chunks data_blocks)
    else Ok self
  end.

(** [CASReader.read], on the content [file_data] of the file. *)
Definition read (file_data : bytes) (self : CASReader.t)
    : outcome CASReader.t :=
  read_loop (S (length file_data)) file_data 0 self.

(** ** Derivations *)

Definition to_byte_array (self : CASReader.t) : bytes :=
  foldl (λ result chunk,
           if bool_decide (ChunkHeader.chunk_type (Chunk.header chunk)
                           = ChunkType.DATA)
           then result ++ Chunk.data chunk
           else result)
        [] (CASReader.chunks self).

Definition get_all_chunks_as_bytes (self : CASReader.t) : outcome bytes :=
  for_in (CASReader.chunks self)
    (λ result chunk,
       let result := result ++ ChunkHeader.chunk_type (Chunk.header chunk) in
       l ← struct_pack_H (ChunkHeader.length (Chunk.header chunk));
       let result := result ++ l in
       a ← struct_pack_H (ChunkHeader.aux_data (Chunk.header chunk));
       let result := result ++ a in
       Ok (result ++ Chunk.data chunk))
    [].

Record Metadata : Type := mkMetadata {
  description : option pystr;
  baudrate : Z;
  chunk_count : Z;
  data_block_count : Z
}.

(** One pass of the [for chunk in self.chunks] loop of [get_metadata]. *)
Definition get_metadata_step (metadata : Metadata) (chunk : Chunk.t)
    : outcome Metadata :=
  if bool_decide (ChunkHeader.chunk_type (Chunk.header chunk)
                  = ChunkType.FUJI) then
    d ← try_except (decode_utf8 (Chunk.data chunk)) UnicodeDecodeError
          (decode_latin1_ignore (Chunk.data chunk));
    Ok {| description := Some d;
          baudrate := baudrate metadata;
          chunk_count := chunk_count metadata;
          data_block_count := data_block_count metadata |}
  else if bool_decide (ChunkHeader.chunk_type (Chunk.header chunk)
                       = ChunkType.BAUD) then
    if len (Chunk.data chunk) >=? 2 then
      b ← struct_unpack_H (slice (Chunk.data chunk) 0 2);
      Ok {| description := description metadata;
            baudrate := b;
            chunk_count := chunk_count metadata;
            data_block_count := data_block_count metadata |}
    else Ok metadata
  else Ok metadata.

Definition get_metadata (self : CASReader.t) : outcome Metadata :=
  let metadata :=
    {| description := None;
       baudrate := 600;
       chunk_count := len (CASReader.chunks self);
       data_block_count := len (CASReader.data_blocks self) |} in
  for_in (CASReader.chunks self) get_metadata_step metadata.

Definition get_data_blocks (self : CASReader.t) : list bytes :=
  CASReader.data_blocks self.

Module ChunkInfo.
Record t : Type := mk {
  index : Z;
  type : pystr;
  length : Z;
  aux_data : Z
}.
End ChunkInfo.

(** One pass of the [for i, chunk in enumerate(self.chunks)] loop of
    [get_chunk_info]. *)
Definition get_chunk_info_step (info : list ChunkInfo.t)
    (item : Z * Chunk.t) : outcome (list ChunkInfo.t) :=
  let '(i, chunk) := item in
  ty ← decode_ascii_ignore (ChunkHeader.chunk_type (Chunk.header chunk));
  let chunk_info :=
    {| ChunkInfo.index := i;
       ChunkInfo.type := ty;
       ChunkInfo.length := ChunkHeader.length (Chunk.header chunk);
       ChunkInfo.aux_data := ChunkHeader.aux_data (Chunk.header chunk) |} in
  Ok (info ++ [chunk_info]).

Definition get_chunk_info (self : CASReader.t) : outcome (list ChunkInfo.t) :=
  for_in (enumerate (CASReader.chunks self)) get_chunk_info_step [].

(** The text of one row of [dump_chunks]: the body of the loop over the
    row offsets, after [line_data] has been sliced. *)
Definition dump_row (show_hex show_ascii : bool) (offset : Z)
    (line_data : bytes) : pystr :=
  let line_parts := [format_hex 4 offset ++ lit ":"] in
  let line_parts :=
    if show_hex then
      let hex_part :=
        str_join (lit " ") ((λ b, format_hex 2 (Z_of_byte b)) <$> line_data) in
      let hex_part := str_ljust hex_part 48 in
      line_parts ++ [hex_part]
    else line_parts in
  let line_parts :=
    if show_ascii then
      let ascii_part :=
        str_join []
          ((λ b, if (32 <=? Z_of_byte b) && (Z_of_byte b <? 127)
                 then chr b else lit ".") <$> line_data) in
      let line_parts :=
        if show_hex then line_parts ++ [lit "|"] else line_parts in
      line_parts ++ [ascii_part]
    else line_parts in
  str_join (lit " ") line_parts.

(** One pass of the [for idx in chunk_indices] loop of [dump_chunks]. *)
Definition dump_chunks_step (self : CASReader.t) (show_hex show_ascii : bool)
    (output_lines : list pystr) (idx : Z) : outcome (list pystr) :=
  if (idx <? 0) || (idx >=? len (CASReader.chunks self)) then Ok output_lines
  else
    chunk ← list_index (CASReader.chunks self) idx;
    chunk_type ← decode_ascii_replace
                   (ChunkHeader.chunk_type (Chunk.header chunk));
    let output_lines :=
      output_lines
      ++ [lit "Chunk [" ++ str_of_int idx ++ lit "] Type: " ++ chunk_type
          ++ lit ", Length: "
          ++ str_of_int (ChunkHeader.length (Chunk.header chunk))
          ++ lit ", Aux: "
          ++ str_of_int (ChunkHeader.aux_data (Chunk.header chunk))] in
    let output_lines := output_lines ++ [str_repeat (lit "-") 80] in
    let data := Chunk.data chunk in
    let output_lines :=
      if len data =? 0 then output_lines ++ [lit "  (empty)"]
      else
        foldl (λ output_lines offset,
                 let line_data := slice data offset (offset + 16) in
                 output_lines ++ [dump_row show_hex show_ascii offset line_data])
              output_lines (py_range_step (len data) 16) in
    Ok (output_lines ++ [lit ""]).

(** [output_lines] at the end of [dump_chunks]. *)
Definition dump_lines (self : CASReader.t) (chunk_indices : option (list Z))
    (show_hex show_ascii : bool) : outcome (list pystr) :=
  let chunk_indices :=
    match chunk_indices with
    | None => py_range 0 (len (CASReader.chunks self))
    | Some l => l
    end in
  for_in chunk_indices (dump_chunks_step self show_hex show_ascii) [].

Definition dump_chunks (self : CASReader.t) (chunk_indices : option (list Z))
    (show_hex show_ascii : bool) : outcome pystr :=
  output_lines ← dump_lines self chunk_indices show_hex show_ascii;
  Ok (str_join [10%N] output_lines).

(** ** Selection specifications *)

(** One pass of the [for part in parts] loop of [parse_chunk_selection]. *)
Definition parse_chunk_selection_step (max_chunks : Z) (indices : gset Z)
    (part : list ascii) : outcome (gset Z) :=
  let part := str_strip part in
  if bool_decide ("-"%char ∈ part) then
    '(start, end_) ← unpack2 (str_split_once "-" part);
    start_idx ← py_int (str_strip start);
    end_idx ← py_int (str_strip end_);
    Ok (foldl (λ (indices : gset Z) i,
                 if (0 <=? i) && (i <? max_chunks) then {[i]} ∪ indices
                 else indices)
              indices (py_range start_idx (end_idx + 1)))
  else
    idx ← py_int part;
    if (0 <=? idx) && (idx <? max_chunks) then Ok ({[idx]} ∪ indices)
    else Ok indices.

Definition parse_chunk_selection (chunk_spec : list ascii) (max_chunks : Z)
    : outcome (list Z) :=
  if bool_decide (chunk_spec = []) then Ok (py_range 0 max_chunks)
  else
    let parts := str_split "," chunk_spec in
    indices ← for_in parts (parse_chunk_selection_step max_chunks) ∅;
    Ok (merge_sort Z.le (elements indices)).

(** ** Vocabulary of the properties *)

(** The two bytes [struct.pack('<H', v)] produces for [v] in range. *)
Definition le16 (v : Z) : bytes :=
  [byte_of_Z (v mod 256); byte_of_Z (v / 256)].

Definition is_u16 (v : Z) : Prop := 0 ≤ v ≤ 65535.

(** A chunk as the format has it: a 4-byte type code, 16-bit header
    fields, and a payload as long as the header says. *)
Definition wf_chunk (c : Chunk.t) : Prop :=
  length (ChunkHeader.chunk_type (Chunk.header c)) = 4%nat
  ∧ is_u16 (ChunkHeader.length (Chunk.header c))
  ∧ is_u16 (ChunkHeader.aux_data (Chunk.header c))
  ∧ len (Chunk.data c) = ChunkHeader.length (Chunk.header c).

(** The bytes of one chunk on disk. *)
Definition chunk_bytes (c : Chunk.t) : bytes :=
  ChunkHeader.chunk_type (Chunk.header c)
  ++ le16 (ChunkHeader.length (Chunk.header c))
  ++ le16 (ChunkHeader.aux_data (Chunk.header c))
  ++ Chunk.data c.

Definition is_data (c : Chunk.t) : bool :=
  bool_decide (ChunkHeader.chunk_type (Chunk.header c) = ChunkType.DATA).

Definition is_fuji (c : Chunk.t) : bool :=
  bool_decide (ChunkHeader.chunk_type (Chunk.header c) = ChunkType.FUJI).

Definition is_baud (c : Chunk.t) : bool :=
  bool_decide (ChunkHeader.chunk_type (Chunk.header c) = ChunkType.BAUD).

(** Payloads of the [data] chunks of a chunk list, in order. *)
Definition data_payloads (cs : list Chunk.t) : list bytes :=
  Chunk.data <$> filter is_data cs.

(** The reader after the chunks [cs] have been appended to it. *)
Definition extend (self : CASReader.t) (cs : list Chunk.t) : CASReader.t :=
  {| CASReader.chunks := CASReader.chunks self ++ cs;
     CASReader.data_blocks := CASReader.data_blocks self ++ data_payloads cs |}.

(** The bytes at the cursor do not hold a complete chunk: fewer than 8
    bytes are left, or the payload length declared in bytes 4..5 exceeds
    what follows the header. *)
Definition truncated (tail : bytes) : bool :=
  (len tail <? 8)
  || match struct_unpack_H (slice tail 4 6) with
     | Ok n => len tail <? 8 + n
     | _ => false
     end.

(** The bytes of a chunk list on disk. *)
Definition stream_bytes (cs : list Chunk.t) : bytes :=
  concat (chunk_bytes <$> cs).

(** Bytes of the buffer taken up by a chunk list: 8 header bytes and the
    declared payload length for each chunk. *)
Definition consumed (cs : list Chunk.t) : Z :=
  foldr Z.add 0 ((λ c, 8 + ChunkHeader.length (Chunk.header c)) <$> cs).

(** The text [get_metadata] stores for a description payload: the UTF-8
    decoding when the payload is well-formed UTF-8, its Latin-1 decoding
    otherwise. *)
Definition description_text (payload : bytes) : pystr :=
  match decode_utf8 payload with
  | Ok s => s
  | _ => Byte.to_N <$> payload
  end.

(** Little-endian unsigned 16-bit value of the first two bytes. *)
Definition u16_le_prefix (payload : bytes) : Z :=
  match payload with
  | b0 :: b1 :: _ => Z_of_byte b0 + 256 * Z_of_byte b1
  | _ => 0
  end.

(** A [baud] chunk whose payload is long enough to hold a baud rate. *)
Definition has_baudrate (c : Chunk.t) : bool :=
  is_baud c && (2 <=? len (Chunk.data c)).

(** The metadata in which the last description chunk and the last
    usable baud-rate chunk decide. *)
Definition last_chunk_metadata (self : CASReader.t) : Metadata :=
  let cs := CASReader.chunks self in
  {| description :=
       (λ c, description_text (Chunk.data c)) <$> last (filter is_fuji cs);
     baudrate :=
       default 600
         ((λ c, u16_le_prefix (Chunk.data c)) <$> last (filter has_baudrate cs));
     chunk_count := len cs;
     data_block_count := len (filter is_data cs) |}.

(** The metadata as the specification words it: the first description
    chunk and the first baud-rate chunk decide. *)
Definition first_chunk_metadata (self : CASReader.t) : Metadata :=
  let cs := CASReader.chunks self in
  {| description :=
       (λ c, description_text (Chunk.data c)) <$> head (filter is_fuji cs);
     baudrate :=
       match head (filter is_baud cs) with
       | Some c =>
         if 2 <=? len (Chunk.data c) then u16_le_prefix (Chunk.data c)
         else 600
       | None => 600
       end;
     chunk_count := len cs;
     data_block_count := len (filter is_data cs) |}.

(** A type code rendered as the specification words it: printable bytes
    (0x20..0x7E) as their character, every other byte as the placeholder
    [p]. *)
Definition render_with_placeholder (p : N) (bs : bytes) : pystr :=
  (λ b, if in_range b 0x20 0x7E then Byte.to_N b else p) <$> bs.

(** The summary [get_chunk_info] gives for the chunk at position [i]. *)
Definition chunk_summary (i : nat) (c : Chunk.t) : ChunkInfo.t :=
  {| ChunkInfo.index := Z.of_nat i;
     ChunkInfo.type :=
       Byte.to_N
         <$> filter (λ b, (Byte.to_N b < 0x80)%N)
               (ChunkHeader.chunk_type (Chunk.header c));
     ChunkInfo.length := ChunkHeader.length (Chunk.header c);
     ChunkInfo.aux_data := ChunkHeader.aux_data (Chunk.header c) |}.

(** The lines one pass of the loop of [dump_chunks] adds for the index
    [idx]. *)
Definition chunk_section (self : CASReader.t) (show_hex show_ascii : bool)
    (idx : Z) : list pystr :=
  match dump_chunks_step self show_hex show_ascii [] idx with
  | Ok output_lines => output_lines
  | _ => []
  end.

(** The character column of a row: a byte in 0x20..0x7E as its
    character, any other byte as a full stop. *)
Definition ascii_column (line_data : bytes) : pystr :=
  (λ b, if bool_decide (0x20 ≤ Z_of_byte b ≤ 0x7E) then Byte.to_N b
        else 46%N) <$> line_data.

(** A reader with a [FUJI] chunk of 2 bytes and a [data] chunk of 17
    bytes, as [read] leaves it. *)
Definition demo_reader : CASReader.t :=
  CASReader.mk
    [Chunk.mk (ChunkHeader.mk ChunkType.FUJI 2 0) (list_byte_of_string "Hi");
     Chunk.mk (ChunkHeader.mk ChunkType.DATA 17 7)
       (list_byte_of_string "0123456789abcdefg")]
    [list_byte_of_string "0123456789abcdefg"].

(** The buffer of the sample scenario: a [FUJI] chunk holding
    "Test Tape" and a [data] chunk of ten bytes. *)
Definition test_tape : bytes :=
  list_byte_of_string "FUJI" ++ [x09; x00; x00; x00]
  ++ list_byte_of_string "Test Tape"
  ++ list_byte_of_string "data" ++ [x0a; x00; x00; x00]
  ++ [x00; x01; x02; x03; x04; x05; x06; x07; x08; x09].

(** A selection specification as the grammar has it: parts that are
    a decimal numeral or two numerals joined by a hyphen. *)
Inductive selection_part : Type :=
  | Single (digits : list ascii)
  | Range (start_digits end_digits : list ascii).

(** A non-empty run of decimal digits. *)
Definition numeral (ds : list ascii) : Prop :=
  ds ≠ [] ∧ Forall (λ c, is_digit c = true) ds.

Definition number (ds : list ascii) : Z :=
  foldl (λ acc c, 10 * acc + digit_value c) 0 ds.

Definition part_ok (p : selection_part) : Prop :=
  match p with
  | Single ds => numeral ds
  | Range a b => numeral a ∧ numeral b
  end.

Definition part_text (p : selection_part) : list ascii :=
  match p with
  | Single ds => ds
  | Range a b => a ++ "-"%char :: b
  end.

(** The parts, written with commas between them. *)
Fixpoint spec_text (ps : list selection_part) : list ascii :=
  match ps with
  | [] => []
  | [p] => part_text p
  | p :: ps' => part_text p ++ ","%char :: spec_text ps'
  end.

(** The index [i] is referenced by the part. *)
Definition selects (p : selection_part) (i : Z) : Prop :=
  match p with
  | Single ds => i = number ds
  | Range a b => number a ≤ i ≤ number b
  end.

(** Characters that occur in some text accepted as a part: digits, white
    space, signs, the hyphen and the underscore. *)
Definition is_selection_char (c : ascii) : bool :=
  is_digit c || is_space c
  || bool_decide (c = "+"%char) || bool_decide (c = "-"%char)
  || bool_decide (c = "_"%char).

(** The numerals of a part are within the limit of [int()]. *)
Definition part_sized (p : selection_part) : Prop :=
  match p with
  | Single ds => len ds ≤ int_max_str_digits
  | Range a b => len a ≤ int_max_str_digits ∧ len b ≤ int_max_str_digits
  end.

(** The syntax of the integers [int()] reads.

    [literal_tail s ds]: [s] is what may follow the first digit of a
    decimal literal, namely further digits, each with at most one
    underscore before it; [ds] are these digits. *)
Inductive literal_tail : list ascii → list ascii → Prop :=
  | tail_end : literal_tail [] []
  | tail_digit (d : ascii) (s ds : list ascii) :
      is_digit d = true → literal_tail s ds →
      literal_tail (d :: s) (d :: ds)
  | tail_underscore (d : ascii) (s ds : list ascii) :
      is_digit d = true → literal_tail s ds →
      literal_tail ("_"%char :: d :: s) (d :: ds).

(** [int_text s v]: the text [s] is an integer of value [v]: white
    space, an optional sign, a decimal literal of at most
    [int_max_str_digits] digits, white space. *)
Definition int_text (s : list ascii) (v : Z) : Prop :=
  ∃ (w1 sign : list ascii) (d : ascii) (body ds w2 : list ascii),
    s = w1 ++ sign ++ d :: body ++ w2
    ∧ Forall (λ c, is_int_space c = true) w1
    ∧ Forall (λ c, is_int_space c = true) w2
    ∧ is_digit d = true
    ∧ literal_tail body ds
    ∧ len (d :: ds) ≤ int_max_str_digits
    ∧ ((sign = [] ∨ sign = ["+"%char]) ∧ v = number (d :: ds)
       ∨ sign = ["-"%char] ∧ v = - number (d :: ds)).

(** [part_denotes part lo hi]: the part of a specification stands for
    the indices from [lo] to [hi]. Without its surrounding white space
    it is an integer without a hyphen, or two integers, each possibly
    within white space, on the two sides of its first hyphen. *)
Definition part_denotes (part : list ascii) (lo hi : Z) : Prop :=
  (("-"%char ∉ str_strip part) ∧ int_text (str_strip part) lo ∧ hi = lo)
  ∨ ∃ a b : list ascii,
      str_strip part = a ++ "-"%char :: b ∧ ("-"%char ∉ a)
      ∧ int_text (str_strip a) lo ∧ int_text (str_strip b) hi.

(** A part that is a valid integer or a well-formed range. *)
Definition well_formed (part : list ascii) : Prop :=
  ∃ lo hi : Z, part_denotes part lo hi.

(** A text as a list of characters. *)
Definition s_ (s : string) : list ascii := list_ascii_of_string s.

(** ** Further operations *)

(** [read_cas_file], on the content [file_data] of the file. *)
Definition read_cas_file (file_data : bytes) : outcome (bytes * Metadata) :=
  reader ← read file_data init;
  metadata ← get_metadata reader;
  Ok (to_byte_array reader, metadata).

(** [p] holds for the [n] integers from [lo] on. *)
Fixpoint forall_from (p : Z → bool) (lo : Z) (n : nat) : bool :=
  match n with
  | O => true
  | S n' => p lo && forall_from p (lo + 1) n'
  end.

(** ** Files and streams

    What the operating system and the terminal do is the environment, a
    parameter: what reading a file gives, whether a path can be opened
    for writing, and which characters the encoding of [sys.stdout] has.
    The world is what has been printed (one entry per call of [print])
    and the files that have been written. Writing to a file that is
    open, and closing it, succeed; the line end [print] adds is taken to
    be encodable. *)

Module Env.
Record t : Type := mk {
  read_file : string → exn + bytes;
  open_wb : string → option exn;
  encodable : N → bool
}.
End Env.

Module World.
Record t : Type := mk {
  stdout : list pystr;
  stderr : list pystr;
  files : gmap string bytes
}.
End World.

(** A statement: it changes the world and returns a value, or it raises,
    and the world is then what it was at the raise. *)
Definition script (A : Type) : Type := World.t → World.t * outcome A.

#[global] Instance script_ret : MRet script := λ A a w, (w, Ok a).

#[global] Instance script_bind : MBind script :=
  λ A B (k : A → script B) (m : script A) w,
    match m w with
    | (w', Ok a) => k a w'
    | (w', Raise e) => (w', Raise e)
    | (w', OutOfFuel) => (w', OutOfFuel)
    end.

(** A computation that leaves the world alone. *)
Definition lift {A : Type} (m : outcome A) : script A := λ w, (w, m).

(** [for x in xs: body] for a body that is a statement. *)
Fixpoint for_each {A : Type} (xs : list A) (body : A → script unit)
    : script unit :=
  match xs with
  | [] => mret ()
  | x :: xs' => body x;; for_each xs' body
  end.

(** [with open(path, 'rb') as f: f.read()]; the empty path names no
    file. *)
Definition read_binary (env : Env.t) (path : string) : outcome bytes :=
  if bool_decide (path = ""%string) then Raise FileNotFoundError
  else match Env.read_file env path with
       | inl e => Raise e
       | inr file_data => Ok file_data
       end.

(** [open(path, 'wb')]; the empty path names no file. *)
Definition open_for_writing (env : Env.t) (path : string) : outcome unit :=
  if bool_decide (path = ""%string) then Raise FileNotFoundError
  else match Env.open_wb env path with
       | Some e => Raise e
       | None => Ok ()
       end.

(** [print(s)]: [UnicodeEncodeError] when the encoding of [sys.stdout]
    lacks a character of [s], and nothing is written then. *)
Definition print (env : Env.t) (s : pystr) : script unit :=
  λ w,
    if forallb (Env.encodable env) s
    then (World.mk (World.stdout w ++ [s]) (World.stderr w) (World.files w),
          Ok ())
    else (w, Raise UnicodeEncodeError).

(** [print(s, file=sys.stderr)]: [sys.stderr] writes an escape for a
    character its encoding lacks (its error handler is
    [backslashreplace]) and raises no [UnicodeEncodeError]; the entry is
    the text as it is passed. *)
Definition print_err (w : World.t) (s : pystr) : World.t :=
  World.mk (World.stdout w) (World.stderr w ++ [s]) (World.files w).

(** [CASReader.read], from the opening of [self.filepath] on. *)
Definition read_path (env : Env.t) (filepath : string) (self : CASReader.t)
    : outcome CASReader.t :=
  file_data ← read_binary env filepath;
  read file_data self.

(** [CASReader.to_bin_file]: the file at [output_path] is created or
    replaced when the path can be opened. *)
Definition to_bin_file (env : Env.t) (self : CASReader.t)
    (output_path : string) : script Z :=
  λ w,
    let byte_array := to_byte_array self in
    match open_for_writing env output_path with
    | Ok _ =>
      (World.mk (World.stdout w) (World.stderr w)
         (<[output_path := byte_array]> (World.files w)),
       Ok (len byte_array))
    | Raise e => (w, Raise e)
    | OutOfFuel => (w, OutOfFuel)
    end.

(** ** The console script

    [main] after [parser.parse_args()]: the parsed arguments are given;
    the text [str(e)] of an exception is a parameter. *)

Module Args.
Record t : Type := mk {
  input : string;
  info : bool;
  to_bin : option string;
  command : option string;
  chunk : option (list ascii);
  hex : bool;
  ascii : bool
}.
End Args.

(** How a run ends: [main] returns, [sys.exit(status)] is called, an
    exception leaves [main] (the traceback the interpreter writes then
    is not part of the world), or a loop of the model is out of fuel. *)
Inductive ending : Type :=
  | Returned
  | Exited (status : Z)
  | Uncaught (e : exn)
  | Unfinished.

(** What leaves [main] when an outcome is not caught. *)
Definition escaped {A : Type} (m : outcome A) : ending :=
  match m with
  | Raise e => Uncaught e
  | _ => Unfinished
  end.

(** The end of a run whose last statements are not inside a [try]. *)
Definition ended (r : World.t * outcome unit) : World.t * ending :=
  match r with
  | (w, Ok _) => (w, Returned)
  | (w, other) => (w, escaped other)
  end.

(** [f"{value}"] for the description of the metadata. *)
Definition str_of_description (d : option pystr) : pystr :=
  match d with
  | None => lit "None"
  | Some s => s
  end.

Section Main.

Variable env : Env.t.
Variable exn_text : exn → pystr.

(** The branch [if args.command == 'dump']. *)
Definition main_dump (args : Args.t) (reader : CASReader.t) (w : World.t)
    : World.t * ending :=
  let chunk_indices :=
    match Args.chunk args with
    | Some spec =>
      if bool_decide (spec ≠ [])
      then Some <$> parse_chunk_selection spec (len (CASReader.chunks reader))
      else Ok None
    | None => Ok None
    end in
  match chunk_indices with
  | Raise ValueError =>
    (print_err w (lit "Error parsing chunk selection: "
                  ++ exn_text ValueError),
     Exited 1)
  | Ok chunk_indices =>
    let show_hex := Args.hex args in
    let show_ascii := Args.ascii args in
    let show_hex :=
      if negb show_hex && negb show_ascii then true else show_hex in
    ended ((output ← lift (dump_chunks reader chunk_indices
                             show_hex show_ascii);
            print env output) w)
  | other => (w, escaped other)
  end.

(** The branch [elif args.to_bin]: both statements are inside the
    [try], and [except Exception] catches what either raises. *)
Definition main_to_bin (output_path : string) (reader : CASReader.t)
    (w : World.t) : World.t * ending :=
  match (bytes_written ← to_bin_file env reader output_path;
         print env (lit "Wrote " ++ str_of_int bytes_written
                    ++ lit " bytes to " ++ lit output_path)) w with
  | (w, Ok _) => (w, Returned)
  | (w, Raise e) =>
    (print_err w (lit "Error writing binary file: " ++ exn_text e), Exited 1)
  | (w, OutOfFuel) => (w, Unfinished)
  end.

(** The last branch: the file information. *)
Definition main_info (args : Args.t) (reader : CASReader.t) : script unit :=
  print env (lit "CAS File: " ++ lit (Args.input args));;
  print env ([10%N] ++ lit "Metadata:");;
  metadata ← lift (get_metadata reader);
  print env (lit "  description: "
             ++ str_of_description (description metadata));;
  print env (lit "  baudrate: " ++ str_of_int (baudrate metadata));;
  print env (lit "  chunk_count: " ++ str_of_int (chunk_count metadata));;
  print env (lit "  data_block_count: "
             ++ str_of_int (data_block_count metadata));;
  print env ([10%N] ++ lit "Chunks:");;
  infos ← lift (get_chunk_info reader);
  for_each infos
    (λ chunk_info,
       print env (lit "  [" ++ str_of_int (ChunkInfo.index chunk_info)
                  ++ lit "] " ++ ChunkInfo.type chunk_info ++ lit ": "
                  ++ str_of_int (ChunkInfo.length chunk_info)
                  ++ lit " bytes (aux: "
                  ++ str_of_int (ChunkInfo.aux_data chunk_info)
                  ++ lit ")"));;
  let byte_array := to_byte_array reader in
  print env ([10%N] ++ lit "Total data bytes: "
             ++ str_of_int (len byte_array)).

Definition main (args : Args.t) (w : World.t) : World.t * ending :=
  match read_path env (Args.input args) init with
  | Ok reader =>
    if bool_decide (Args.command args = Some "dump"%string) then
      main_dump args reader w
    else
      match Args.to_bin args with
      | Some output_path =>
        if bool_decide (output_path ≠ ""%string)
        then main_to_bin output_path reader w
        else ended (main_info args reader w)
      | None => ended (main_info args reader w)
      end
  | Raise FileNotFoundError =>
    (print_err w (lit "Error: File not found: " ++ lit (Args.input args)),
     Exited 1)
  | Raise e =>
    (print_err w (lit "Error reading file: " ++ exn_text e), Exited 1)
  | OutOfFuel => (w, Unfinished)
  end.

End Main.

(** The lines of the file information, as the last branch of [main]
    prints them for a reader. *)
Definition metadata_lines (metadata : Metadata) : list pystr :=
  [lit "  description: " ++ str_of_description (description metadata);
   lit "  baudrate: " ++ str_of_int (baudrate metadata);
   lit "  chunk_count: " ++ str_of_int (chunk_count metadata);
   lit "  data_block_count: " ++ str_of_int (data_block_count metadata)].

Definition chunk_line (chunk_info : ChunkInfo.t) : pystr :=
  lit "  [" ++ str_of_int (ChunkInfo.index chunk_info)
  ++ lit "] " ++ ChunkInfo.type chunk_info ++ lit ": "
  ++ str_of_int (ChunkInfo.length chunk_info)
  ++ lit " bytes (aux: " ++ str_of_int (ChunkInfo.aux_data chunk_info)
  ++ lit ")".

Definition info_lines (input : string) (r : CASReader.t) : list pystr :=
  [lit "CAS File: " ++ lit input; [10%N] ++ lit "Metadata:"]
  ++ metadata_lines (last_chunk_metadata r)
  ++ [[10%N] ++ lit "Chunks:"]
  ++ (chunk_line <$> imap chunk_summary (CASReader.chunks r))
  ++ [[10%N] ++ lit "Total data bytes: "
      ++ str_of_int (len (to_byte_array r))].

(** The text can be written to [sys.stdout]. *)
Definition printable (env : Env.t) (s : pystr) : bool :=
  forallb (Env.encodable env) s.

(** The world after [lines] have been printed. *)
Definition printed (w : World.t) (lines : list pystr) : World.t :=
  World.mk (World.stdout w ++ lines) (World.stderr w) (World.files w).

(** The world after [content] has been stored at [path]. *)
Definition stored (w : World.t) (path : string) (content : bytes)
    : World.t :=
  World.mk (World.stdout w) (World.stderr w)
    (<[path := content]> (World.files w)).

(** The text the dump command prints for the selection [l]. *)
Definition dump_text (r : CASReader.t) (show_hex show_ascii : bool)
    (l : list Z) : pystr :=
  str_join [10%N] (concat (chunk_section r show_hex show_ascii <$> l)).

(** The line printed when the input file cannot be read. *)
Definition read_error_line (exn_text : exn → pystr) (input : string)
    (err : exn) : pystr :=
  if bool_decide (err = FileNotFoundError)
  then lit "Error: File not found: " ++ lit input
  else lit "Error reading file: " ++ exn_text err.

(** The line the conversion prints. *)
Definition wrote_line (r : CASReader.t) (output_path : string) : pystr :=
  lit "Wrote " ++ str_of_int (len (to_byte_array r)) ++ lit " bytes to "
  ++ lit output_path.

(** An environment with one file, [tape.cas], and the directory [/],
    where every other path can be written and [sys.stdout] encodes the
    characters for which [enc] holds. *)
Definition tape_env (enc : N → bool) : Env.t :=
  Env.mk (λ path, if bool_decide (path = "tape.cas"%string) then inr test_tape
                  else if bool_decide (path = "/"%string) then inl OSError
                  else inl FileNotFoundError)
         (λ path, if bool_decide (path = "/"%string) then Some OSError
                  else None)
         enc.

(** White space put around a part: before it, before the hyphen, after
    the hyphen and after it (a single numeral has the first and the last
    only). *)
Definition padding : Type :=
  (list ascii * list ascii * list ascii * list ascii)%type.

Definition blank (w : padding) : Prop :=
  let '(w1, w2, w3, w4) := w in
  Forall (λ c, is_space c = true) w1 ∧ Forall (λ c, is_space c = true) w2
  ∧ Forall (λ c, is_space c = true) w3 ∧ Forall (λ c, is_space c = true) w4.

Definition padded_text (pp : selection_part * padding) : list ascii :=
  let '(p, (w1, w2, w3, w4)) := pp in
  match p with
  | Single ds => w1 ++ ds ++ w4
  | Range a b => w1 ++ a ++ w2 ++ "-"%char :: w3 ++ b ++ w4
  end.

(** The padded parts, written with commas between them. *)
Fixpoint padded_spec_text (pps : list (selection_part * padding))
    : list ascii :=
  match pps with
  | [] => []
  | [pp] => padded_text pp
  | pp :: pps' => padded_text pp ++ ","%char :: padded_spec_text pps'
  end.

(** A byte string literal. *)
Definition b_ (s : string) : bytes := list_byte_of_string s.

(** ** Properties *)

Example read_example :
  read (b_ "FUJI" ++ [x02; x00; x00; x00] ++ b_ "Hi"
        ++ b_ "data" ++ [x01; x00; x07; x00] ++ [xff] ++ b_ "junk") init
  = Ok (CASReader.mk
          [Chunk.mk (ChunkHeader.mk ChunkType.FUJI 2 0) (b_ "Hi");
           Chunk.mk (ChunkHeader.mk ChunkType.DATA 1 7) [xff]]
          [[xff]]).
Proof. vm_compute. reflexivity. Qed.

Example test_tape_scenario :
  ∃ r,
    read test_tape init = Ok r
    ∧ get_metadata r
      = Ok {| description := Some (lit "Test Tape");
              baudrate := 600;
              chunk_count := 2;
              data_block_count := 1 |}
    ∧ to_byte_array r = [x00; x01; x02; x03; x04; x05; x06; x07; x08; x09].
Proof. eexists. repeat split; vm_compute; reflexivity. Qed.

Example decode_utf8_examples :
  decode_utf8 [xc3; xa9] = Ok [0xE9%N]
  ∧ decode_utf8 [xe2; x82; xac] = Ok [0x20AC%N]
  ∧ decode_utf8 [xf0; x9f; x98; x80] = Ok [0x1F600%N]
  ∧ decode_utf8 [xc0; x80] = Raise UnicodeDecodeError
  ∧ decode_utf8 [xed; xa0; x80] = Raise UnicodeDecodeError
  ∧ decode_utf8 [xf4; x90; x80; x80] = Raise UnicodeDecodeError
  ∧ decode_utf8 [x41; xff] = Raise UnicodeDecodeError.
Proof. repeat split; vm_compute; reflexivity. Qed.

(** *** Bytes and little-endian words *)

Lemma Z_of_byte_range (b : byte) : 0 ≤ Z_of_byte b ≤ 255.
Proof.
  unfold Z_of_byte. pose proof (Byte.to_N_bounded b). lia.
Qed.

Lemma byte_of_Z_of_byte (b : byte) : byte_of_Z (Z_of_byte b) = b.
Proof.
  unfold byte_of_Z, Z_of_byte. rewrite N2Z.id, Byte.of_to_N. reflexivity.
Qed.

Lemma Z_of_byte_of_Z (z : Z) : 0 ≤ z ≤ 255 → Z_of_byte (byte_of_Z z) = z.
Proof.
  intros Hz. unfold byte_of_Z, Z_of_byte.
  destruct (Byte.of_N (Z.to_N z)) as [b|] eqn:Hb.
  - apply Byte.to_of_N in Hb. simpl. lia.
  - apply Byte.of_N_None_iff in Hb. lia.
Qed.

Lemma len_nonneg {A : Type} (l : list A) : 0 ≤ len l.
Proof. unfold len. lia. Qed.

Lemma len_app {A : Type} (l k : list A) : len (l ++ k) = len l + len k.
Proof. unfold len. rewrite length_app. lia. Qed.

Lemma len_cons {A : Type} (x : A) (l : list A) : len (x :: l) = 1 + len l.
Proof. unfold len. simpl length. lia. Qed.

Lemma len_nil {A : Type} : len (@nil A) = 0.
Proof. reflexivity. Qed.

Lemma slice_take_drop {A : Type} (l : list A) (a b : Z) :
  0 ≤ a → a ≤ len l → 0 ≤ b → b ≤ len l →
  slice l a b = take (Z.to_nat (b - a)) (drop (Z.to_nat a) l).
Proof.
  intros Ha Ha' Hb Hb'. unfold slice, clip_index.
  destruct (Z.ltb_spec a 0); [lia|]. destruct (Z.ltb_spec b 0); [lia|].
  rewrite !Z.min_l by lia. reflexivity.
Qed.

Lemma slice_app_shift {A : Type} (pre l : list A) (a b : Z) :
  0 ≤ a → a ≤ len l → 0 ≤ b → b ≤ len l →
  slice (pre ++ l) (len pre + a) (len pre + b) = slice l a b.
Proof.
  intros Ha Ha' Hb Hb'. pose proof (len_nonneg pre).
  rewrite !slice_take_drop by (rewrite ?len_app; lia).
  replace (len pre + b - (len pre + a)) with (b - a) by lia.
  replace (Z.to_nat (len pre + a)) with (length pre + Z.to_nat a)%nat
    by (unfold len; lia).
  rewrite drop_app_add. reflexivity.
Qed.

Lemma slice_prefix {A : Type} (l k : list A) :
  slice (l ++ k) 0 (len l) = l.
Proof.
  pose proof (len_nonneg l). pose proof (len_nonneg k).
  rewrite slice_take_drop by (rewrite ?len_app; lia).
  simpl. rewrite Z.sub_0_r. unfold len. rewrite Nat2Z.id.
  apply take_app_length.
Qed.

Lemma le16_unpack (b0 b1 : byte) :
  le16 (Z_of_byte b0 + 256 * Z_of_byte b1) = [b0; b1].
Proof.
  pose proof (Z_of_byte_range b0). pose proof (Z_of_byte_range b1).
  unfold le16.
  replace ((Z_of_byte b0 + 256 * Z_of_byte b1) mod 256) with (Z_of_byte b0)
    by (apply Z.mod_unique_pos with (q := Z_of_byte b1); lia).
  replace ((Z_of_byte b0 + 256 * Z_of_byte b1) / 256) with (Z_of_byte b1)
    by (apply Z.div_unique_pos with (r := Z_of_byte b0); lia).
  rewrite !byte_of_Z_of_byte. reflexivity.
Qed.

Lemma unpack_le16 (v : Z) : is_u16 v → struct_unpack_H (le16 v) = Ok v.
Proof.
  intros [Hlo Hhi]. unfold le16, struct_unpack_H.
  pose proof (Z.mod_pos_bound v 256 ltac:(lia)).
  pose proof (Z.div_mod v 256 ltac:(lia)).
  rewrite !Z_of_byte_of_Z by lia. f_equal. lia.
Qed.

Lemma unpack_is_u16 (bs : bytes) (v : Z) :
  struct_unpack_H bs = Ok v → is_u16 v ∧ le16 v = bs.
Proof.
  destruct bs as [|b0 [|b1 [|? ?]]]; simpl; try discriminate.
  intros [= <-]. split; [|apply le16_unpack].
  pose proof (Z_of_byte_range b0). pose proof (Z_of_byte_range b1).
  unfold is_u16. lia.
Qed.

Lemma pack_le16 (v : Z) : is_u16 v → struct_pack_H v = Ok (le16 v).
Proof.
  intros [Hlo Hhi]. unfold struct_pack_H.
  destruct (Z.leb_spec 0 v); [|lia]. destruct (Z.leb_spec v 65535); [|lia].
  reflexivity.
Qed.

Lemma len_le16 (v : Z) : len (le16 v) = 2.
Proof. reflexivity. Qed.

Lemma len_chunk_bytes (c : Chunk.t) :
  wf_chunk c → len (chunk_bytes c) = 8 + ChunkHeader.length (Chunk.header c).
Proof.
  intros (Ht & _ & _ & Hd). unfold chunk_bytes.
  rewrite !len_app, !len_le16, Hd. unfold len at 1. rewrite Ht. lia.
Qed.

Lemma slice_mid {A : Type} (l pre mid post : list A) (a b : Z) :
  l = pre ++ mid ++ post → a = len pre → b = a + len mid →
  slice l a b = mid.
Proof.
  intros -> -> ->.
  replace (len pre) with (len pre + 0) at 1 by lia.
  pose proof (len_nonneg mid). pose proof (len_nonneg post).
  rewrite slice_app_shift by (rewrite ?len_app; lia).
  apply slice_prefix.
Qed.

Lemma length_slice {A : Type} (l : list A) (a b : Z) :
  0 ≤ a → a ≤ b → b ≤ len l → length (slice l a b) = Z.to_nat (b - a).
Proof.
  intros Ha Hab Hb. rewrite slice_take_drop by lia.
  rewrite length_take, length_drop. unfold len in *. lia.
Qed.

Lemma slice_two (l : bytes) (a : Z) :
  0 ≤ a → a + 2 ≤ len l → ∃ b0 b1, slice l a (a + 2) = [b0; b1].
Proof.
  intros Ha Hb. pose proof (length_slice l a (a + 2) Ha ltac:(lia) Hb) as Hl.
  replace (Z.to_nat (a + 2 - a)) with 2%nat in Hl by lia.
  destruct (slice l a (a + 2)) as [|b0 [|b1 [|? ?]]]; try discriminate.
  eauto.
Qed.

(** *** The decoding loop, one iteration at a time *)

Lemma read_loop_S (fuel : nat) (file_data : bytes) (offset : Z)
    (self : CASReader.t) :
  read_loop (S fuel) file_data offset self =
    if offset <? len file_data then
      if offset + 8 >? len file_data then Ok self
      else
        let chunk_type := slice file_data offset (offset + 4) in
        length ← struct_unpack_H (slice file_data (offset + 4) (offset + 6));
        aux_data ← struct_unpack_H (slice file_data (offset + 6) (offset + 8));
        let header := ChunkHeader.mk chunk_type length aux_data in
        let offset := offset + 8 in
        if offset + length >? len file_data then Ok self
        else
          let chunk_data := slice file_data offset (offset + length) in
          let offset := offset + length in
          let chunk := Chunk.mk header chunk_data in
          let chunks := CASReader.chunks self ++ [chunk] in
          let data_blocks :=
            if bool_decide (chunk_type = ChunkType.DATA)
            then CASReader.data_blocks self ++ [chunk_data]
            else CASReader.data_blocks self in
          read_loop fuel file_data offset (CASReader.mk chunks data_blocks)
    else Ok self.
Proof. reflexivity. Qed.

Lemma read_loop_truncated (fuel : nat) (pre tail : bytes)
    (self : CASReader.t) :
  truncated tail = true →
  read_loop (S fuel) (pre ++ tail) (len pre) self = Ok self.
Proof.
  intros Htr. rewrite read_loop_S, len_app.
  pose proof (len_nonneg pre). pose proof (len_nonneg tail).
  destruct (Z.ltb_spec (len pre) (len pre + len tail)); [|reflexivity].
  rewrite Z.gtb_ltb.
  destruct (Z.ltb_spec (len pre + len tail) (len pre + 8)); [reflexivity|].
  unfold truncated in Htr.
  destruct (Z.ltb_spec (len tail) 8); [lia|]. simpl in Htr.
  rewrite (slice_app_shift pre tail 4 6) by lia.
  destruct (struct_unpack_H (slice tail 4 6)) as [n| |]; try discriminate.
  apply Z.ltb_lt in Htr.
  rewrite (slice_app_shift pre tail 6 8) by lia.
  destruct (slice_two tail 6) as (b0 & b1 & Hs); [lia..|].
  change (6 + 2) with 8 in Hs. rewrite Hs. cbn. rewrite Z.gtb_ltb.
  destruct (Z.ltb_spec (len pre + len tail) (len pre + 8 + n)); [reflexivity|lia].
Qed.

Lemma read_loop_emit (fuel : nat) (pre rest : bytes) (c : Chunk.t)
    (self : CASReader.t) :
  wf_chunk c →
  read_loop (S fuel) (pre ++ chunk_bytes c ++ rest) (len pre) self
  = read_loop fuel ((pre ++ chunk_bytes c) ++ rest)
      (len (pre ++ chunk_bytes c)) (extend self [c]).
Proof.
  intros Hwf. pose proof (len_chunk_bytes c Hwf) as Hlen.
  destruct Hwf as (Ht & [Hv0 Hv1] & Ha & Hd).
  destruct c as [[ty v aux] payload]. simpl in Ht, Hv0, Hv1, Ha, Hd, Hlen.
  assert (len ty = 4) as Hty by (unfold len; lia).
  pose proof (len_nonneg pre). pose proof (len_nonneg rest).
  rewrite read_loop_S, !len_app, Hlen. simpl ChunkHeader.length.
  destruct (Z.ltb_spec (len pre) (len pre + (8 + v + len rest))); [|lia].
  rewrite Z.gtb_ltb.
  destruct (Z.ltb_spec (len pre + (8 + v + len rest)) (len pre + 8)); [lia|].
  unfold chunk_bytes.
  cbn [Chunk.header Chunk.data ChunkHeader.chunk_type ChunkHeader.length
       ChunkHeader.aux_data].
  rewrite <- !app_assoc.
  set (l := pre ++ ty ++ le16 v ++ le16 aux ++ payload ++ rest).
  assert (slice l (len pre) (len pre + 4) = ty) as ->.
  { apply (slice_mid l pre ty (le16 v ++ le16 aux ++ payload ++ rest));
      [reflexivity | lia..]. }
  assert (slice l (len pre + 4) (len pre + 6) = le16 v) as ->.
  { apply (slice_mid l (pre ++ ty) (le16 v) (le16 aux ++ payload ++ rest));
      rewrite ?len_app, ?len_le16; [|lia..].
    unfold l. rewrite <- !app_assoc. reflexivity. }
  assert (slice l (len pre + 6) (len pre + 8) = le16 aux) as ->.
  { apply (slice_mid l (pre ++ ty ++ le16 v) (le16 aux) (payload ++ rest));
      rewrite ?len_app, ?len_le16; [|lia..].
    unfold l. rewrite <- !app_assoc. reflexivity. }
  rewrite !unpack_le16 by (done || split; lia). cbn.
  rewrite Z.gtb_ltb.
  destruct (Z.ltb_spec (len pre + (8 + v + len rest)) (len pre + 8 + v)); [lia|].
  assert (slice l (len pre + 8) (len pre + 8 + v) = payload) as ->.
  { apply (slice_mid l (pre ++ ty ++ le16 v ++ le16 aux) payload rest);
      rewrite ?len_app, ?len_le16; [|lia..].
    unfold l. rewrite <- !app_assoc. reflexivity. }
  replace (len pre + 8 + v) with (len pre + (8 + v)) by lia.
  f_equal. unfold extend, data_payloads, is_data. simpl.
  rewrite filter_cons, filter_nil. simpl.
  repeat case_bool_decide; try done; simpl; rewrite ?app_nil_r; done.
Qed.

(** *** Every buffer is complete chunks followed by a truncated rest *)

Lemma take_slice {A : Type} (l : list A) (a b : Z) :
  0 ≤ a → a ≤ b → b ≤ len l →
  take (Z.to_nat b) l = take (Z.to_nat a) l ++ slice l a b.
Proof.
  intros Ha Hab Hb. rewrite slice_take_drop by lia.
  rewrite take_take_drop. f_equal. lia.
Qed.

Lemma chunk_or_truncated (tail : bytes) :
  truncated tail = true
  ∨ ∃ c rest, wf_chunk c ∧ tail = chunk_bytes c ++ rest.
Proof.
  unfold truncated. destruct (Z.ltb_spec (len tail) 8) as [|H8]; [by left|].
  simpl. destruct (slice_two tail 4) as (b4 & b5 & Hl); [lia..|].
  destruct (slice_two tail 6) as (b6 & b7 & Ha); [lia..|].
  change (4 + 2) with 6 in Hl. change (6 + 2) with 8 in Ha.
  rewrite Hl. cbn [struct_unpack_H].
  set (v := Z_of_byte b4 + 256 * Z_of_byte b5).
  set (aux := Z_of_byte b6 + 256 * Z_of_byte b7).
  destruct (Z.ltb_spec (len tail) (8 + v)) as [|Hv]; [by left|]. right.
  destruct (unpack_is_u16 [b4; b5] v eq_refl) as [Hv16 Hvb].
  destruct (unpack_is_u16 [b6; b7] aux eq_refl) as [Ha16 Hab].
  pose proof Hv16 as [Hv0 _].
  exists (Chunk.mk (ChunkHeader.mk (slice tail 0 4) v aux)
            (slice tail 8 (8 + v))),
         (drop (Z.to_nat (8 + v)) tail).
  split.
  - repeat split; simpl; try apply Hv16; try apply Ha16.
    + rewrite length_slice by lia. reflexivity.
    + unfold len. rewrite length_slice by lia. lia.
  - unfold chunk_bytes.
    cbn [Chunk.header Chunk.data ChunkHeader.chunk_type ChunkHeader.length
         ChunkHeader.aux_data].
    rewrite Hvb, Hab, <- Hl, <- Ha.
    rewrite <- (take_drop (Z.to_nat (8 + v)) tail) at 1.
    rewrite !app_assoc. f_equal.
    rewrite (take_slice tail 8 (8 + v)) by lia. f_equal.
    rewrite (take_slice tail 6 8) by lia. f_equal.
    rewrite (take_slice tail 4 6) by lia. f_equal.
    rewrite (take_slice tail 0 4) by lia. reflexivity.
Qed.

Lemma extend_nil (self : CASReader.t) : extend self [] = self.
Proof.
  destruct self. unfold extend, data_payloads. simpl.
  rewrite !app_nil_r. reflexivity.
Qed.

Lemma data_payloads_app (cs1 cs2 : list Chunk.t) :
  data_payloads (cs1 ++ cs2) = data_payloads cs1 ++ data_payloads cs2.
Proof. unfold data_payloads. rewrite filter_app, fmap_app. reflexivity. Qed.

Lemma extend_extend (self : CASReader.t) (cs1 cs2 : list Chunk.t) :
  extend (extend self cs1) cs2 = extend self (cs1 ++ cs2).
Proof.
  unfold extend. simpl. rewrite data_payloads_app, !app_assoc. reflexivity.
Qed.

Lemma stream_bytes_cons (c : Chunk.t) (cs : list Chunk.t) :
  stream_bytes (c :: cs) = chunk_bytes c ++ stream_bytes cs.
Proof. reflexivity. Qed.

Lemma length_chunk_bytes_pos (c : Chunk.t) :
  wf_chunk c → (0 < length (chunk_bytes c))%nat.
Proof.
  intros Hwf. pose proof (len_chunk_bytes c Hwf) as Hl.
  destruct Hwf as (_ & [? ?] & _). unfold len in Hl. lia.
Qed.

Lemma length_stream_bytes (cs : list Chunk.t) :
  Forall wf_chunk cs → (length cs ≤ length (stream_bytes cs))%nat.
Proof.
  induction 1 as [|c cs Hc _ IH]; [reflexivity|].
  rewrite stream_bytes_cons, length_app. simpl.
  pose proof (length_chunk_bytes_pos c Hc). lia.
Qed.

(** The loop, started at the end of [pre], on any rest of the buffer. *)
Lemma read_loop_spec (fuel : nat) :
  ∀ (pre tail : bytes) (self : CASReader.t),
    (length tail < fuel)%nat →
    ∃ cs tail',
      read_loop fuel (pre ++ tail) (len pre) self = Ok (extend self cs)
      ∧ Forall wf_chunk cs
      ∧ tail = stream_bytes cs ++ tail'
      ∧ truncated tail' = true.
Proof.
  induction fuel as [|fuel IH]; intros pre tail self Hf; [lia|].
  destruct (chunk_or_truncated tail) as [Htr | (c & rest & Hwf & ->)].
  - exists [], tail. rewrite read_loop_truncated, extend_nil by done.
    repeat split; [constructor | done].
  - rewrite read_loop_emit by done.
    pose proof (length_chunk_bytes_pos c Hwf). rewrite length_app in Hf.
    destruct (IH (pre ++ chunk_bytes c) rest (extend self [c]))
      as (cs & tail' & Hr & Hcs & -> & Htr); [lia|].
    exists (c :: cs), tail'. rewrite Hr, extend_extend.
    repeat split; [by constructor | | done].
    rewrite stream_bytes_cons, <- app_assoc. reflexivity.
Qed.

(** The loop on a buffer that is known to be chunks and a truncated
    rest. *)
Lemma read_loop_stream (cs : list Chunk.t) :
  Forall wf_chunk cs →
  ∀ (fuel : nat) (pre tail : bytes) (self : CASReader.t),
    truncated tail = true →
    (length cs < fuel)%nat →
    read_loop fuel (pre ++ stream_bytes cs ++ tail) (len pre) self
    = Ok (extend self cs).
Proof.
  induction 1 as [|c cs Hc _ IH]; intros fuel pre tail self Htr Hf;
    (destruct fuel as [|fuel]; [simpl in Hf; lia|]).
  - change (stream_bytes [] ++ tail) with tail.
    rewrite read_loop_truncated, extend_nil by done. reflexivity.
  - rewrite stream_bytes_cons, <- app_assoc, read_loop_emit by done.
    rewrite <- app_assoc.
    rewrite (app_assoc pre (chunk_bytes c)).
    rewrite IH by (done || simpl in Hf; lia).
    rewrite extend_extend. reflexivity.
Qed.

Lemma read_spec (B : bytes) :
  ∃ cs tail,
    read B init = Ok (extend init cs)
    ∧ Forall wf_chunk cs
    ∧ B = stream_bytes cs ++ tail
    ∧ truncated tail = true.
Proof.
  unfold read.
  destruct (read_loop_spec (S (length B)) [] B init) as (cs & tail & H);
    [lia|].
  exists cs, tail. exact H.
Qed.

Lemma read_stream (cs : list Chunk.t) (tail : bytes) :
  Forall wf_chunk cs → truncated tail = true →
  read (stream_bytes cs ++ tail) init = Ok (extend init cs).
Proof.
  intros Hcs Htr. unfold read.
  apply (read_loop_stream cs Hcs _ [] tail init Htr).
  pose proof (length_stream_bytes cs Hcs). rewrite length_app. lia.
Qed.

(** More fuel than the buffer has bytes never changes the result. *)
Lemma read_fuel_irrelevant (B : bytes) (fuel : nat) :
  (length B < fuel)%nat → read_loop fuel B 0 init = read B init.
Proof.
  intros Hf. destruct (read_spec B) as (cs & tail & Hr & Hcs & HB & Htr).
  rewrite Hr, HB.
  apply (read_loop_stream cs Hcs fuel [] tail init Htr).
  pose proof (length_stream_bytes cs Hcs) as Hl.
  rewrite HB, length_app in Hf. lia.
Qed.

Lemma for_in_serialize (cs : list Chunk.t) :
  Forall wf_chunk cs →
  ∀ acc : bytes,
    for_in cs
      (λ result chunk,
         let result := result ++ ChunkHeader.chunk_type (Chunk.header chunk) in
         l ← struct_pack_H (ChunkHeader.length (Chunk.header chunk));
         let result := result ++ l in
         a ← struct_pack_H (ChunkHeader.aux_data (Chunk.header chunk));
         let result := result ++ a in
         Ok (result ++ Chunk.data chunk))
      acc
    = Ok (acc ++ stream_bytes cs).
Proof.
  induction 1 as [|c cs Hc _ IH]; intros acc.
  - simpl. rewrite app_nil_r. reflexivity.
  - destruct Hc as (_ & Hl & Ha & _). cbn [for_in].
    rewrite (pack_le16 _ Hl), (pack_le16 _ Ha). cbn [mbind outcome_bind bind].
    rewrite IH, stream_bytes_cons. unfold chunk_bytes.
    rewrite <- !app_assoc. reflexivity.
Qed.

Lemma get_all_chunks_as_bytes_wf (self : CASReader.t) :
  Forall wf_chunk (CASReader.chunks self) →
  get_all_chunks_as_bytes self = Ok (stream_bytes (CASReader.chunks self)).
Proof. intros H. apply (for_in_serialize _ H []). Qed.

(** C1. Decoding a buffer, writing the chunks back with
    [get_all_chunks_as_bytes] and decoding the written bytes gives the
    reader state of the first decoding again: the same chunks, with the
    same type code, length, auxiliary data and payload, in the same
    order (and the same data blocks). None of the three steps raises. *)
Theorem read_reserialize_fixed_point (B : bytes) :
  ∃ (r : CASReader.t) (B' : bytes),
    read B init = Ok r
    ∧ get_all_chunks_as_bytes r = Ok B'
    ∧ read B' init = Ok r.
Proof.
  destruct (read_spec B) as (cs & tail & Hr & Hcs & _ & _).
  exists (extend init cs), (stream_bytes cs).
  split; [exact Hr|]. split.
  - apply get_all_chunks_as_bytes_wf. exact Hcs.
  - rewrite <- (app_nil_r (stream_bytes cs)).
    apply read_stream; [exact Hcs | reflexivity].
Qed.

(** C2. Decoding never raises. At any cursor where fewer than 8 bytes are
    left, or where the declared payload length exceeds the bytes after
    the header, the loop stops and returns the reader unchanged; and the
    whole buffer is the on-disk bytes of the returned chunks followed by
    such a truncated rest, so the result is exactly the complete chunks
    before the first truncation or the end of the buffer. *)
Theorem read_truncation_policy (B : bytes) :
  (∀ (pre tail : bytes) (self : CASReader.t) (fuel : nat),
     B = pre ++ tail → truncated tail = true →
     read_loop (S fuel) B (len pre) self = Ok self)
  ∧ ∃ cs tail,
      read B init = Ok (extend init cs)
      ∧ Forall wf_chunk cs
      ∧ B = stream_bytes cs ++ tail
      ∧ truncated tail = true.
Proof.
  split.
  - intros pre tail self fuel -> Htr. apply read_loop_truncated, Htr.
  - apply read_spec.
Qed.

Lemma read_truncation_policy_witness :
  read_loop 1 (b_ "FUJI" ++ [x02; x00; x00; x00] ++ b_ "Hi"
               ++ b_ "data" ++ [x09; x00; x00; x00] ++ b_ "short")
    10 init
  = Ok init.
Proof.
  exact (proj1 (read_truncation_policy _)
           (b_ "FUJI" ++ [x02; x00; x00; x00] ++ b_ "Hi")
           (b_ "data" ++ [x09; x00; x00; x00] ++ b_ "short") init 0%nat
           eq_refl eq_refl).
Defined.

Lemma len_stream_bytes (cs : list Chunk.t) :
  Forall wf_chunk cs → len (stream_bytes cs) = consumed cs.
Proof.
  induction 1 as [|c cs Hc _ IH]; [reflexivity|].
  rewrite stream_bytes_cons, len_app, IH, (len_chunk_bytes c Hc).
  reflexivity.
Qed.

(** C3. Decoding finishes within its fuel and without raising; the
    chunks it returns account for at most [len B] bytes (8 header bytes
    and [length] payload bytes each), and the payload of every chunk has
    exactly the length its header declares. *)
Theorem read_terminates_within_buffer (B : bytes) :
  ∃ r : CASReader.t,
    read B init = Ok r
    ∧ consumed (CASReader.chunks r) ≤ len B
    ∧ Forall (λ c, len (Chunk.data c) = ChunkHeader.length (Chunk.header c))
        (CASReader.chunks r).
Proof.
  destruct (read_spec B) as (cs & tail & Hr & Hcs & -> & _).
  exists (extend init cs). split; [exact Hr|]. simpl. split.
  - rewrite len_app, (len_stream_bytes cs Hcs).
    pose proof (len_nonneg tail). lia.
  - eapply Forall_impl; [exact Hcs|]. intros c (_ & _ & _ & Hd). exact Hd.
Qed.

(** *** Data blocks *)

Lemma foldl_data (cs : list Chunk.t) :
  ∀ acc : bytes,
    foldl (λ result chunk,
             if bool_decide (ChunkHeader.chunk_type (Chunk.header chunk)
                             = ChunkType.DATA)
             then result ++ Chunk.data chunk
             else result)
          acc cs
    = acc ++ concat (data_payloads cs).
Proof.
  induction cs as [|c cs IH]; intros acc; simpl.
  - rewrite app_nil_r. reflexivity.
  - rewrite IH. unfold data_payloads. rewrite filter_cons.
    destruct (decide (is_data c)) as [Hd|Hd]; unfold is_data in Hd.
    + rewrite bool_decide_eq_true_2 by (by apply bool_decide_unpack in Hd).
      simpl. rewrite <- app_assoc. reflexivity.
    + rewrite bool_decide_eq_false_2; [reflexivity|].
      intros E. apply Hd. by apply bool_decide_pack.
Qed.

(** C5. After decoding, [to_byte_array] is the concatenation, in chunk
    order, of the payloads of exactly the chunks whose type code is
    [data]; [get_data_blocks] is the list of those payloads, so
    [to_byte_array] is also the concatenation of [get_data_blocks]. *)
Theorem to_byte_array_data_blocks (B : bytes) :
  ∃ r : CASReader.t,
    read B init = Ok r
    ∧ get_data_blocks r = Chunk.data <$> filter is_data (CASReader.chunks r)
    ∧ to_byte_array r
      = concat (Chunk.data <$> filter is_data (CASReader.chunks r))
    ∧ to_byte_array r = concat (get_data_blocks r).
Proof.
  destruct (read_spec B) as (cs & tail & Hr & _).
  exists (extend init cs). split; [exact Hr|].
  unfold to_byte_array, get_data_blocks. simpl.
  rewrite foldl_data. simpl. auto.
Qed.

(** *** Metadata *)

Lemma fmap_Ok {A B : Type} (f : A → B) (a : A) : f <$> Ok a = Ok (f a).
Proof. reflexivity. Qed.

Lemma fmap_Raise {A B : Type} (f : A → B) (e : exn) :
  f <$> (Raise e : outcome A) = Raise e.
Proof. reflexivity. Qed.

(** The UTF-8 decoder returns a text or raises [UnicodeDecodeError]. *)
Lemma decode_utf8_cases (bs : bytes) :
  (∃ s, decode_utf8 bs = Ok s) ∨ decode_utf8 bs = Raise UnicodeDecodeError.
Proof.
  remember (length bs) as n eqn:Hn.
  assert (length bs ≤ n)%nat as Hle by lia. clear Hn.
  revert bs Hle. induction n as [|n IH]; intros bs Hle.
  - destruct bs; [left; by eexists | simpl in Hle; lia].
  - assert (∀ (f : pystr → pystr) r, (length r ≤ n)%nat →
              (∃ s, f <$> decode_utf8 r = Ok s)
              ∨ f <$> decode_utf8 r = Raise UnicodeDecodeError) as Hrec.
    { intros f r Hr. destruct (IH r Hr) as [[s ->] | ->]; [left|right].
      - by eexists.
      - reflexivity. }
    destruct bs as [|b0 r0]; [left; by eexists|]. simpl in Hle.
    cbn [decode_utf8].
    destruct (Byte.to_N b0 <? 128)%N; [apply Hrec; lia|].
    destruct (in_range b0 194 223).
    { destruct r0 as [|b1 r1]; [by right|]. simpl in Hle.
      destruct (in_range b1 128 191); [apply Hrec; lia | by right]. }
    destruct (in_range b0 224 239).
    { destruct r0 as [|b1 [|b2 r2]]; [by right..|]. simpl in Hle.
      destruct (_ && _); [apply Hrec; lia | by right]. }
    destruct (in_range b0 240 244); [|by right].
    destruct r0 as [|b1 [|b2 [|b3 r3]]]; [by right..|]. simpl in Hle.
    destruct (_ && _); [apply Hrec; lia | by right].
Qed.

Lemma description_decoding (payload : bytes) :
  try_except (decode_utf8 payload) UnicodeDecodeError
    (decode_latin1_ignore payload)
  = Ok (description_text payload).
Proof.
  unfold description_text.
  destruct (decode_utf8_cases payload) as [[s ->] | ->]; reflexivity.
Qed.

Lemma baudrate_unpack (payload : bytes) :
  2 ≤ len payload →
  struct_unpack_H (slice payload 0 2) = Ok (u16_le_prefix payload).
Proof.
  intros H. rewrite slice_take_drop by lia.
  destruct payload as [|b0 [|b1 r]]; [rewrite ?len_cons, ?len_nil in H; lia..|].
  reflexivity.
Qed.

Lemma for_in_snoc {A S : Type} (xs : list A) (x : A)
    (body : S → A → outcome S) (s : S) :
  for_in (xs ++ [x]) body s = s' ← for_in xs body s; body s' x.
Proof.
  revert s. induction xs as [|y xs IH]; intros s; simpl.
  - destruct (body s x); reflexivity.
  - destruct (body s y) as [s'| |]; simpl; [apply IH | reflexivity..].
Qed.

Lemma last_filter_snoc (P : Chunk.t → bool) (cs : list Chunk.t)
    (c : Chunk.t) :
  last (filter P (cs ++ [c])) = if P c then Some c else last (filter P cs).
Proof.
  rewrite filter_app, filter_cons, filter_nil.
  destruct (P c); simpl.
  - apply last_snoc.
  - rewrite app_nil_r. reflexivity.
Qed.

Lemma get_metadata_loop (cs : list Chunk.t) (md0 : Metadata) :
  for_in cs get_metadata_step md0
  = Ok {| description :=
            match last (filter is_fuji cs) with
            | Some c => Some (description_text (Chunk.data c))
            | None => description md0
            end;
          baudrate :=
            match last (filter has_baudrate cs) with
            | Some c => u16_le_prefix (Chunk.data c)
            | None => baudrate md0
            end;
          chunk_count := chunk_count md0;
          data_block_count := data_block_count md0 |}.
Proof.
  induction cs as [|c cs IH] using rev_ind.
  - destruct md0. reflexivity.
  - rewrite for_in_snoc, IH. cbn [mbind outcome_bind bind].
    rewrite !last_filter_snoc. unfold get_metadata_step, has_baudrate, is_fuji, is_baud.
    case_bool_decide as Hf.
    + rewrite description_decoding. cbn.
      rewrite bool_decide_eq_false_2 by (rewrite Hf; discriminate).
      reflexivity.
    + case_bool_decide as Hb; [|reflexivity].
      rewrite Z.geb_leb. simpl andb.
      destruct (Z.leb_spec 2 (len (Chunk.data c))); [|reflexivity].
      rewrite baudrate_unpack by lia. reflexivity.
Qed.

Lemma get_metadata_last (self : CASReader.t) :
  CASReader.data_blocks self = data_payloads (CASReader.chunks self) →
  get_metadata self = Ok (last_chunk_metadata self).
Proof.
  intros Hd. unfold get_metadata. rewrite get_metadata_loop.
  unfold last_chunk_metadata. cbn.
  rewrite Hd. unfold data_payloads, len. rewrite length_fmap.
  destruct (last (filter is_fuji (CASReader.chunks self)));
    destruct (last (filter has_baudrate (CASReader.chunks self)));
    reflexivity.
Qed.

(** C4, as amended. After decoding, [get_metadata] returns: as
    description the decoded text of the payload of the last [FUJI] chunk,
    or nothing when there is none; as baud rate the little-endian 16-bit
    value of the first two bytes of the last [baud] chunk whose payload
    has at least two bytes, or 600 when there is none; as chunk count the
    number of chunks; as data block count the number of [data] chunks. *)
Theorem get_metadata_last_chunk_wins (B : bytes) :
  ∃ r : CASReader.t,
    read B init = Ok r ∧ get_metadata r = Ok (last_chunk_metadata r).
Proof.
  destruct (read_spec B) as (cs & tail & Hr & _).
  exists (extend init cs). split; [exact Hr|].
  apply get_metadata_last. reflexivity.
Qed.

(** C4, as stated, fails: with two [FUJI] chunks (payloads "A" then "B")
    and two [baud] chunks (300 then 1200) the reported description is
    "B" and the reported baud rate 1200, not those of the first chunks. *)
Lemma get_metadata_first_chunk_fails :
  let B := b_ "FUJI" ++ [x01; x00; x00; x00] ++ b_ "A"
           ++ b_ "baud" ++ [x02; x00; x00; x00] ++ [x2c; x01]
           ++ b_ "FUJI" ++ [x01; x00; x00; x00] ++ b_ "B"
           ++ b_ "baud" ++ [x02; x00; x00; x00] ++ [xb0; x04] in
  ∃ r md,
    read B init = Ok r
    ∧ get_metadata r = Ok md
    ∧ description md = Some [66%N]
    ∧ baudrate md = 1200
    ∧ description (first_chunk_metadata r) = Some [65%N]
    ∧ baudrate (first_chunk_metadata r) = 300
    ∧ md ≠ first_chunk_metadata r.
Proof.
  eexists _, _.
  split; [vm_compute; reflexivity|].
  split; [vm_compute; reflexivity|].
  repeat split; try (vm_compute; reflexivity).
  vm_compute. discriminate.
Qed.

Lemma get_metadata_step_ok (md : Metadata) (c : Chunk.t) :
  ∃ md', get_metadata_step md c = Ok md'.
Proof.
  unfold get_metadata_step.
  case_bool_decide; [rewrite description_decoding; by eexists|].
  case_bool_decide; [|by eexists].
  rewrite Z.geb_leb. destruct (Z.leb_spec 2 (len (Chunk.data c)));
    [|by eexists].
  rewrite baudrate_unpack by lia. by eexists.
Qed.

Lemma for_in_ok {A S : Type} (body : S → A → outcome S) (xs : list A) :
  (∀ s x, ∃ s', body s x = Ok s') → ∀ s, ∃ s', for_in xs body s = Ok s'.
Proof.
  intros Hbody. induction xs as [|x xs IH]; intros s; simpl.
  - by eexists.
  - destruct (Hbody s x) as [s' ->]. apply IH.
Qed.


(** *** Chunk summaries *)

Lemma get_chunk_info_loop (cs : list Chunk.t) :
  ∀ (k : nat) (acc : list ChunkInfo.t),
    for_in (zip (Z.of_nat <$> seq k (length cs)) cs) get_chunk_info_step acc
    = Ok (acc ++ imap (λ i, chunk_summary (k + i)) cs).
Proof.
  induction cs as [|c cs IH]; intros k acc.
  - simpl. rewrite app_nil_r. reflexivity.
  - cbn [length seq fmap list_fmap zip zip_with for_in get_chunk_info_step].
    cbn [decode_ascii_ignore mbind outcome_bind bind].
    change (zip_with pair ?a ?b) with (zip a b). fold (@fmap list _ _ _ Z.of_nat).
    rewrite IH, <- app_assoc. cbn [app imap]. rewrite Nat.add_0_r.
    do 3 f_equal. apply imap_ext. intros i x _. simpl. f_equal. lia.
Qed.

(** C8, as amended. [get_chunk_info] never raises and returns one
    summary per chunk, in chunk order, with the zero-based position, the
    declared length and the auxiliary data of the chunk; the type code is
    rendered by keeping its bytes below 0x80 as characters (printable or
    not) and leaving the other bytes out. *)
Theorem get_chunk_info_summaries (self : CASReader.t) :
  get_chunk_info self = Ok (imap chunk_summary (CASReader.chunks self)).
Proof.
  unfold get_chunk_info, enumerate.
  rewrite get_chunk_info_loop. reflexivity.
Qed.

(** C8, as stated, fails: for the parsed type code [ff 41 01 43] the
    rendered type is the three characters U+0041 U+0001 U+0043; no
    placeholder stands for the byte ff or for the control byte 01. *)
Lemma get_chunk_info_placeholder_fails :
  ∃ r info,
    read [xff; x41; x01; x43; x00; x00; x00; x00] init = Ok r
    ∧ get_chunk_info r = Ok [info]
    ∧ ChunkInfo.type info = [65%N; 1%N; 67%N]
    ∧ ∀ p : N,
        ChunkInfo.type info
        ≠ render_with_placeholder p [xff; x41; x01; x43].
Proof.
  eexists _, _. split; [vm_compute; reflexivity|].
  split; [vm_compute; reflexivity|].
  split; [reflexivity|]. intros p. discriminate.
Qed.

(** *** Dumps *)

Lemma foldl_snoc_fmap {A B : Type} (f : A → B) (xs : list A) :
  ∀ acc : list B, foldl (λ acc x, acc ++ [f x]) acc xs = acc ++ (f <$> xs).
Proof.
  induction xs as [|x xs IH]; intros acc; simpl.
  - rewrite app_nil_r. reflexivity.
  - rewrite IH, <- app_assoc. reflexivity.
Qed.

Lemma list_index_lookup {A : Type} (l : list A) (i : Z) (x : A) :
  0 ≤ i → l !! Z.to_nat i = Some x → list_index l i = Ok x.
Proof.
  intros Hi Hx. unfold list_index.
  destruct (Z.ltb_spec i 0); [lia|].
  destruct (Z.ltb_spec i 0); [lia|]. rewrite Hx. reflexivity.
Qed.

Lemma in_range_lookup {A : Type} (l : list A) (i : Z) :
  0 ≤ i → i < len l → ∃ x, l !! Z.to_nat i = Some x.
Proof.
  intros H0 H1. apply lookup_lt_is_Some. unfold len in H1. lia.
Qed.

(** The rows of a payload, as the loop over the offsets produces them. *)
Lemma chunk_section_in_range (self : CASReader.t) (show_hex show_ascii : bool)
    (idx : Z) (chunk : Chunk.t) (acc : list pystr) :
  0 ≤ idx → CASReader.chunks self !! Z.to_nat idx = Some chunk →
  dump_chunks_step self show_hex show_ascii acc idx
  = Ok (acc
        ++ [lit "Chunk [" ++ str_of_int idx ++ lit "] Type: "
            ++ ((λ b, if (Byte.to_N b <? 0x80)%N then Byte.to_N b
                      else 0xFFFD%N)
                  <$> ChunkHeader.chunk_type (Chunk.header chunk))
            ++ lit ", Length: "
            ++ str_of_int (ChunkHeader.length (Chunk.header chunk))
            ++ lit ", Aux: "
            ++ str_of_int (ChunkHeader.aux_data (Chunk.header chunk))]
        ++ [str_repeat (lit "-") 80]
        ++ (if len (Chunk.data chunk) =? 0 then [lit "  (empty)"]
            else (λ offset,
                    dump_row show_hex show_ascii offset
                      (slice (Chunk.data chunk) offset (offset + 16)))
                   <$> py_range_step (len (Chunk.data chunk)) 16)
        ++ [lit ""]).
Proof.
  intros H0 Hc. unfold dump_chunks_step.
  assert (idx < len (CASReader.chunks self)) as H1.
  { apply lookup_lt_Some in Hc. unfold len. lia. }
  destruct (Z.ltb_spec idx 0); [lia|]. rewrite Z.geb_leb.
  destruct (Z.leb_spec (len (CASReader.chunks self)) idx); [lia|].
  cbn [orb]. rewrite (list_index_lookup _ _ _ H0 Hc).
  cbn [mbind outcome_bind bind decode_ascii_replace]. f_equal.
  destruct (len (Chunk.data chunk) =? 0).
  - rewrite <- !app_assoc. reflexivity.
  - rewrite foldl_snoc_fmap, <- !app_assoc. reflexivity.
Qed.

Lemma dump_chunks_step_skip (self : CASReader.t) (show_hex show_ascii : bool)
    (idx : Z) (acc : list pystr) :
  ¬ (0 ≤ idx < len (CASReader.chunks self)) →
  dump_chunks_step self show_hex show_ascii acc idx = Ok acc.
Proof.
  intros H. unfold dump_chunks_step. rewrite Z.geb_leb.
  destruct (Z.ltb_spec idx 0); [reflexivity|].
  destruct (Z.leb_spec (len (CASReader.chunks self)) idx); [reflexivity|lia].
Qed.

(** A pass of the loop only appends to [output_lines]. *)
Lemma dump_chunks_step_frame (self : CASReader.t) (show_hex show_ascii : bool)
    (idx : Z) (acc : list pystr) :
  dump_chunks_step self show_hex show_ascii acc idx
  = Ok (acc ++ chunk_section self show_hex show_ascii idx).
Proof.
  unfold chunk_section.
  destruct (decide (0 ≤ idx < len (CASReader.chunks self))) as [[H0 H1]|H].
  - destruct (in_range_lookup _ _ H0 H1) as [chunk Hc].
    rewrite !(chunk_section_in_range _ _ _ _ chunk) by done. reflexivity.
  - rewrite !dump_chunks_step_skip by done. rewrite app_nil_r. reflexivity.
Qed.

Lemma dump_loop_sections (self : CASReader.t) (show_hex show_ascii : bool)
    (idxs : list Z) :
  ∀ acc : list pystr,
    for_in idxs (dump_chunks_step self show_hex show_ascii) acc
    = Ok (acc ++ concat (chunk_section self show_hex show_ascii <$> idxs)).
Proof.
  induction idxs as [|idx idxs IH]; intros acc; simpl.
  - rewrite app_nil_r. reflexivity.
  - rewrite dump_chunks_step_frame. cbn [mbind outcome_bind bind].
    rewrite IH, <- app_assoc. reflexivity.
Qed.

Lemma dump_lines_sections (self : CASReader.t) (show_hex show_ascii : bool)
    (idxs : list Z) :
  dump_lines self (Some idxs) show_hex show_ascii
  = Ok (concat (chunk_section self show_hex show_ascii <$> idxs)).
Proof. apply (dump_loop_sections self show_hex show_ascii idxs []). Qed.

Lemma slice_all {A : Type} (l : list A) (b : Z) :
  len l ≤ b → slice l 0 b = l.
Proof.
  intros Hb. pose proof (len_nonneg l). unfold slice, clip_index.
  destruct (Z.ltb_spec b 0); [lia|]. destruct (Z.ltb_spec 0 0); [lia|].
  rewrite (Z.min_l 0), (Z.min_r b) by lia. rewrite Z.sub_0_r.
  unfold len. rewrite Nat2Z.id. apply firstn_all.
Qed.

Lemma slice_drop {A : Type} (l : list A) (a b : Z) :
  0 ≤ a → a ≤ len l → len l ≤ b → slice l a b = drop (Z.to_nat a) l.
Proof.
  intros Ha Hal Hb. unfold slice, clip_index.
  destruct (Z.ltb_spec a 0); [lia|]. destruct (Z.ltb_spec b 0); [lia|].
  rewrite (Z.min_l a), (Z.min_r b) by lia.
  apply take_ge. rewrite length_drop. unfold len. lia.
Qed.

Lemma slice_take {A : Type} (l : list A) (b : Z) :
  0 ≤ b → b ≤ len l → slice l 0 b = take (Z.to_nat b) l.
Proof.
  intros H0 Hb. rewrite slice_take_drop by (pose proof (len_nonneg l); lia).
  simpl. rewrite Z.sub_0_r. reflexivity.
Qed.

Lemma str_join_empty_sep (p : pystr) (ps : list pystr) :
  str_join [] (p :: ps) = p ++ str_join [] ps.
Proof. destruct ps; simpl; rewrite ?app_nil_r; reflexivity. Qed.

Lemma ascii_part_column (line_data : bytes) :
  str_join []
    ((λ b, if (32 <=? Z_of_byte b) && (Z_of_byte b <? 127)
           then chr b else lit ".") <$> line_data)
  = ascii_column line_data.
Proof.
  induction line_data as [|b bs IH]; [reflexivity|].
  rewrite fmap_cons, str_join_empty_sep, IH. unfold ascii_column.
  rewrite fmap_cons. case_bool_decide as Hb.
  - destruct (Z.leb_spec 32 (Z_of_byte b)); [|lia].
    destruct (Z.ltb_spec (Z_of_byte b) 127); [|lia]. reflexivity.
  - destruct (Z.leb_spec 32 (Z_of_byte b)); [|reflexivity].
    destruct (Z.ltb_spec (Z_of_byte b) 127); [lia|reflexivity].
Qed.

Lemma dump_row_ascii (show_hex : bool) (offset : Z) (line_data : bytes) :
  ∃ prefix : pystr,
    dump_row show_hex true offset line_data
    = prefix ++ ascii_column line_data.
Proof.
  unfold dump_row. rewrite ascii_part_column. destruct show_hex.
  - eexists. cbn [app str_join]. rewrite !app_assoc. reflexivity.
  - eexists. cbn [app str_join]. rewrite !app_assoc. reflexivity.
Qed.

Lemma py_range_all (n : nat) : py_range 0 (Z.of_nat n) = Z.of_nat <$> seq 0 n.
Proof.
  unfold py_range. rewrite Z.sub_0_r, Nat2Z.id.
  apply list_fmap_ext. intros _ k _. lia.
Qed.

(** C9. For a selected index inside the chunk list, [dump_chunks] adds a
    header line, a rule of 80 dashes, the rows and an empty line: for an
    empty payload the only row is the marker "  (empty)"; for a payload
    of 16 bytes there is one row holding all of it; for a payload of 17
    bytes there are two rows, the first 16 bytes at offset 0 and the last
    byte at offset 16. With [show_ascii] a row ends with the character
    column, in which a byte in 0x20..0x7E is its character and any other
    byte a full stop. An index outside the chunk list adds nothing, and
    no list of indices makes [dump_chunks] raise. *)
Theorem dump_chunks_formatting (self : CASReader.t)
    (show_hex show_ascii : bool) :
  (∀ idxs : list Z,
     ∃ lines,
       dump_lines self (Some idxs) show_hex show_ascii = Ok lines
       ∧ dump_chunks self (Some idxs) show_hex show_ascii
         = Ok (str_join [10%N] lines)
       ∧ dump_lines self
           (Some (filter (λ i, 0 ≤ i < len (CASReader.chunks self)) idxs))
           show_hex show_ascii
         = Ok lines)
  ∧ (∀ (idx : Z) (chunk : Chunk.t),
       0 ≤ idx → CASReader.chunks self !! Z.to_nat idx = Some chunk →
       ∃ (header_line : pystr) (rows : list pystr),
         dump_lines self (Some [idx]) show_hex show_ascii
         = Ok (header_line :: str_repeat (lit "-") 80 :: rows ++ [lit ""])
         ∧ (Chunk.data chunk = [] → rows = [lit "  (empty)"])
         ∧ (length (Chunk.data chunk) = 16%nat →
            rows = [dump_row show_hex show_ascii 0 (Chunk.data chunk)])
         ∧ (length (Chunk.data chunk) = 17%nat →
            rows = [dump_row show_hex show_ascii 0
                      (take 16 (Chunk.data chunk));
                    dump_row show_hex show_ascii 16
                      (drop 16 (Chunk.data chunk))]))
  ∧ (∀ (offset : Z) (line_data : bytes),
       ∃ prefix : pystr,
         dump_row show_hex true offset line_data
         = prefix ++ ascii_column line_data).
Proof.
  split; [|split].
  - intros idxs. eexists. split; [apply dump_lines_sections|]. split.
    + unfold dump_chunks. rewrite dump_lines_sections. reflexivity.
    + rewrite dump_lines_sections. f_equal.
      induction idxs as [|idx idxs IH]; [reflexivity|].
      rewrite filter_cons. destruct (decide _) as [Hin|Hout].
      * rewrite !fmap_cons. simpl. rewrite IH. reflexivity.
      * rewrite fmap_cons. simpl. rewrite IH. unfold chunk_section at 2.
        rewrite dump_chunks_step_skip by exact Hout. reflexivity.
  - intros idx chunk H0 Hc. eexists _, _. split.
    + unfold dump_lines. cbn [for_in].
      rewrite (chunk_section_in_range _ _ _ idx chunk) by done.
      cbn [mbind outcome_bind bind for_in app]. reflexivity.
    + split; [|split].
      * intros ->. reflexivity.
      * intros Hl. assert (len (Chunk.data chunk) = 16) as Hlen
          by (unfold len; lia).
        rewrite Hlen. cbn [Z.eqb]. change (py_range_step 16 16) with [0].
        cbn [fmap list_fmap]. rewrite slice_all by lia. reflexivity.
      * intros Hl. assert (len (Chunk.data chunk) = 17) as Hlen
          by (unfold len; lia).
        rewrite Hlen. cbn [Z.eqb]. change (py_range_step 17 16) with [0; 16].
        cbn [fmap list_fmap].
        rewrite (slice_take _ 16), (slice_drop _ 16) by lia. reflexivity.
  - apply dump_row_ascii.
Qed.

Lemma dump_chunks_formatting_witness :
  ∃ (header_line : pystr) (rows : list pystr),
    dump_lines demo_reader (Some [1]) true true
    = Ok (header_line :: str_repeat (lit "-") 80 :: rows ++ [lit ""])
    ∧ length rows = 2%nat.
Proof.
  destruct (proj1 (proj2 (dump_chunks_formatting demo_reader true true))
              1
              (Chunk.mk (ChunkHeader.mk ChunkType.DATA 17 7)
                 (list_byte_of_string "0123456789abcdefg"))
              ltac:(lia) eq_refl)
    as (header_line & rows & Hlines & _ & _ & H17).
  exists header_line, rows. split; [exact Hlines|].
  rewrite (H17 eq_refl). reflexivity.
Defined.

(** C10. With an explicit list of indices the output of [dump_chunks] is
    the chunk sections in the order of the list, one section for every
    occurrence of an index: the list is neither sorted nor deduplicated.
    The section of an index inside the chunk list is never empty, that of
    an index outside is. Without a list, the sections of all chunks
    appear in ascending order. *)
Theorem dump_chunks_selection_order (self : CASReader.t)
    (show_hex show_ascii : bool) :
  (∀ idxs : list Z,
     dump_lines self (Some idxs) show_hex show_ascii
     = Ok (concat (chunk_section self show_hex show_ascii <$> idxs))
     ∧ dump_chunks self (Some idxs) show_hex show_ascii
       = Ok (str_join [10%N]
               (concat (chunk_section self show_hex show_ascii <$> idxs))))
  ∧ (∀ idx : Z,
       0 ≤ idx < len (CASReader.chunks self) →
       ∃ (header_line : pystr) (rest : list pystr),
         chunk_section self show_hex show_ascii idx = header_line :: rest
         ∧ ∃ more, header_line = lit "Chunk [" ++ str_of_int idx ++ more)
  ∧ (∀ idx : Z,
       ¬ (0 ≤ idx < len (CASReader.chunks self)) →
       chunk_section self show_hex show_ascii idx = [])
  ∧ dump_chunks self None show_hex show_ascii
    = dump_chunks self
        (Some (Z.of_nat <$> seq 0 (length (CASReader.chunks self))))
        show_hex show_ascii.
Proof.
  split; [|split; [|split]].
  - intros idxs. split; [apply dump_lines_sections|].
    unfold dump_chunks. rewrite dump_lines_sections. reflexivity.
  - intros idx [H0 H1]. destruct (in_range_lookup _ _ H0 H1) as [chunk Hc].
    unfold chunk_section.
    rewrite (chunk_section_in_range _ _ _ idx chunk) by done.
    cbn [app]. eexists _, _. split; [reflexivity|].
    eexists. reflexivity.
  - intros idx Hout. unfold chunk_section.
    rewrite dump_chunks_step_skip by exact Hout. reflexivity.
  - unfold dump_chunks, dump_lines. unfold len. rewrite py_range_all.
    reflexivity.
Qed.

Lemma dump_chunks_selection_order_witness :
  ∃ (header_line : pystr) (rest : list pystr),
    chunk_section demo_reader true false 1 = header_line :: rest.
Proof.
  destruct (proj1 (proj2 (dump_chunks_selection_order demo_reader true false))
              1 ltac:(vm_compute; split; [discriminate | reflexivity]))
    as (header_line & rest & H & _).
  exists header_line, rest. exact H.
Defined.

Example dump_chunks_unsorted_selection :
  dump_lines demo_reader (Some [1; 0; 1]) true false
  = Ok (chunk_section demo_reader true false 1
        ++ chunk_section demo_reader true false 0
        ++ chunk_section demo_reader true false 1)
  ∧ dump_lines demo_reader (Some [1; 0; 1]) true false
    ≠ dump_lines demo_reader (Some [0; 1]) true false.
Proof.
  split; [vm_compute; reflexivity|]. vm_compute. discriminate.
Qed.

(** *** Selection specifications *)

(** Case analysis on every comparison of character codes in the goal. *)
Ltac case_code_tests :=
  repeat match goal with
         | |- context [(?a <=? ?b)%N] => destruct (N.leb_spec a b)
         | |- context [(?a =? ?b)%N] => destruct (N.eqb_spec a b)
         end.

Lemma drop_while_none {A : Type} (p : A → bool) (l : list A) :
  Forall (λ x, p x = false) l → drop_while p l = l.
Proof. destruct 1 as [|x l Hx _]; simpl; [|rewrite Hx]; reflexivity. Qed.

Lemma str_strip_id (s : list ascii) :
  Forall (λ c, is_space c = false) s → str_strip s = s.
Proof.
  intros H. unfold str_strip. rewrite (drop_while_none _ s H).
  rewrite drop_while_none by (by apply Forall_reverse).
  apply reverse_involutive.
Qed.

Lemma digit_not_space (c : ascii) : is_digit c = true → is_space c = false.
Proof.
  unfold is_digit, is_space. intros H.
  apply andb_true_iff in H as [H1 H2].
  apply N.leb_le in H1. apply N.leb_le in H2.
  case_code_tests; simpl; (reflexivity || lia).
Qed.

Lemma int_space_is_space (c : ascii) :
  is_int_space c = true → is_space c = true.
Proof.
  unfold is_int_space, is_space.
  case_code_tests; simpl; (reflexivity || discriminate || lia).
Qed.

Lemma digit_not_char (c d : ascii) :
  is_digit c = true → is_digit d = false → c ≠ d.
Proof. intros Hc Hd ->. congruence. Qed.

Lemma numeral_no_space (ds : list ascii) :
  Forall (λ c, is_digit c = true) ds → Forall (λ c, is_space c = false) ds.
Proof.
  intros H. eapply Forall_impl; [exact H|]. intros c. apply digit_not_space.
Qed.

Lemma numeral_not_elem (ds : list ascii) (d : ascii) :
  Forall (λ c, is_digit c = true) ds → is_digit d = false → d ∉ ds.
Proof.
  intros Hds Hd Hin. rewrite Forall_forall in Hds.
  specialize (Hds d Hin). congruence.
Qed.

Lemma int_digits_numeral (ds : list ascii) :
  Forall (λ c, is_digit c = true) ds →
  ∀ acc n, int_digits ds false acc n
           = Some (foldl (λ acc c, 10 * acc + digit_value c) acc ds,
                   n + len ds, []).
Proof.
  induction 1 as [|c ds Hc _ IH]; intros acc n; simpl.
  - do 2 f_equal. unfold len. simpl. f_equal. lia.
  - rewrite Hc, IH. do 2 f_equal. unfold len. simpl length. f_equal. lia.
Qed.

Lemma py_int_numeral (ds : list ascii) :
  numeral ds → len ds ≤ int_max_str_digits → py_int ds = Ok (number ds).
Proof.
  intros [Hne Hds] Hlen. unfold py_int.
  rewrite drop_while_none.
  2:{ eapply Forall_impl; [exact Hds|]. intros c Hc.
      destruct (is_int_space c) eqn:E; [|reflexivity].
      apply int_space_is_space in E.
      rewrite (digit_not_space c Hc) in E. discriminate. }
  destruct ds as [|c ds']; [done|].
  pose proof (Forall_inv Hds) as Hc. simpl in Hc.
  rewrite bool_decide_eq_false_2 by (by apply digit_not_char).
  rewrite bool_decide_eq_false_2 by (by apply digit_not_char).
  rewrite Hc, (int_digits_numeral _ Hds). cbn [forallb andb].
  rewrite Z.add_0_l. apply Z.leb_le in Hlen. rewrite Hlen. reflexivity.
Qed.

Lemma str_split_once_hyphen (sep : ascii) (a b : list ascii) :
  sep ∉ a → str_split_once sep (a ++ sep :: b) = [a; b].
Proof.
  induction a as [|c a IH]; intros Hn; simpl.
  - rewrite bool_decide_eq_true_2 by reflexivity. reflexivity.
  - rewrite not_elem_of_cons in Hn. destruct Hn as [Hc Ha].
    rewrite bool_decide_eq_false_2 by congruence.
    rewrite IH by exact Ha. reflexivity.
Qed.

Lemma str_split_no_sep (sep : ascii) (s : list ascii) :
  sep ∉ s → str_split sep s = [s].
Proof.
  induction s as [|c s IH]; intros Hn; simpl; [reflexivity|].
  rewrite not_elem_of_cons in Hn. destruct Hn as [Hc Hs].
  rewrite bool_decide_eq_false_2 by congruence.
  rewrite IH by exact Hs. reflexivity.
Qed.

Lemma str_split_app (sep : ascii) (s t : list ascii) :
  sep ∉ s → str_split sep (s ++ sep :: t) = s :: str_split sep t.
Proof.
  induction s as [|c s IH]; intros Hn; simpl.
  - rewrite bool_decide_eq_true_2 by reflexivity. reflexivity.
  - rewrite not_elem_of_cons in Hn. destruct Hn as [Hc Hs].
    rewrite bool_decide_eq_false_2 by congruence.
    rewrite IH by exact Hs. reflexivity.
Qed.

Lemma part_text_chars (p : selection_part) :
  part_ok p →
  part_text p ≠ []
  ∧ Forall (λ c, is_digit c = true ∨ c = "-"%char) (part_text p).
Proof.
  destruct p as [ds | a b]; simpl.
  - intros [Hne Hds]. split; [exact Hne|].
    eapply Forall_impl; [exact Hds|]. auto.
  - intros [[_ Ha] [_ Hb]]. split; [by destruct a|].
    apply Forall_app. split; [|constructor; [by right|]];
      (eapply Forall_impl; [eassumption|]; auto).
Qed.

Lemma part_text_no_comma (p : selection_part) :
  part_ok p → ","%char ∉ part_text p.
Proof.
  intros Hp Hin. destruct (part_text_chars p Hp) as [_ Hc].
  rewrite Forall_forall in Hc. destruct (Hc _ Hin) as [H|H]; discriminate.
Qed.

Lemma part_text_no_space (p : selection_part) :
  part_ok p → Forall (λ c, is_space c = false) (part_text p).
Proof.
  intros Hp. destruct (part_text_chars p Hp) as [_ Hc].
  eapply Forall_impl; [exact Hc|]. intros c [H| ->]; [|reflexivity].
  by apply digit_not_space.
Qed.

Lemma str_split_spec_text (ps : list selection_part) :
  ps ≠ [] → Forall part_ok ps →
  str_split "," (spec_text ps) = part_text <$> ps.
Proof.
  intros Hne Hps. induction Hps as [|p ps Hp Hps IH]; [done|].
  destruct ps as [|q ps].
  - simpl. apply str_split_no_sep, part_text_no_comma, Hp.
  - change (spec_text (p :: q :: ps))
      with (part_text p ++ ","%char :: spec_text (q :: ps)).
    rewrite str_split_app by (by apply part_text_no_comma).
    rewrite IH by done. reflexivity.
Qed.

Lemma spec_text_nonempty (ps : list selection_part) :
  ps ≠ [] → Forall part_ok ps → spec_text ps ≠ [].
Proof.
  intros Hne Hps. destruct Hps as [|p ps Hp _]; [done|].
  destruct (part_text_chars p Hp) as [Ht _].
  destruct ps; simpl; [exact Ht|]. by destruct (part_text p).
Qed.

Lemma elem_of_py_range (i lo hi : Z) : i ∈ py_range lo hi ↔ lo ≤ i < hi.
Proof.
  unfold py_range. rewrite list_elem_of_fmap. split.
  - intros (k & -> & Hk). apply elem_of_seq in Hk. lia.
  - intros H. exists (Z.to_nat (i - lo)). split; [lia|].
    apply elem_of_seq. lia.
Qed.

Lemma foldl_add_indices (max_chunks : Z) (l : list Z) :
  ∀ (acc : gset Z) (i : Z),
    i ∈ foldl (λ (indices : gset Z) i,
                 if (0 <=? i) && (i <? max_chunks) then {[i]} ∪ indices
                 else indices)
              acc l
    ↔ i ∈ acc ∨ (0 ≤ i < max_chunks ∧ i ∈ l).
Proof.
  induction l as [|x l IH]; intros acc i; simpl.
  - rewrite elem_of_nil. tauto.
  - rewrite IH.
    destruct (Z.leb_spec 0 x), (Z.ltb_spec x max_chunks); simpl;
      rewrite ?elem_of_union, ?elem_of_singleton, elem_of_cons;
      intuition (subst; auto; lia).
Qed.

Lemma step_part (max_chunks : Z) (acc : gset Z) (p : selection_part) :
  part_ok p → part_sized p →
  ∃ acc' : gset Z,
    parse_chunk_selection_step max_chunks acc (part_text p) = Ok acc'
    ∧ ∀ i, i ∈ acc' ↔ i ∈ acc ∨ (0 ≤ i < max_chunks ∧ selects p i).
Proof.
  intros Hp Hsz. unfold parse_chunk_selection_step.
  rewrite (str_strip_id _ (part_text_no_space p Hp)).
  destruct p as [ds | a b]; simpl in Hp, Hsz |- *.
  - rewrite bool_decide_eq_false_2
      by (apply numeral_not_elem; [apply Hp | reflexivity]).
    rewrite (py_int_numeral ds Hp Hsz). cbn [mbind outcome_bind bind].
    destruct (Z.leb_spec 0 (number ds)), (Z.ltb_spec (number ds) max_chunks);
      simpl; eexists; (split; [reflexivity|]); intros i;
      rewrite ?elem_of_union, ?elem_of_singleton;
      intuition (subst; auto; lia).
  - destruct Hp as [Ha Hb]. destruct Hsz as [Hsa Hsb].
    rewrite bool_decide_eq_true_2 by (apply elem_of_app; right; left).
    rewrite str_split_once_hyphen
      by (apply numeral_not_elem; [apply Ha | reflexivity]).
    cbn [unpack2 mbind outcome_bind bind].
    rewrite !str_strip_id by (apply numeral_no_space; [apply Ha || apply Hb]).
    rewrite (py_int_numeral a Ha Hsa), (py_int_numeral b Hb Hsb).
    cbn [mbind outcome_bind bind]. eexists. split; [reflexivity|].
    intros i. rewrite foldl_add_indices, elem_of_py_range.
    intuition lia.
Qed.

Lemma loop_parts (max_chunks : Z) (ps : list selection_part) :
  Forall (λ p, part_ok p ∧ part_sized p) ps →
  ∀ acc : gset Z,
    ∃ acc' : gset Z,
      for_in (part_text <$> ps) (parse_chunk_selection_step max_chunks) acc
      = Ok acc'
      ∧ ∀ i, i ∈ acc'
             ↔ i ∈ acc ∨ (0 ≤ i < max_chunks ∧ ∃ p, p ∈ ps ∧ selects p i).
Proof.
  induction 1 as [|p ps [Hp Hsz] _ IH]; intros acc.
  - exists acc. split; [reflexivity|]. intros i. split; [auto|].
    intros [H | (_ & p & Hin & _)]; [exact H|]. by apply elem_of_nil in Hin.
  - destruct (step_part max_chunks acc p Hp Hsz) as (acc1 & H1 & Hacc1).
    destruct (IH acc1) as (acc2 & H2 & Hacc2).
    exists acc2. rewrite fmap_cons. cbn [for_in]. rewrite H1.
    cbn [mbind outcome_bind bind]. split; [exact H2|].
    intros i. rewrite Hacc2, Hacc1. split.
    + intros [[H | [Hr Hs]] | (Hr & q & Hq & Hs)]; [by left | right..].
      * split; [exact Hr|]. exists p. split; [left|exact Hs].
      * split; [exact Hr|]. exists q. split; [by right|exact Hs].
    + intros [H | (Hr & q & Hq & Hs)]; [by left; left|].
      apply elem_of_cons in Hq as [-> | Hq]; [left; right; by split|].
      right. split; [exact Hr|]. by exists q.
Qed.

Lemma StronglySorted_le_lt (l : list Z) :
  StronglySorted Z.le l → NoDup l → StronglySorted Z.lt l.
Proof.
  induction 1 as [|x l _ IH Hx]; intros Hnd; constructor.
  - apply IH. by apply NoDup_cons_1_2 in Hnd.
  - apply NoDup_cons_1_1 in Hnd. rewrite Forall_forall in Hx |- *.
    intros y Hy. specialize (Hx y Hy).
    assert (x ≠ y) by (intros ->; contradiction). lia.
Qed.

Lemma sorted_elements (X : gset Z) :
  StronglySorted Z.lt (merge_sort Z.le (elements X))
  ∧ ∀ i, i ∈ merge_sort Z.le (elements X) ↔ i ∈ X.
Proof.
  pose proof (merge_sort_Permutation Z.le (elements X)) as Hperm.
  split.
  - apply StronglySorted_le_lt.
    + apply (StronglySorted_merge_sort Z.le).
    + rewrite Hperm. apply NoDup_elements.
  - intros i. rewrite Hperm. apply elem_of_elements.
Qed.

Lemma parse_chunk_selection_parts (max_chunks : Z)
    (ps : list selection_part) :
  ps ≠ [] → Forall part_ok ps → Forall part_sized ps →
  ∃ l : list Z,
    parse_chunk_selection (spec_text ps) max_chunks = Ok l
    ∧ StronglySorted Z.lt l
    ∧ ∀ i, i ∈ l ↔ 0 ≤ i < max_chunks ∧ ∃ p, p ∈ ps ∧ selects p i.
Proof.
  intros Hne Hps Hsz. unfold parse_chunk_selection.
  rewrite bool_decide_eq_false_2 by (by apply spec_text_nonempty).
  rewrite str_split_spec_text by done.
  destruct (loop_parts max_chunks ps) with (acc := (∅ : gset Z))
    as (X & HX & Hmem).
  { apply Forall_and. by split. }
  rewrite HX. cbn [mbind outcome_bind bind].
  destruct (sorted_elements X) as [Hsorted Hel].
  eexists. split; [reflexivity|]. split; [exact Hsorted|].
  intros i. rewrite Hel, Hmem, elem_of_empty. tauto.
Qed.

(** *** Rejected specifications *)

Lemma py_int_outcome (s : list ascii) :
  (∃ v, py_int s = Ok v) ∨ py_int s = Raise ValueError.
Proof.
  unfold py_int. destruct (drop_while is_int_space s) as [|c s1]; [by right|].
  destruct (if bool_decide (c = "+"%char) then (false, s1)
            else if bool_decide (c = "-"%char) then (true, s1)
            else (false, c :: s1)) as [negative [|d s2]]; [by right|].
  destruct (is_digit d); [|by right].
  destruct (int_digits (d :: s2) false 0 0) as [[[v n] rest]|]; [|by right].
  destruct (forallb is_int_space rest && (n <=? int_max_str_digits));
    [left; by eexists | by right].
Qed.

Lemma drop_while_elem {A : Type} (p : A → bool) (l : list A) (x : A) :
  x ∈ l → p x = false → x ∈ drop_while p l.
Proof.
  induction l as [|y l IH]; intros Hin Hx; [done|]. simpl.
  destruct (p y) eqn:Hy; [|exact Hin].
  apply elem_of_cons in Hin as [-> | Hin]; [congruence | by apply IH].
Qed.

Lemma str_strip_elem (s : list ascii) (c : ascii) :
  c ∈ s → is_space c = false → c ∈ str_strip s.
Proof.
  intros Hin Hc. unfold str_strip.
  apply elem_of_reverse, drop_while_elem; [|exact Hc].
  apply elem_of_reverse, drop_while_elem; [exact Hin | exact Hc].
Qed.

Lemma int_digits_chars (s : list ascii) :
  ∀ (prev : bool) (acc n v n' : Z) (rest : list ascii),
    int_digits s prev acc n = Some (v, n', rest) →
    ∀ c, c ∈ s → is_digit c = true ∨ c = "_"%char ∨ c ∈ rest.
Proof.
  induction s as [|d s IH]; intros prev acc n v n' rest Hs c Hc;
    [by apply elem_of_nil in Hc|].
  simpl in Hs. destruct (is_digit d) eqn:Hd.
  - apply elem_of_cons in Hc as [-> | Hc]; [by left | by eapply IH].
  - case_bool_decide as Hu.
    + destruct prev; [discriminate|].
      apply elem_of_cons in Hc as [-> | Hc]; [by right; left | by eapply IH].
    + destruct prev; [discriminate|]. injection Hs as _ _ <-.
      by right; right.
Qed.

Lemma selection_char_space (c : ascii) :
  is_selection_char c = false → is_space c = false.
Proof.
  unfold is_selection_char. destruct (is_space c); [|reflexivity].
  rewrite orb_true_r. simpl. discriminate.
Qed.

Lemma py_int_chars (s : list ascii) (v : Z) :
  py_int s = Ok v → ∀ c, c ∈ s → is_selection_char c = true.
Proof.
  intros Hs c Hc. destruct (is_selection_char c) eqn:Hsel; [reflexivity|].
  exfalso. pose proof (selection_char_space c Hsel) as Hsp.
  assert (is_int_space c = false) as Hisp.
  { destruct (is_int_space c) eqn:E; [|reflexivity].
    apply int_space_is_space in E. congruence. }
  unfold is_selection_char in Hsel.
  apply orb_false_iff in Hsel as [Hsel Hus].
  apply orb_false_iff in Hsel as [Hsel Hminus].
  apply orb_false_iff in Hsel as [Hsel Hplus].
  apply orb_false_iff in Hsel as [Hdig _].
  apply bool_decide_eq_false in Hus, Hminus, Hplus.
  unfold py_int in Hs.
  pose proof (drop_while_elem is_int_space s c Hc Hisp) as Hc1.
  destruct (drop_while is_int_space s) as [|c0 s1]; [discriminate|].
  assert (∀ negative s2,
            c ∈ s2 →
            match s2 with
            | [] => Raise ValueError
            | d :: _ =>
              if is_digit d then
                match int_digits s2 false 0 0 with
                | Some (v, digits, rest) =>
                  if forallb is_int_space rest
                     && (digits <=? int_max_str_digits)
                  then Ok (if negative : bool then - v else v)
                  else Raise ValueError
                | None => Raise ValueError
                end
              else Raise ValueError
            end = Ok v → False) as Hbody.
  { intros negative [|d s2] Hin H; [discriminate|].
    destruct (is_digit d); [|discriminate].
    destruct (int_digits (d :: s2) false 0 0) as [[[v' n'] rest]|] eqn:Hd;
      [|discriminate].
    destruct (forallb is_int_space rest) eqn:Hrest; [|discriminate].
    destruct (int_digits_chars _ _ _ _ _ _ _ Hd c Hin) as [H1 | [H1 | H1]];
      [congruence | done |].
    rewrite forallb_forall in Hrest.
    apply list_elem_of_In in H1. specialize (Hrest c H1). congruence. }
  case_bool_decide as Hp0.
  - subst c0. apply elem_of_cons in Hc1 as [-> | Hc1]; [done|].
    by apply (Hbody false s1).
  - case_bool_decide as Hm0.
    + subst c0. apply elem_of_cons in Hc1 as [-> | Hc1]; [done|].
      by apply (Hbody true s1).
    + by apply (Hbody false (c0 :: s1)).
Qed.

Lemma py_int_bad_char (s : list ascii) (c : ascii) :
  c ∈ s → is_selection_char c = false → py_int s = Raise ValueError.
Proof.
  intros Hc Hsel. destruct (py_int_outcome s) as [[v Hv] | H]; [|exact H].
  rewrite (py_int_chars s v Hv c Hc) in Hsel. discriminate.
Qed.

Lemma step_outcome (max_chunks : Z) (acc : gset Z) (part : list ascii) :
  (∃ acc', parse_chunk_selection_step max_chunks acc part = Ok acc')
  ∨ parse_chunk_selection_step max_chunks acc part = Raise ValueError.
Proof.
  unfold parse_chunk_selection_step. case_bool_decide.
  - destruct (str_split_once "-" (str_strip part)) as [|a [|b [|? ?]]];
      [by right.. | | by right].
    cbn [unpack2 mbind outcome_bind bind].
    destruct (py_int_outcome (str_strip a)) as [[va ->] | ->]; [|by right].
    destruct (py_int_outcome (str_strip b)) as [[vb ->] | ->]; [|by right].
    left. by eexists.
  - destruct (py_int_outcome (str_strip part)) as [[v ->] | ->]; [|by right].
    cbn [mbind outcome_bind bind]. left.
    destruct (_ && _); by eexists.
Qed.

Lemma step_bad_char (max_chunks : Z) (acc : gset Z) (part : list ascii)
    (c : ascii) :
  c ∈ part → is_selection_char c = false →
  parse_chunk_selection_step max_chunks acc part = Raise ValueError.
Proof.
  intros Hc Hsel. pose proof (selection_char_space c Hsel) as Hsp.
  pose proof (str_strip_elem part c Hc Hsp) as Hc'.
  unfold parse_chunk_selection_step. case_bool_decide as Hh.
  - apply list_elem_of_split_l in Hh as (a & b & Hab & Ha).
    rewrite Hab in Hc' |- *. rewrite str_split_once_hyphen by exact Ha.
    cbn [unpack2 mbind outcome_bind bind].
    apply elem_of_app in Hc' as [Hca | Hcb].
    + rewrite (py_int_bad_char (str_strip a) c); [reflexivity| |exact Hsel].
      by apply str_strip_elem.
    + apply elem_of_cons in Hcb as [-> | Hcb]; [discriminate|].
      destruct (py_int_outcome (str_strip a)) as [[va ->] | ->];
        [|reflexivity].
      cbn [mbind outcome_bind bind].
      rewrite (py_int_bad_char (str_strip b) c); [reflexivity| |exact Hsel].
      by apply str_strip_elem.
  - rewrite (py_int_bad_char (str_strip part) c Hc' Hsel). reflexivity.
Qed.

Lemma for_in_step_raise (max_chunks : Z) (parts : list (list ascii))
    (part : list ascii) :
  part ∈ parts →
  (∀ acc, parse_chunk_selection_step max_chunks acc part = Raise ValueError) →
  ∀ acc,
    for_in parts (parse_chunk_selection_step max_chunks) acc
    = Raise ValueError.
Proof.
  intros Hin Hbad. induction parts as [|q parts IH]; intros acc;
    [by apply elem_of_nil in Hin|].
  cbn [for_in].
  destruct (step_outcome max_chunks acc q) as [[acc' Hq] | Hq]; rewrite Hq;
    [|reflexivity].
  cbn [mbind outcome_bind bind].
  apply elem_of_cons in Hin as [-> | Hin]; [|by apply IH].
  rewrite Hbad in Hq. discriminate.
Qed.

Lemma parse_chunk_selection_bad_char (chunk_spec part : list ascii)
    (c : ascii) (max_chunks : Z) :
  chunk_spec ≠ [] → part ∈ str_split "," chunk_spec →
  c ∈ part → is_selection_char c = false →
  parse_chunk_selection chunk_spec max_chunks = Raise ValueError.
Proof.
  intros Hne Hpart Hc Hsel. unfold parse_chunk_selection.
  rewrite bool_decide_eq_false_2 by exact Hne.
  rewrite (for_in_step_raise max_chunks _ part Hpart); [reflexivity|].
  intros acc. by apply (step_bad_char max_chunks acc part c).
Qed.

Lemma parse_chunk_selection_outcome (chunk_spec : list ascii)
    (max_chunks : Z) :
  (∃ l, parse_chunk_selection chunk_spec max_chunks = Ok l)
  ∨ parse_chunk_selection chunk_spec max_chunks = Raise ValueError.
Proof.
  unfold parse_chunk_selection. case_bool_decide; [left; by eexists|].
  generalize (∅ : gset Z).
  induction (str_split "," chunk_spec) as [|part parts IH]; intros acc.
  - left. by eexists.
  - cbn [for_in].
    destruct (step_outcome max_chunks acc part) as [[acc' ->] | ->];
      [|by right].
    apply IH.
Qed.

(** *** The syntax of the accepted parts *)

Lemma drop_while_split {A : Type} (p : A → bool) (l : list A) :
  ∃ w, l = w ++ drop_while p l ∧ Forall (λ x, p x = true) w.
Proof.
  induction l as [|x l (w & Hw & Hp)]; simpl; [by exists []|].
  destruct (p x) eqn:Hx; [|by exists []].
  exists (x :: w). split; [simpl; congruence | by constructor].
Qed.

Lemma drop_while_app {A : Type} (p : A → bool) (w : list A) (x : A)
    (t : list A) :
  Forall (λ x, p x = true) w → p x = false →
  drop_while p (w ++ x :: t) = x :: t.
Proof.
  induction 1 as [|y w Hy _ IH]; intros Hx; simpl;
    [by rewrite Hx | rewrite Hy; by apply IH].
Qed.

Lemma digit_not_int_space (c : ascii) :
  is_digit c = true → is_int_space c = false.
Proof.
  intros Hc. destruct (is_int_space c) eqn:E; [|reflexivity].
  apply int_space_is_space in E. rewrite (digit_not_space c Hc) in E.
  discriminate.
Qed.

Lemma int_space_ends_literal (c : ascii) :
  is_int_space c = true → is_digit c = false ∧ c ≠ "_"%char.
Proof.
  intros Hc. split.
  - destruct (is_digit c) eqn:E; [|reflexivity].
    apply digit_not_int_space in E. congruence.
  - intros ->. discriminate.
Qed.

Lemma int_digits_tail (body ds : list ascii) :
  literal_tail body ds →
  ∀ (rest : list ascii) (acc n : Z),
    (∀ c rest', rest = c :: rest' → is_digit c = false ∧ c ≠ "_"%char) →
    int_digits (body ++ rest) false acc n
    = Some (foldl (λ acc c, 10 * acc + digit_value c) acc ds,
            n + len ds, rest).
Proof.
  induction 1 as [|d s ds Hd _ IH|d s ds Hd _ IH]; intros rest acc n Hrest.
  - rewrite app_nil_l. change (len (@nil ascii)) with 0. rewrite Z.add_0_r.
    destruct rest as [|c rest']; [reflexivity|].
    destruct (Hrest c rest' eq_refl) as [Hc Hu]. cbn [int_digits foldl].
    rewrite Hc, bool_decide_eq_false_2 by exact Hu. reflexivity.
  - cbn [app int_digits foldl]. rewrite Hd, IH by exact Hrest.
    do 2 f_equal. f_equal. unfold len. simpl length. lia.
  - cbn [app int_digits foldl].
    change (is_digit "_"%char) with false. cbn iota.
    rewrite bool_decide_eq_true_2 by reflexivity.
    rewrite Hd, IH by exact Hrest.
    do 2 f_equal. f_equal. unfold len. simpl length. lia.
Qed.

Lemma int_digits_sound (s : list ascii) :
  (∀ (acc n v n' : Z) (rest : list ascii),
     int_digits s false acc n = Some (v, n', rest) →
     ∃ body ds,
       s = body ++ rest ∧ literal_tail body ds
       ∧ v = foldl (λ acc c, 10 * acc + digit_value c) acc ds
       ∧ n' = n + len ds)
  ∧ (∀ (acc n v n' : Z) (rest : list ascii),
       int_digits s true acc n = Some (v, n', rest) →
       ∃ d body ds,
         s = d :: body ++ rest ∧ is_digit d = true ∧ literal_tail body ds
         ∧ v = foldl (λ acc c, 10 * acc + digit_value c) acc (d :: ds)
         ∧ n' = n + len (d :: ds)).
Proof.
  induction s as [|c s [IH0 IH1]]; split; intros acc n v n' rest H;
    cbn [int_digits] in H.
  - injection H as <- <- <-. exists [], [].
    repeat split; [constructor | unfold len; simpl; lia].
  - discriminate.
  - destruct (is_digit c) eqn:Hc.
    + apply IH0 in H as (body & ds & -> & Ht & -> & ->).
      exists (c :: body), (c :: ds).
      repeat split; [by constructor | unfold len; simpl length; lia].
    + case_bool_decide as Hu.
      * subst c. apply IH1 in H as (d & body & ds & -> & Hd & Ht & -> & ->).
        exists ("_"%char :: d :: body), (d :: ds).
        repeat split. by constructor.
      * injection H as <- <- <-. exists [], [].
        repeat split; [constructor | unfold len; simpl; lia].
  - destruct (is_digit c) eqn:Hc.
    + apply IH0 in H as (body & ds & -> & Ht & -> & ->).
      exists c, body, ds.
      repeat split; [exact Hc | exact Ht | unfold len; simpl length; lia].
    + case_bool_decide; discriminate.
Qed.

Lemma py_int_sound (s : list ascii) (v : Z) : py_int s = Ok v → int_text s v.
Proof.
  unfold py_int.
  destruct (drop_while_split is_int_space s) as (w1 & Hs & Hw1).
  destruct (drop_while is_int_space s) as [|c s1]; [discriminate|].
  assert (∀ (negative : bool) (sign s2 : list ascii),
            c :: s1 = sign ++ s2 →
            negative = false ∧ (sign = [] ∨ sign = ["+"%char])
            ∨ negative = true ∧ sign = ["-"%char] →
            match s2 with
            | [] => Raise ValueError
            | d :: _ =>
              if is_digit d then
                match int_digits s2 false 0 0 with
                | Some (v, digits, rest) =>
                  if forallb is_int_space rest
                     && (digits <=? int_max_str_digits)
                  then Ok (if negative then - v else v)
                  else Raise ValueError
                | None => Raise ValueError
                end
              else Raise ValueError
            end = Ok v → int_text s v) as Hbody.
  { intros negative sign [|d s2] Hsplit Hsign H; [discriminate|].
    destruct (is_digit d) eqn:Hd; [|discriminate].
    cbn [int_digits] in H. rewrite Hd in H.
    destruct (int_digits s2 false (10 * 0 + digit_value d) (0 + 1))
      as [[[v0 n0] rest]|] eqn:Hdig; [|discriminate].
    destruct (forallb is_int_space rest) eqn:Hrest; [|discriminate].
    destruct (n0 <=? int_max_str_digits) eqn:Hn; [|discriminate].
    cbn [andb] in H. injection H as <-.
    apply (proj1 (int_digits_sound s2)) in Hdig
      as (body & ds & -> & Ht & -> & ->).
    exists w1, sign, d, body, ds, rest.
    split; [rewrite Hs at 1; by rewrite Hsplit|].
    split; [exact Hw1|].
    split.
    { apply Forall_forall. intros x Hx. rewrite forallb_forall in Hrest.
      apply Hrest. by apply list_elem_of_In. }
    split; [exact Hd|]. split; [exact Ht|].
    split.
    { apply Z.leb_le in Hn. unfold len in Hn |- *. simpl length. lia. }
    destruct Hsign as [[-> Hsg] | [-> ->]]; [left | right];
      (split; [assumption || reflexivity | reflexivity]). }
  case_bool_decide as Hp0.
  - subst c. apply (Hbody false ["+"%char] s1); [reflexivity | left; auto].
  - case_bool_decide as Hm0.
    + subst c. apply (Hbody true ["-"%char] s1); [reflexivity | right; auto].
    + apply (Hbody false [] (c :: s1)); [reflexivity | left; auto].
Qed.

Lemma py_int_complete (s : list ascii) (v : Z) :
  int_text s v → py_int s = Ok v.
Proof.
  intros (w1 & sign & d & body & ds & w2
          & -> & Hw1 & Hw2 & Hd & Ht & Hlen & Hsign).
  assert (int_digits (d :: body ++ w2) false 0 0
          = Some (number (d :: ds), len (d :: ds), w2)) as Hrun.
  { cbn [int_digits]. rewrite Hd. rewrite (int_digits_tail body ds Ht).
    - replace (0 + 1 + len ds) with (len (d :: ds))
        by (unfold len; simpl length; lia).
      reflexivity.
    - intros c rest' ->. apply int_space_ends_literal.
      by apply Forall_inv in Hw2. }
  assert (forallb is_int_space w2 = true) as Hfor.
  { apply forallb_forall. intros x Hx. rewrite Forall_forall in Hw2.
    apply Hw2. by apply list_elem_of_In. }
  apply Z.leb_le in Hlen. unfold py_int.
  destruct Hsign as [[[-> | ->] ->] | [-> ->]]; cbn [app].
  - rewrite drop_while_app by (exact Hw1 || by apply digit_not_int_space).
    rewrite !bool_decide_eq_false_2 by (by apply digit_not_char).
    rewrite Hd, Hrun, Hfor, Hlen. reflexivity.
  - rewrite drop_while_app by (exact Hw1 || reflexivity).
    rewrite bool_decide_eq_true_2 by reflexivity.
    rewrite Hd, Hrun, Hfor, Hlen. reflexivity.
  - rewrite drop_while_app by (exact Hw1 || reflexivity).
    rewrite bool_decide_eq_false_2 by discriminate.
    rewrite bool_decide_eq_true_2 by reflexivity.
    rewrite Hd, Hrun, Hfor, Hlen. reflexivity.
Qed.

Lemma step_denotes (max_chunks : Z) (acc : gset Z) (part : list ascii)
    (lo hi : Z) :
  part_denotes part lo hi →
  ∃ acc' : gset Z,
    parse_chunk_selection_step max_chunks acc part = Ok acc'
    ∧ ∀ i, i ∈ acc' ↔ i ∈ acc ∨ (0 ≤ i < max_chunks ∧ lo ≤ i ≤ hi).
Proof.
  intros [(Hno & Hint & ->) | (a & b & Hsplit & Ha & Hlo & Hhi)];
    unfold parse_chunk_selection_step.
  - rewrite bool_decide_eq_false_2 by exact Hno.
    rewrite (py_int_complete _ _ Hint). cbn [mbind outcome_bind bind].
    destruct (Z.leb_spec 0 lo), (Z.ltb_spec lo max_chunks);
      simpl; eexists; (split; [reflexivity|]); intros i;
      rewrite ?elem_of_union, ?elem_of_singleton;
      intuition (subst; auto; lia).
  - rewrite Hsplit.
    rewrite bool_decide_eq_true_2 by (apply elem_of_app; right; left).
    rewrite str_split_once_hyphen by exact Ha.
    cbn [unpack2 mbind outcome_bind bind].
    rewrite (py_int_complete _ _ Hlo), (py_int_complete _ _ Hhi).
    cbn [mbind outcome_bind bind]. eexists. split; [reflexivity|].
    intros i. rewrite foldl_add_indices, elem_of_py_range.
    intuition lia.
Qed.

Lemma step_well_formed (max_chunks : Z) (acc acc' : gset Z)
    (part : list ascii) :
  parse_chunk_selection_step max_chunks acc part = Ok acc' →
  well_formed part.
Proof.
  unfold parse_chunk_selection_step, well_formed, part_denotes.
  case_bool_decide as Hh.
  - pose proof Hh as Hh'.
    apply list_elem_of_split_l in Hh' as (a & b & Hab & Ha).
    rewrite Hab. rewrite str_split_once_hyphen by exact Ha.
    cbn [unpack2 mbind outcome_bind bind].
    destruct (py_int (str_strip a)) as [va| |] eqn:Hva; [|discriminate..].
    destruct (py_int (str_strip b)) as [vb| |] eqn:Hvb; [|discriminate..].
    intros _. exists va, vb. right. exists a, b.
    repeat split; [exact Ha | by apply py_int_sound..].
  - destruct (py_int (str_strip part)) as [v| |] eqn:Hv; [|discriminate..].
    intros _. exists v, v. left.
    repeat split; [exact Hh | by apply py_int_sound].
Qed.

Lemma step_malformed (max_chunks : Z) (acc : gset Z) (part : list ascii) :
  ¬ well_formed part →
  parse_chunk_selection_step max_chunks acc part = Raise ValueError.
Proof.
  intros Hbad.
  destruct (step_outcome max_chunks acc part) as [[acc' H] | H]; [|exact H].
  destruct Hbad. by eapply step_well_formed.
Qed.

Lemma well_formed_or_not (parts : list (list ascii)) :
  Forall well_formed parts ∨ ∃ part, part ∈ parts ∧ ¬ well_formed part.
Proof.
  induction parts as [|p parts IH]; [left; constructor|].
  destruct (step_outcome 0 ∅ p) as [[acc' H] | H].
  - apply step_well_formed in H.
    destruct IH as [IH | (q & Hin & Hq)]; [left; by constructor|].
    right. exists q. split; [by right | exact Hq].
  - right. exists p. split; [left|]. intros (lo & hi & Hd).
    destruct (step_denotes 0 ∅ p lo hi Hd) as (acc' & H' & _). congruence.
Qed.

Lemma loop_denotes (max_chunks : Z) (parts : list (list ascii)) :
  Forall well_formed parts →
  ∀ acc : gset Z,
    ∃ acc' : gset Z,
      for_in parts (parse_chunk_selection_step max_chunks) acc = Ok acc'
      ∧ ∀ i, i ∈ acc'
             ↔ i ∈ acc
               ∨ (0 ≤ i < max_chunks
                  ∧ ∃ part lo hi,
                      part ∈ parts ∧ part_denotes part lo hi ∧ lo ≤ i ≤ hi).
Proof.
  induction 1 as [|p parts (lo & hi & Hp) _ IH]; intros acc.
  - exists acc. split; [reflexivity|]. intros i. split; [auto|].
    intros [H | (_ & p & lo & hi & Hin & _)]; [exact H|].
    by apply elem_of_nil in Hin.
  - destruct (step_denotes max_chunks acc p lo hi Hp) as (acc1 & H1 & Hacc1).
    destruct (IH acc1) as (acc2 & H2 & Hacc2).
    exists acc2. cbn [for_in]. rewrite H1.
    cbn [mbind outcome_bind bind]. split; [exact H2|].
    intros i. rewrite Hacc2. split.
    + intros [H | (Hr & q & lo' & hi' & Hq & Hd & Hs)].
      * apply Hacc1 in H as [H | [Hr Hs]]; [by left|].
        right. split; [exact Hr|]. exists p, lo, hi. split; [left | done].
      * right. split; [exact Hr|]. exists q, lo', hi'.
        split; [by right | done].
    + intros [H | (Hr & q & lo' & hi' & Hq & Hd & Hs)];
        [left; apply Hacc1; by left|].
      apply elem_of_cons in Hq as [-> | Hq].
      * left.
        destruct (step_denotes max_chunks acc p lo' hi' Hd)
          as (acc1' & H1' & Hacc1').
        rewrite H1 in H1'. injection H1' as <-.
        apply Hacc1'. right. by split.
      * right. split; [exact Hr|]. by exists q, lo', hi'.
Qed.

Lemma parse_chunk_selection_well_formed (max_chunks : Z)
    (chunk_spec : list ascii) :
  chunk_spec ≠ [] → Forall well_formed (str_split "," chunk_spec) →
  ∃ l : list Z,
    parse_chunk_selection chunk_spec max_chunks = Ok l
    ∧ StronglySorted Z.lt l
    ∧ ∀ i, i ∈ l
           ↔ 0 ≤ i < max_chunks
             ∧ ∃ part lo hi,
                 part ∈ str_split "," chunk_spec
                 ∧ part_denotes part lo hi ∧ lo ≤ i ≤ hi.
Proof.
  intros Hne Hparts. unfold parse_chunk_selection.
  rewrite bool_decide_eq_false_2 by exact Hne.
  destruct (loop_denotes max_chunks _ Hparts ∅) as (X & HX & Hmem).
  rewrite HX. cbn [mbind outcome_bind bind].
  destruct (sorted_elements X) as [Hsorted Hel].
  eexists. split; [reflexivity|]. split; [exact Hsorted|].
  intros i. rewrite Hel, Hmem, elem_of_empty. tauto.
Qed.

Lemma parse_chunk_selection_malformed (max_chunks : Z)
    (chunk_spec part : list ascii) :
  chunk_spec ≠ [] → part ∈ str_split "," chunk_spec → ¬ well_formed part →
  parse_chunk_selection chunk_spec max_chunks = Raise ValueError.
Proof.
  intros Hne Hpart Hbad. unfold parse_chunk_selection.
  rewrite bool_decide_eq_false_2 by exact Hne.
  rewrite (for_in_step_raise max_chunks _ part Hpart); [reflexivity|].
  intros acc. by apply step_malformed.
Qed.

Lemma well_formed_run (part : list ascii) :
  well_formed part →
  ∃ acc' : gset Z, parse_chunk_selection_step 0 ∅ part = Ok acc'.
Proof.
  intros (lo & hi & Hd).
  destruct (step_denotes 0 ∅ part lo hi Hd) as (acc' & H & _).
  by exists acc'.
Qed.

(** C6. [parse_chunk_selection] on the empty specification returns
    0, 1, ..., max_chunks - 1. On a specification written as numerals
    and hyphenated pairs of numerals with commas between them, no
    numeral longer than the 4300 digits [int()] converts, it returns a
    strictly ascending list (so without duplicates) holding exactly the
    indices [i] with [0 <= i < max_chunks] that some part references; a
    pair whose start exceeds its end references nothing. On every
    non-empty specification: when every part between commas is well
    formed (an integer as [int()] reads it, or two of them around the
    first hyphen of the part) the result is the strictly ascending list
    of exactly the indices in range that lie between the two bounds of
    some part; when some part is not well formed, [ValueError] is
    raised; and one of the two is the case. It raises [ValueError]
    whenever some part holds a character that is no digit, white space,
    sign, hyphen or underscore, and it never ends in another way than by
    returning or raising [ValueError]. The four sample specifications
    give the stated results. *)
Theorem parse_chunk_selection_spec (max_chunks : Z) :
  parse_chunk_selection [] max_chunks
  = Ok (Z.of_nat <$> seq 0 (Z.to_nat max_chunks))
  ∧ (∀ ps : list selection_part,
       ps ≠ [] → Forall part_ok ps → Forall part_sized ps →
       ∃ l : list Z,
         parse_chunk_selection (spec_text ps) max_chunks = Ok l
         ∧ StronglySorted Z.lt l
         ∧ ∀ i, i ∈ l ↔ 0 ≤ i < max_chunks ∧ ∃ p, p ∈ ps ∧ selects p i)
  ∧ (∀ chunk_spec : list ascii,
       chunk_spec ≠ [] →
       (Forall well_formed (str_split "," chunk_spec) →
        ∃ l : list Z,
          parse_chunk_selection chunk_spec max_chunks = Ok l
          ∧ StronglySorted Z.lt l
          ∧ ∀ i, i ∈ l
                 ↔ 0 ≤ i < max_chunks
                   ∧ ∃ part lo hi,
                       part ∈ str_split "," chunk_spec
                       ∧ part_denotes part lo hi ∧ lo ≤ i ≤ hi)
       ∧ (∀ part : list ascii,
            part ∈ str_split "," chunk_spec → ¬ well_formed part →
            parse_chunk_selection chunk_spec max_chunks = Raise ValueError)
       ∧ (Forall well_formed (str_split "," chunk_spec)
          ∨ ∃ part, part ∈ str_split "," chunk_spec ∧ ¬ well_formed part))
  ∧ (∀ (chunk_spec part : list ascii) (c : ascii),
       chunk_spec ≠ [] → part ∈ str_split "," chunk_spec →
       c ∈ part → is_selection_char c = false →
       parse_chunk_selection chunk_spec max_chunks = Raise ValueError)
  ∧ (∀ chunk_spec : list ascii,
       (∃ l, parse_chunk_selection chunk_spec max_chunks = Ok l)
       ∨ parse_chunk_selection chunk_spec max_chunks = Raise ValueError)
  ∧ parse_chunk_selection (s_ "1,3-5") 10 = Ok [1; 3; 4; 5]
  ∧ parse_chunk_selection (s_ "0-2,2-4") 10 = Ok [0; 1; 2; 3; 4]
  ∧ parse_chunk_selection (s_ "5-3") 10 = Ok []
  ∧ parse_chunk_selection (s_ "abc") 10 = Raise ValueError.
Proof.
  split.
  { unfold parse_chunk_selection. cbn [bool_decide decide_rel].
    rewrite bool_decide_eq_true_2 by reflexivity. f_equal.
    unfold py_range. rewrite Z.sub_0_r.
    apply list_fmap_ext. intros _ k _. lia. }
  split; [intros ps; apply parse_chunk_selection_parts|].
  split.
  { intros chunk_spec Hne. split; [|split].
    - by apply parse_chunk_selection_well_formed.
    - intros part. by apply parse_chunk_selection_malformed.
    - apply well_formed_or_not. }
  split; [intros chunk_spec part c; apply parse_chunk_selection_bad_char|].
  split; [intros chunk_spec; apply parse_chunk_selection_outcome|].
  repeat split; vm_compute; reflexivity.
Qed.

Lemma parse_chunk_selection_spec_witness :
  (∃ l : list Z,
     parse_chunk_selection (s_ "1,3-5,4") 10 = Ok l
     ∧ StronglySorted Z.lt l ∧ 4 ∈ l)
  ∧ (∃ l : list Z,
       parse_chunk_selection (s_ " +1_0 , 7 - 8") 12 = Ok l
       ∧ StronglySorted Z.lt l ∧ 8 ∈ l)
  ∧ parse_chunk_selection (s_ "1,2-3-4") 10 = Raise ValueError
  ∧ parse_chunk_selection (s_ "1,x") 10 = Raise ValueError.
Proof.
  pose proof (parse_chunk_selection_spec 10) as (_ & Hparts & Hall & Hbad & _).
  pose proof (parse_chunk_selection_spec 12) as (_ & _ & Hall12 & _).
  assert (int_text (s_ "+1_0") 10) as H10.
  { exists [], ["+"%char], "1"%char, (s_ "_0"), (s_ "0"), [].
    split; [reflexivity|]. split; [constructor|]. split; [constructor|].
    split; [reflexivity|].
    split; [apply tail_underscore; [reflexivity | constructor]|].
    split; [vm_compute; discriminate|].
    left. split; [by right | reflexivity]. }
  assert (int_text (s_ "7") 7) as H7.
  { exists [], [], "7"%char, [], [], [].
    split; [reflexivity|]. split; [constructor|]. split; [constructor|].
    split; [reflexivity|]. split; [constructor|].
    split; [vm_compute; discriminate|].
    left. split; [by left | reflexivity]. }
  assert (int_text (s_ "8") 8) as H8.
  { exists [], [], "8"%char, [], [], [].
    split; [reflexivity|]. split; [constructor|]. split; [constructor|].
    split; [reflexivity|]. split; [constructor|].
    split; [vm_compute; discriminate|].
    left. split; [by left | reflexivity]. }
  assert (part_denotes (s_ " +1_0 ") 10 10) as Hd1.
  { left. split; [|split; [exact H10 | reflexivity]].
    vm_compute. intros H. by repeat (apply elem_of_cons in H as [H | H];
      [discriminate|]; try apply elem_of_nil in H). }
  assert (part_denotes (s_ " 7 - 8") 7 8) as Hd2.
  { right. exists (s_ "7 "), (s_ " 8").
    split; [reflexivity|]. split; [|split; [exact H7 | exact H8]].
    intros H. by repeat (apply elem_of_cons in H as [H | H];
      [discriminate|]; try apply elem_of_nil in H). }
  split; [|split; [|split]].
  - destruct (Hparts [Single (s_ "1"); Range (s_ "3") (s_ "5");
                      Single (s_ "4")])
      as (l & Hl & Hsorted & Hmem).
    { discriminate. }
    { repeat constructor; discriminate. }
    { repeat constructor; vm_compute; discriminate. }
    exists l. split; [exact Hl|]. split; [exact Hsorted|].
    apply Hmem. split; [lia|]. exists (Range (s_ "3") (s_ "5")).
    split; [right; left | vm_compute; split; discriminate].
  - destruct (Hall12 (s_ " +1_0 , 7 - 8")) as (Hok & _); [discriminate|].
    destruct Hok as (l & Hl & Hsorted & Hmem).
    { repeat constructor; [by exists 10, 10 | by exists 7, 8]. }
    exists l. split; [exact Hl|]. split; [exact Hsorted|].
    apply Hmem. split; [lia|]. exists (s_ " 7 - 8"), 7, 8.
    split; [right; left | split; [exact Hd2 | lia]].
  - destruct (Hall (s_ "1,2-3-4")) as (_ & Hraise & _); [discriminate|].
    apply (Hraise (s_ "2-3-4")); [right; left|].
    intros Hw. apply well_formed_run in Hw as (acc' & Hrun).
    vm_compute in Hrun. discriminate.
  - apply (Hbad (s_ "1,x") (s_ "x") "x"%char).
    + discriminate.
    + vm_compute. right. left.
    + left.
    + reflexivity.
Defined.

(** C6, as it is stated for every specification of single non-negative
    integers, fails: a numeral of 4301 digits is such a specification,
    and [parse_chunk_selection] raises [ValueError] on it instead of
    returning the list of the indices in range it references. *)
Lemma parse_chunk_selection_long_numeral_fails :
  Forall part_ok [Single (replicate 4301 "1"%char)]
  ∧ parse_chunk_selection (spec_text [Single (replicate 4301 "1"%char)]) 10
    = Raise ValueError
  ∧ ¬ ∃ l : list Z,
        parse_chunk_selection (spec_text [Single (replicate 4301 "1"%char)])
          10 = Ok l.
Proof.
  assert (parse_chunk_selection
            (spec_text [Single (replicate 4301 "1"%char)]) 10
          = Raise ValueError) as H by (vm_compute; reflexivity).
  split; [|split; [exact H|]].
  - constructor; [|constructor]. split.
    + intros E. apply (f_equal length) in E.
      rewrite length_replicate in E. discriminate.
    + by apply Forall_replicate.
  - intros (l & Hl). rewrite H in Hl. discriminate.
Qed.

Example well_formed_rejects :
  ¬ well_formed (s_ "1-2-3") ∧ ¬ well_formed (s_ "1__0")
  ∧ ¬ well_formed (s_ "4 5") ∧ ¬ well_formed (s_ "-1")
  ∧ ¬ well_formed (s_ "1_") ∧ ¬ well_formed (s_ "").
Proof.
  repeat split; intros Hw; apply well_formed_run in Hw as (acc' & Hrun);
    vm_compute in Hrun; discriminate.
Qed.

Example parse_chunk_selection_rejected :
  parse_chunk_selection (s_ "1,") 10 = Raise ValueError
  ∧ parse_chunk_selection (s_ "-1") 10 = Raise ValueError
  ∧ parse_chunk_selection (s_ "1-") 10 = Raise ValueError
  ∧ parse_chunk_selection (s_ "1-2-3") 10 = Raise ValueError
  ∧ parse_chunk_selection (s_ " ") 10 = Raise ValueError.
Proof. repeat split; vm_compute; reflexivity. Qed.

Example parse_chunk_selection_lenient :
  parse_chunk_selection (s_ " 1_0 , +3, 7 - 8 ,20-99") 12
  = Ok [3; 7; 8; 10].
Proof. vm_compute. reflexivity. Qed.

(** ** Further properties of the decoder and of re-serialization *)

Lemma stream_bytes_app (cs1 cs2 : list Chunk.t) :
  stream_bytes (cs1 ++ cs2) = stream_bytes cs1 ++ stream_bytes cs2.
Proof. unfold stream_bytes. rewrite fmap_app, concat_app. reflexivity. Qed.

Lemma read_stream_from (cs : list Chunk.t) (tail : bytes)
    (self : CASReader.t) :
  Forall wf_chunk cs → truncated tail = true →
  read (stream_bytes cs ++ tail) self = Ok (extend self cs).
Proof.
  intros Hcs Htr. unfold read.
  apply (read_loop_stream cs Hcs _ [] tail self Htr).
  pose proof (length_stream_bytes cs Hcs). rewrite length_app. lia.
Qed.

(** X1. [read] does not reset the reader: on a reader that already holds
    chunks it appends the chunks of the buffer, the same ones a fresh
    reader gets, so reading twice holds every chunk twice. *)
Theorem read_appends (B : bytes) (r0 : CASReader.t) :
  ∃ cs : list Chunk.t,
    read B init = Ok (CASReader.mk cs (data_payloads cs))
    ∧ read B r0
      = Ok (CASReader.mk (CASReader.chunks r0 ++ cs)
              (CASReader.data_blocks r0 ++ data_payloads cs))
    ∧ (r ← read B init; read B r)
      = Ok (CASReader.mk (cs ++ cs) (data_payloads cs ++ data_payloads cs)).
Proof.
  destruct (read_spec B) as (cs & tail & Hr & Hcs & HB & Htr).
  exists cs. split; [exact Hr|]. split.
  - rewrite HB, (read_stream_from cs tail r0 Hcs Htr). reflexivity.
  - rewrite Hr. cbn [mbind outcome_bind bind].
    rewrite HB, (read_stream_from cs tail _ Hcs Htr). reflexivity.
Qed.

(** X2. Writing well-formed chunks and decoding the written bytes gives the
    chunks back. *)
Theorem serialize_then_read (r : CASReader.t) :
  Forall wf_chunk (CASReader.chunks r) →
  ∃ B : bytes,
    get_all_chunks_as_bytes r = Ok B
    ∧ read B init
      = Ok (CASReader.mk (CASReader.chunks r)
              (data_payloads (CASReader.chunks r))).
Proof.
  intros Hwf. exists (stream_bytes (CASReader.chunks r)).
  split; [by apply get_all_chunks_as_bytes_wf|].
  rewrite <- (app_nil_r (stream_bytes _)).
  apply (read_stream (CASReader.chunks r) [] Hwf eq_refl).
Qed.

Lemma serialize_then_read_witness :
  ∃ B : bytes,
    get_all_chunks_as_bytes demo_reader = Ok B
    ∧ read B init = Ok demo_reader.
Proof.
  apply (serialize_then_read demo_reader).
  repeat constructor; simpl; lia.
Defined.

Lemma struct_pack_H_outcome (v : Z) :
  (is_u16 v ∧ struct_pack_H v = Ok (le16 v))
  ∨ (¬ is_u16 v ∧ struct_pack_H v = Raise StructError).
Proof.
  unfold struct_pack_H, is_u16.
  destruct (Z.leb_spec 0 v), (Z.leb_spec v 65535); simpl;
    ((left; split; [lia | reflexivity]) || (right; split; [lia | reflexivity])).
Qed.

Lemma for_in_serialize_outcome (cs : list Chunk.t) :
  ∀ acc : bytes,
    (Forall (λ c, is_u16 (ChunkHeader.length (Chunk.header c))
                  ∧ is_u16 (ChunkHeader.aux_data (Chunk.header c))) cs
     ∧ ∃ B, for_in cs
              (λ result chunk,
                 let result :=
                   result ++ ChunkHeader.chunk_type (Chunk.header chunk) in
                 l ← struct_pack_H (ChunkHeader.length (Chunk.header chunk));
                 let result := result ++ l in
                 a ← struct_pack_H (ChunkHeader.aux_data (Chunk.header chunk));
                 let result := result ++ a in
                 Ok (result ++ Chunk.data chunk))
              acc = Ok B)
    ∨ (¬ Forall (λ c, is_u16 (ChunkHeader.length (Chunk.header c))
                      ∧ is_u16 (ChunkHeader.aux_data (Chunk.header c))) cs
       ∧ for_in cs
           (λ result chunk,
              let result :=
                result ++ ChunkHeader.chunk_type (Chunk.header chunk) in
              l ← struct_pack_H (ChunkHeader.length (Chunk.header chunk));
              let result := result ++ l in
              a ← struct_pack_H (ChunkHeader.aux_data (Chunk.header chunk));
              let result := result ++ a in
              Ok (result ++ Chunk.data chunk))
           acc = Raise StructError).
Proof.
  induction cs as [|c cs IH]; intros acc.
  - left. split; [constructor | by eexists].
  - cbn [for_in].
    destruct (struct_pack_H_outcome (ChunkHeader.length (Chunk.header c)))
      as [[Hl ->] | [Hl ->]]; cbn [mbind outcome_bind bind].
    2:{ right. split; [|reflexivity]. intros H. apply Forall_cons in H. tauto. }
    destruct (struct_pack_H_outcome (ChunkHeader.aux_data (Chunk.header c)))
      as [[Ha ->] | [Ha ->]]; cbn [mbind outcome_bind bind].
    2:{ right. split; [|reflexivity]. intros H. apply Forall_cons in H. tauto. }
    match goal with
    | |- context [for_in cs _ ?a] => destruct (IH a) as [[Hcs HB] | [Hcs HB]]
    end.
    + left. split; [by constructor | exact HB].
    + right. split; [intros H; apply Forall_cons in H; tauto | exact HB].
Qed.

(** X3. [get_all_chunks_as_bytes] returns normally exactly when the length
    and the auxiliary data of every chunk fit in 16 bits, whatever the
    type codes and payloads are; otherwise it raises [struct.error]. *)
Theorem get_all_chunks_as_bytes_outcome (r : CASReader.t) :
  (Forall (λ c, is_u16 (ChunkHeader.length (Chunk.header c))
                ∧ is_u16 (ChunkHeader.aux_data (Chunk.header c)))
     (CASReader.chunks r)
   → ∃ B, get_all_chunks_as_bytes r = Ok B)
  ∧ (¬ Forall (λ c, is_u16 (ChunkHeader.length (Chunk.header c))
                    ∧ is_u16 (ChunkHeader.aux_data (Chunk.header c)))
       (CASReader.chunks r)
     → get_all_chunks_as_bytes r = Raise StructError).
Proof.
  unfold get_all_chunks_as_bytes.
  destruct (for_in_serialize_outcome (CASReader.chunks r) [])
    as [[Hcs HB] | [Hcs HB]].
  - split; [intros _; exact HB | intros H; contradiction].
  - split; [intros H; contradiction | intros _; exact HB].
Qed.

Lemma get_all_chunks_as_bytes_outcome_witness :
  (∃ B, get_all_chunks_as_bytes demo_reader = Ok B)
  ∧ get_all_chunks_as_bytes
      (CASReader.mk [Chunk.mk (ChunkHeader.mk ChunkType.DATA 65536 0) []] [])
    = Raise StructError.
Proof.
  split.
  - apply (proj1 (get_all_chunks_as_bytes_outcome demo_reader)).
    repeat constructor; simpl; lia.
  - apply (proj2 (get_all_chunks_as_bytes_outcome _)).
    intros H. apply Forall_cons in H as [[[_ H] _] _]. simpl in H. lia.
Defined.

(** X4. What [get_all_chunks_as_bytes] writes after decoding is a prefix of
    the decoded buffer; the bytes it leaves out are a truncated rest,
    never a complete chunk. *)
Theorem reserialize_is_prefix (B : bytes) :
  ∃ (r : CASReader.t) (B' tail : bytes),
    read B init = Ok r
    ∧ get_all_chunks_as_bytes r = Ok B'
    ∧ B = B' ++ tail
    ∧ truncated tail = true.
Proof.
  destruct (read_spec B) as (cs & tail & Hr & Hcs & HB & Htr).
  exists (extend init cs), (stream_bytes cs), tail.
  split; [exact Hr|]. split; [by apply get_all_chunks_as_bytes_wf|].
  by split.
Qed.

(** X5. Decoding a buffer that re-serializes to itself, followed by any other
    buffer, gives the chunks of the first and then the chunks of the
    second. *)
Theorem read_concatenation (B1 B2 : bytes) (r1 : CASReader.t) :
  read B1 init = Ok r1 → get_all_chunks_as_bytes r1 = Ok B1 →
  ∃ cs2 : list Chunk.t,
    read B2 init = Ok (CASReader.mk cs2 (data_payloads cs2))
    ∧ read (B1 ++ B2) init
      = Ok (CASReader.mk (CASReader.chunks r1 ++ cs2)
              (CASReader.data_blocks r1 ++ data_payloads cs2)).
Proof.
  intros Hr1 Hs1.
  destruct (read_spec B1) as (cs1 & tail1 & Hr1' & Hcs1 & HB1 & _).
  rewrite Hr1 in Hr1'. injection Hr1' as ->.
  rewrite (get_all_chunks_as_bytes_wf (extend init cs1) Hcs1) in Hs1.
  injection Hs1 as Hs1. simpl in Hs1.
  destruct (read_spec B2) as (cs2 & tail2 & Hr2 & Hcs2 & HB2 & Htr2).
  exists cs2. split; [exact Hr2|].
  rewrite <- Hs1, HB2, app_assoc, <- stream_bytes_app.
  rewrite read_stream by (done || by apply Forall_app).
  unfold extend. simpl. rewrite data_payloads_app. reflexivity.
Qed.

Lemma read_concatenation_witness :
  ∃ cs2 : list Chunk.t,
    read test_tape init = Ok (CASReader.mk cs2 (data_payloads cs2))
    ∧ ∃ r, read (test_tape ++ test_tape) init = Ok r
           ∧ length (CASReader.chunks r) = (2 + length cs2)%nat.
Proof.
  destruct (read_concatenation test_tape test_tape
              (CASReader.mk
                 [Chunk.mk (ChunkHeader.mk ChunkType.FUJI 9 0)
                    (list_byte_of_string "Test Tape");
                  Chunk.mk (ChunkHeader.mk ChunkType.DATA 10 0)
                    [x00; x01; x02; x03; x04; x05; x06; x07; x08; x09]]
                 [[x00; x01; x02; x03; x04; x05; x06; x07; x08; x09]])
              eq_refl eq_refl) as (cs2 & H2 & H12).
  exists cs2. split; [exact H2|]. eexists. split; [exact H12|].
  simpl. reflexivity.
Defined.

(** ** Sizes *)

Lemma to_byte_array_payloads (self : CASReader.t) :
  to_byte_array self = concat (data_payloads (CASReader.chunks self)).
Proof. unfold to_byte_array. rewrite foldl_data. reflexivity. Qed.

Lemma len_concat_cons {A : Type} (l : list A) (ls : list (list A)) :
  len (concat (l :: ls)) = len l + len (concat ls).
Proof. simpl. apply len_app. Qed.

Lemma data_payloads_cons (c : Chunk.t) (cs : list Chunk.t) :
  data_payloads (c :: cs)
  = if is_data c then Chunk.data c :: data_payloads cs else data_payloads cs.
Proof.
  unfold data_payloads. rewrite filter_cons.
  destruct (is_data c); reflexivity.
Qed.

Lemma len_data_payloads (cs : list Chunk.t) :
  Forall wf_chunk cs →
  len (concat (data_payloads cs))
  = foldr Z.add 0
      ((λ c, ChunkHeader.length (Chunk.header c)) <$> filter is_data cs)
  ∧ 8 * len cs + len (concat (data_payloads cs)) ≤ consumed cs.
Proof.
  induction 1 as [|c cs Hc _ [IH1 IH2]]; [split; reflexivity|].
  destruct Hc as (_ & [Hl _] & _ & Hd).
  rewrite data_payloads_cons, filter_cons, len_cons.
  unfold consumed in *. rewrite fmap_cons. cbn [foldr].
  destruct (is_data c); simpl.
  - rewrite len_app, IH1, Hd. split; [reflexivity|]. lia.
  - split; [exact IH1|]. lia.
Qed.

(** X6. Every chunk costs 8 header bytes: eight times the number of decoded
    chunks plus the number of bytes of [to_byte_array] is at most the
    size of the buffer. *)
Theorem read_size_bound (B : bytes) :
  ∃ r : CASReader.t,
    read B init = Ok r
    ∧ 8 * len (CASReader.chunks r) + len (to_byte_array r) ≤ len B.
Proof.
  destruct (read_spec B) as (cs & tail & Hr & Hcs & -> & _).
  exists (extend init cs). split; [exact Hr|].
  rewrite to_byte_array_payloads. simpl.
  destruct (len_data_payloads cs Hcs) as [_ Hle].
  rewrite len_app, (len_stream_bytes cs Hcs).
  pose proof (len_nonneg tail). lia.
Qed.

(** X7. After decoding, [to_bin_file] raises what the opening of
    [output_path] for writing raises, and stores nothing then; the empty
    path always raises [FileNotFoundError]. When the path opens, it
    stores there the payloads of the [data] chunks, one after the other,
    and returns the size of what it stored, which is the sum of the
    lengths declared by the headers of the [data] chunks. It prints
    nothing. *)
Theorem to_bin_file_count (env : Env.t) (B : bytes) (output_path : string)
    (w : World.t) :
  ∃ (r : CASReader.t) (content : bytes),
    read B init = Ok r
    ∧ content = concat (Chunk.data <$> filter is_data (CASReader.chunks r))
    ∧ len content
      = foldr Z.add 0
          ((λ c, ChunkHeader.length (Chunk.header c))
             <$> filter is_data (CASReader.chunks r))
    ∧ (open_for_writing env output_path = Ok () →
       to_bin_file env r output_path w
       = (stored w output_path content, Ok (len content)))
    ∧ (∀ e, open_for_writing env output_path = Raise e →
       to_bin_file env r output_path w = (w, Raise e))
    ∧ (output_path = ""%string →
       to_bin_file env r output_path w = (w, Raise FileNotFoundError))
    ∧ (output_path ≠ ""%string →
       open_for_writing env output_path
       = match Env.open_wb env output_path with
         | Some e => Raise e
         | None => Ok ()
         end).
Proof.
  destruct (read_spec B) as (cs & tail & Hr & Hcs & _ & _).
  exists (extend init cs), (to_byte_array (extend init cs)).
  split; [exact Hr|].
  split; [rewrite to_byte_array_payloads; reflexivity|].
  split.
  { rewrite to_byte_array_payloads. simpl. apply (len_data_payloads cs Hcs). }
  unfold to_bin_file. split; [|split; [|split]].
  - intros ->. reflexivity.
  - intros e ->. reflexivity.
  - intros ->. reflexivity.
  - intros Hne. unfold open_for_writing.
    rewrite bool_decide_eq_false_2 by exact Hne. reflexivity.
Qed.

Lemma to_bin_file_count_witness :
  ∃ (r : CASReader.t) (content : bytes),
    read test_tape init = Ok r
    ∧ to_bin_file (tape_env (λ _, true)) r "out.bin" (World.mk [] [] ∅)
      = (World.mk [] [] {[ "out.bin"%string := content ]}, Ok (len content))
    ∧ to_bin_file (tape_env (λ _, true)) r "/" (World.mk [] [] ∅)
      = (World.mk [] [] ∅, Raise OSError).
Proof.
  destruct (to_bin_file_count (tape_env (λ _, true)) test_tape "out.bin"
              (World.mk [] [] ∅))
    as (r & content & Hr & Hc & _ & Hok & _).
  destruct (to_bin_file_count (tape_env (λ _, true)) test_tape "/"
              (World.mk [] [] ∅))
    as (r' & content' & Hr' & _ & _ & _ & Hraise & _).
  rewrite Hr in Hr'. injection Hr' as <-.
  exists r, content. split; [exact Hr|]. split.
  - rewrite (Hok eq_refl). unfold stored. simpl. by rewrite insert_empty.
  - apply Hraise. reflexivity.
Defined.

(** X8. [read_cas_file] returns normally for every file content. The byte
    array and the counts of the metadata fit the size of the file, there
    are no more data blocks than chunks, and without a data block the
    byte array is empty. *)
Theorem read_cas_file_total (B : bytes) :
  ∃ (byte_array : bytes) (metadata : Metadata),
    read_cas_file B = Ok (byte_array, metadata)
    ∧ 8 * chunk_count metadata + len byte_array ≤ len B
    ∧ 0 ≤ data_block_count metadata ≤ chunk_count metadata
    ∧ (data_block_count metadata = 0 → byte_array = []).
Proof.
  destruct (read_spec B) as (cs & tail & Hr & Hcs & HB & _).
  exists (to_byte_array (extend init cs)), (last_chunk_metadata (extend init cs)).
  unfold read_cas_file. rewrite Hr. cbn [mbind outcome_bind bind].
  rewrite (get_metadata_last (extend init cs) eq_refl).
  cbn [mbind outcome_bind bind]. split; [reflexivity|].
  rewrite to_byte_array_payloads. cbn.
  destruct (len_data_payloads cs Hcs) as [_ Hle].
  pose proof (len_stream_bytes cs Hcs) as Hlen.
  pose proof (len_nonneg tail). pose proof (len_nonneg (filter is_data cs)).
  unfold data_payloads in *.
  split; [rewrite HB, len_app; lia|]. split.
  - split; [lia|]. unfold len. pose proof (length_filter is_data cs). lia.
  - intros Hz.
    destruct (filter is_data cs) as [|c l]; [reflexivity|].
    rewrite len_cons in Hz. pose proof (len_nonneg l). lia.
Qed.

Lemma read_cas_file_total_witness :
  ∃ metadata : Metadata, read_cas_file [] = Ok ([], metadata).
Proof.
  destruct (read_cas_file_total []) as (byte_array & metadata & Hr & _ & _ & H0).
  exists metadata. rewrite Hr. f_equal. f_equal. apply H0.
  vm_compute in Hr. injection Hr as _ <-. reflexivity.
Defined.

(** ** Further properties of the dump *)

Lemma slice_window {A : Type} (l : list A) (a w : Z) :
  0 ≤ a → a ≤ len l → 0 ≤ w →
  slice l a (a + w) = take (Z.to_nat w) (drop (Z.to_nat a) l).
Proof.
  intros Ha Hal Hw. destruct (Z.le_gt_cases (a + w) (len l)).
  - rewrite slice_take_drop by lia. f_equal. lia.
  - rewrite slice_drop by lia. symmetry. apply take_ge.
    rewrite length_drop. unfold len in *. lia.
Qed.

Lemma concat_blocks (m : nat) :
  ∀ data : bytes,
    (length data ≤ 16 * m)%nat →
    concat ((λ k, take 16 (drop (16 * k) data)) <$> seq 0 m) = data.
Proof.
  induction m as [|m IH]; intros data Hl.
  - destruct data; [reflexivity | simpl in Hl; lia].
  - cbn [seq]. rewrite fmap_cons, <- fmap_S_seq, <- list_fmap_compose.
    cbn [concat]. rewrite Nat.mul_0_r, drop_0.
    transitivity (take 16 data ++ drop 16 data); [|apply take_drop]. f_equal.
    rewrite <- (IH (drop 16 data)) by (rewrite length_drop; lia).
    f_equal. apply list_fmap_ext. intros _ k _. simpl.
    rewrite drop_drop. do 2 f_equal. lia.
Qed.

Lemma row_count_bounds (n : Z) :
  0 < n →
  16 * ((n + 16 - 1) / 16 - 1) < n ≤ 16 * ((n + 16 - 1) / 16).
Proof.
  intros Hn. pose proof (Z.div_mod (n + 16 - 1) 16 ltac:(lia)).
  pose proof (Z.mod_pos_bound (n + 16 - 1) 16 ltac:(lia)). lia.
Qed.

(** X9. The rows of a chunk with a payload: row [k] is at offset [16 * k],
    the rows hold the payload in order without a gap or an overlap, every
    row holds between 1 and 16 bytes and every row but the last holds
    16, so a payload of [n] bytes takes [ceil(n / 16)] rows. *)
Theorem dump_rows_cover_payload (self : CASReader.t)
    (show_hex show_ascii : bool) (idx : Z) (chunk : Chunk.t) :
  0 ≤ idx → CASReader.chunks self !! Z.to_nat idx = Some chunk →
  Chunk.data chunk ≠ [] →
  ∃ (header_line : pystr) (blocks : list bytes),
    dump_lines self (Some [idx]) show_hex show_ascii
    = Ok (header_line :: str_repeat (lit "-") 80
          :: imap (λ k b, dump_row show_hex show_ascii (16 * Z.of_nat k) b)
               blocks
          ++ [lit ""])
    ∧ concat blocks = Chunk.data chunk
    ∧ Z.of_nat (length blocks) = (len (Chunk.data chunk) + 15) / 16
    ∧ Forall (λ b, (1 ≤ length b ≤ 16)%nat) blocks
    ∧ ∀ k b, blocks !! k = Some b → (S k < length blocks)%nat →
             length b = 16%nat.
Proof.
  intros H0 Hc Hne.
  set (data := Chunk.data chunk) in *.
  assert (0 < len data) as Hpos.
  { destruct data; [done|]. rewrite len_cons. pose proof (len_nonneg data). lia. }
  pose proof (row_count_bounds (len data) Hpos) as [Hlo Hhi].
  set (m := Z.to_nat ((len data + 16 - 1) / 16)) in *.
  assert (0 ≤ (len data + 16 - 1) / 16) as Hq by (apply Z.div_pos; lia).
  assert ((length data ≤ 16 * m)%nat) as Hm1 by (unfold len in *; lia).
  assert ((16 * (m - 1) < length data)%nat) as Hm2 by (unfold len in *; lia).
  exists (lit "Chunk [" ++ str_of_int idx ++ lit "] Type: "
          ++ ((λ b, if (Byte.to_N b <? 0x80)%N then Byte.to_N b else 0xFFFD%N)
                <$> ChunkHeader.chunk_type (Chunk.header chunk))
          ++ lit ", Length: "
          ++ str_of_int (ChunkHeader.length (Chunk.header chunk))
          ++ lit ", Aux: "
          ++ str_of_int (ChunkHeader.aux_data (Chunk.header chunk))),
         ((λ k, take 16 (drop (16 * k) data)) <$> seq 0 m).
  split; [|split; [|split; [|split]]].
  - unfold dump_lines. cbn [for_in].
    rewrite (chunk_section_in_range _ _ _ idx chunk) by done.
    cbn [mbind outcome_bind bind for_in app]. do 3 f_equal.
    fold data. destruct (Z.eqb_spec (len data) 0); [lia|]. f_equal.
    unfold py_range_step. fold m.
    rewrite imap_fmap, <- list_fmap_compose.
    rewrite <- (imap_const _ (seq 0 m)). apply imap_ext.
    intros i k Hk. apply lookup_seq in Hk as [-> Hi]. simpl.
    f_equal. rewrite slice_window by (unfold len in *; lia).
    f_equal. f_equal. lia.
  - apply concat_blocks, Hm1.
  - rewrite length_fmap, length_seq. unfold m.
    replace (len data + 15) with (len data + 16 - 1) by lia. lia.
  - apply Forall_fmap, Forall_forall. intros k Hk. apply elem_of_seq in Hk.
    simpl. rewrite length_take, length_drop. lia.
  - intros k b Hb Hk. rewrite length_fmap, length_seq in Hk.
    rewrite list_lookup_fmap in Hb.
    destruct (seq 0 m !! k) as [j|] eqn:Hj; [|discriminate].
    apply lookup_seq in Hj as [-> _]. injection Hb as <-.
    rewrite length_take, length_drop. lia.
Qed.

Lemma dump_rows_cover_payload_witness :
  ∃ (header_line : pystr) (blocks : list bytes),
    dump_lines demo_reader (Some [1]) true true
    = Ok (header_line :: str_repeat (lit "-") 80
          :: imap (λ k b, dump_row true true (16 * Z.of_nat k) b) blocks
          ++ [lit ""])
    ∧ length blocks = 2%nat.
Proof.
  destruct (dump_rows_cover_payload demo_reader true true 1
              (Chunk.mk (ChunkHeader.mk ChunkType.DATA 17 7)
                 (list_byte_of_string "0123456789abcdefg"))
              ltac:(lia) eq_refl ltac:(discriminate))
    as (header_line & blocks & Hlines & _ & Hn & _).
  exists header_line, blocks. split; [exact Hlines|].
  change ((len _ + 15) / 16) with 2 in Hn. lia.
Defined.

Lemma forall_from_spec (p : Z → bool) (n : nat) :
  ∀ lo, forall_from p lo n = true →
        ∀ z, lo ≤ z < lo + Z.of_nat n → p z = true.
Proof.
  induction n as [|n IH]; intros lo H z Hz; [lia|].
  simpl in H. apply andb_true_iff in H as [Hlo Hrest].
  destruct (decide (z = lo)) as [-> | Hne]; [exact Hlo|].
  apply (IH (lo + 1) Hrest). lia.
Qed.

Lemma format_hex_offsets_checked :
  forall_from (λ z, (length (format_hex 4 z) =? 4)%nat) 0 (Z.to_nat 65536)
  = true.
Proof. vm_compute. reflexivity. Qed.

Lemma length_format_hex_offset (offset : Z) :
  0 ≤ offset < 65536 → length (format_hex 4 offset) = 4%nat.
Proof.
  intros H. apply Nat.eqb_eq.
  apply (forall_from_spec _ _ 0 format_hex_offsets_checked offset). lia.
Qed.

Lemma length_format_hex_byte (b : byte) :
  length (format_hex 2 (Z_of_byte b)) = 2%nat.
Proof. destruct b; vm_compute; reflexivity. Qed.

Lemma str_join_cons_cons (sep p q : pystr) (ps : list pystr) :
  str_join sep (p :: q :: ps) = p ++ sep ++ str_join sep (q :: ps).
Proof. reflexivity. Qed.

Lemma length_str_join_pairs (parts : list pystr) :
  Forall (λ p, length p = 2%nat) parts →
  length (str_join (lit " ") parts) = (3 * length parts - 1)%nat.
Proof.
  induction 1 as [|p ps Hp Hps IH]; [reflexivity|].
  destruct ps as [|q ps].
  - simpl. lia.
  - rewrite str_join_cons_cons, !length_app. unfold pystr in *.
    rewrite IH, Hp. simpl length. lia.
Qed.

Lemma length_hex_part (line_data : bytes) :
  length (str_join (lit " ")
            ((λ b, format_hex 2 (Z_of_byte b)) <$> line_data))
  = (3 * length line_data - 1)%nat.
Proof.
  rewrite length_str_join_pairs, length_fmap; [reflexivity|].
  apply Forall_fmap, Forall_forall. intros b _.
  apply length_format_hex_byte.
Qed.

(** X10. With both columns shown, a row of at most 16 bytes at an offset below
    65536 is the 4-digit offset, a colon, the hexadecimal field filled up
    to 48 characters, a bar and the character column: the character
    column starts at the same position, 57, in every such row. *)
Theorem dump_row_alignment (offset : Z) (line_data : bytes) :
  0 ≤ offset < 65536 → (length line_data ≤ 16)%nat →
  ∃ hex_part : pystr,
    dump_row true true offset line_data
    = format_hex 4 offset ++ lit ": " ++ hex_part ++ lit " | "
      ++ ascii_column line_data
    ∧ length (format_hex 4 offset) = 4%nat
    ∧ length hex_part = 48%nat
    ∧ length (dump_row true true offset line_data)
      = (57 + length line_data)%nat.
Proof.
  intros Hoff Hlen.
  pose proof (length_format_hex_offset offset Hoff) as H4.
  exists (str_ljust
            (str_join (lit " ")
               ((λ b, format_hex 2 (Z_of_byte b)) <$> line_data)) 48).
  assert (length (str_ljust
                    (str_join (lit " ")
                       ((λ b, format_hex 2 (Z_of_byte b)) <$> line_data)) 48)
          = 48%nat) as H48.
  { unfold str_ljust. rewrite length_app, length_replicate.
    unfold len. rewrite length_hex_part. lia. }
  assert (dump_row true true offset line_data
          = format_hex 4 offset ++ lit ": "
            ++ str_ljust
                 (str_join (lit " ")
                    ((λ b, format_hex 2 (Z_of_byte b)) <$> line_data)) 48
            ++ lit " | " ++ ascii_column line_data) as Hrow.
  { unfold dump_row. rewrite ascii_part_column. cbn [app str_join].
    rewrite <- !app_assoc. reflexivity. }
  split; [exact Hrow|]. split; [exact H4|]. split; [exact H48|].
  rewrite Hrow, !length_app, H4, H48. unfold ascii_column.
  rewrite length_fmap. simpl. lia.
Qed.

Lemma dump_row_alignment_witness :
  length (dump_row true true 16 (list_byte_of_string "g")) = 58%nat.
Proof.
  destruct (dump_row_alignment 16 (list_byte_of_string "g")
              ltac:(lia) ltac:(simpl; lia)) as (hex_part & _ & _ & _ & H).
  exact H.
Defined.

(** ** Further properties of selections *)

Lemma py_range_seq_sorted (lo : Z) (n : nat) :
  ∀ j : nat, StronglySorted Z.lt ((λ k, lo + Z.of_nat k) <$> seq j n).
Proof.
  induction n as [|n IH]; intros j; [constructor|].
  cbn [seq]. rewrite fmap_cons. constructor; [apply IH|].
  apply Forall_fmap, Forall_forall. intros k Hk.
  apply elem_of_seq in Hk. simpl. lia.
Qed.

Lemma py_range_sorted (lo hi : Z) : StronglySorted Z.lt (py_range lo hi).
Proof. apply py_range_seq_sorted. Qed.

Lemma py_range_nil (lo hi : Z) : hi ≤ lo → py_range lo hi = [].
Proof.
  intros H. unfold py_range.
  replace (Z.to_nat (hi - lo)) with 0%nat by lia. reflexivity.
Qed.

Lemma py_range_cons (lo hi : Z) :
  lo < hi → py_range lo hi = lo :: py_range (lo + 1) hi.
Proof.
  intros H. unfold py_range.
  replace (Z.to_nat (hi - lo)) with (S (Z.to_nat (hi - (lo + 1)))) by lia.
  cbn [seq]. rewrite fmap_cons, <- fmap_S_seq, <- list_fmap_compose.
  f_equal; [lia|]. apply list_fmap_ext. intros _ k _. simpl. lia.
Qed.

Lemma py_range_skip (lo : Z) (n : nat) :
  ∀ x hi l,
    x = lo + Z.of_nat n →
    l `sublist_of` py_range (x + 1) hi →
    x < hi →
    x :: l `sublist_of` py_range lo hi.
Proof.
  induction n as [|n IH] in lo |- *; intros x hi l Hx Hl Hhi.
  - replace lo with x by lia. rewrite py_range_cons by lia.
    by apply sublist_skip.
  - rewrite py_range_cons by lia. apply sublist_cons.
    apply (IH (lo + 1)); [lia | done..].
Qed.

(** A strictly ascending list within [lo, hi) is a sublist of
    [range(lo, hi)]. *)
Lemma sorted_sublist_range (l : list Z) :
  StronglySorted Z.lt l →
  ∀ lo hi, Forall (λ i, lo ≤ i < hi) l → l `sublist_of` py_range lo hi.
Proof.
  induction 1 as [|x l _ IH Hx]; intros lo hi Hr; [apply sublist_nil_l|].
  apply Forall_cons in Hr as [Hxr Hr].
  apply (py_range_skip lo (Z.to_nat (x - lo))); [lia| |lia].
  apply IH. rewrite Forall_forall in Hx, Hr |- *.
  intros i Hi. specialize (Hx i Hi). specialize (Hr i Hi). lia.
Qed.

Lemma step_in_range (max_chunks : Z) (acc acc' : gset Z)
    (part : list ascii) :
  parse_chunk_selection_step max_chunks acc part = Ok acc' →
  ∀ i, i ∈ acc' → i ∈ acc ∨ 0 ≤ i < max_chunks.
Proof.
  unfold parse_chunk_selection_step. case_bool_decide.
  - destruct (unpack2 _) as [[a b]| |]; [|discriminate..].
    cbn [mbind outcome_bind bind].
    destruct (py_int (str_strip a)) as [va| |]; [|discriminate..].
    destruct (py_int (str_strip b)) as [vb| |]; [|discriminate..].
    cbn [mbind outcome_bind bind]. intros [= <-] i Hi.
    apply foldl_add_indices in Hi. tauto.
  - destruct (py_int (str_strip part)) as [v| |]; [|discriminate..].
    cbn [mbind outcome_bind bind].
    destruct (Z.leb_spec 0 v), (Z.ltb_spec v max_chunks); simpl;
      intros [= <-] i Hi; auto.
    apply elem_of_union in Hi as [Hi | Hi]; [|by left].
    apply elem_of_singleton in Hi as ->. right. lia.
Qed.

Lemma loop_in_range (max_chunks : Z) (parts : list (list ascii)) :
  ∀ acc acc' : gset Z,
    for_in parts (parse_chunk_selection_step max_chunks) acc = Ok acc' →
    ∀ i, i ∈ acc' → i ∈ acc ∨ 0 ≤ i < max_chunks.
Proof.
  induction parts as [|part parts IH]; intros acc acc'.
  - intros [= <-] i Hi. by left.
  - cbn [for_in].
    destruct (parse_chunk_selection_step max_chunks acc part)
      as [acc1| |] eqn:H1; [|discriminate..].
    cbn [mbind outcome_bind bind]. intros H2 i Hi.
    destruct (IH acc1 acc' H2 i Hi) as [Hi1 | Hr]; [|by right].
    apply (step_in_range max_chunks acc acc1 part H1 i Hi1).
Qed.

Lemma selection_in_range (chunk_spec : list ascii)
    (max_chunks : Z) (l : list Z) :
  parse_chunk_selection chunk_spec max_chunks = Ok l →
  StronglySorted Z.lt l
  ∧ Forall (λ i, 0 ≤ i < max_chunks) l
  ∧ l `sublist_of` py_range 0 max_chunks
  ∧ len l ≤ Z.max 0 max_chunks.
Proof.
  intros Hl.
  assert (StronglySorted Z.lt l ∧ Forall (λ i, 0 ≤ i < max_chunks) l)
    as [Hs Hr].
  { unfold parse_chunk_selection in Hl. case_bool_decide.
    - injection Hl as <-. split; [apply py_range_sorted|].
      apply Forall_forall. intros i Hi. by apply elem_of_py_range in Hi.
    - destruct (for_in _ _ _) as [X| |] eqn:HX; [|discriminate..].
      cbn [mbind outcome_bind bind] in Hl. injection Hl as <-.
      destruct (sorted_elements X) as [Hsorted Hel]. split; [exact Hsorted|].
      apply Forall_forall. intros i Hi. apply Hel in Hi.
      destruct (loop_in_range _ _ _ _ HX i Hi) as [Hi0 | Hr]; [|exact Hr].
      by apply elem_of_empty in Hi0. }
  pose proof (sorted_sublist_range l Hs 0 max_chunks Hr) as Hsub.
  split; [exact Hs|]. split; [exact Hr|]. split; [exact Hsub|].
  apply sublist_length in Hsub. unfold py_range in Hsub.
  rewrite length_fmap, length_seq in Hsub. unfold len. lia.
Qed.

(** X11. Whatever the specification, a list returned by
    [parse_chunk_selection] is strictly ascending, holds only indices
    [i] with [0 <= i < max_chunks], is a sublist of
    [range(max_chunks)] and so has at most [max_chunks] elements. *)
Theorem parse_chunk_selection_in_range (chunk_spec : list ascii)
    (max_chunks : Z) (l : list Z) :
  parse_chunk_selection chunk_spec max_chunks = Ok l →
  StronglySorted Z.lt l
  ∧ Forall (λ i, 0 ≤ i < max_chunks) l
  ∧ l `sublist_of` py_range 0 max_chunks
  ∧ len l ≤ Z.max 0 max_chunks.
Proof. apply selection_in_range. Qed.

Lemma parse_chunk_selection_in_range_witness :
  StronglySorted Z.lt [3; 7; 8; 10] ∧ Forall (λ i, 0 ≤ i < 12) [3; 7; 8; 10].
Proof.
  destruct (parse_chunk_selection_in_range
              (s_ " 1_0 , +3, 7 - 8 ,20-99") 12 [3; 7; 8; 10]
              ltac:(vm_compute; reflexivity)) as (Hs & Hr & _).
  by split.
Defined.

Lemma sublist_concat_fmap {A B : Type} (f : A → list B) (l1 l2 : list A) :
  l1 `sublist_of` l2 → concat (f <$> l1) `sublist_of` concat (f <$> l2).
Proof.
  induction 1 as [|x l1 l2 _ IH|x l1 l2 _ IH]; [constructor| |];
    rewrite ?fmap_cons; cbn [concat].
  - by apply sublist_app.
  - by apply sublist_inserts_l.
Qed.

Lemma dump_lines_default (self : CASReader.t) (show_hex show_ascii : bool) :
  dump_lines self None show_hex show_ascii
  = Ok (concat (chunk_section self show_hex show_ascii
                  <$> py_range 0 (len (CASReader.chunks self)))).
Proof. apply (dump_loop_sections self show_hex show_ascii _ []). Qed.

Lemma chunk_section_nonempty (self : CASReader.t) (show_hex show_ascii : bool)
    (idx : Z) :
  0 ≤ idx < len (CASReader.chunks self) →
  chunk_section self show_hex show_ascii idx ≠ [].
Proof.
  intros [H0 H1]. destruct (in_range_lookup _ _ H0 H1) as [chunk Hc].
  unfold chunk_section.
  rewrite (chunk_section_in_range _ _ _ idx chunk) by done. discriminate.
Qed.

(** X12. The way [main] calls them: when [parse_chunk_selection] is given the
    number of chunks of the reader, [dump_chunks] skips none of the
    indices it returns, and the lines dumped for them are, in the same
    order, a sublist of the lines of the dump of all chunks. *)
Theorem dump_of_selection (self : CASReader.t) (show_hex show_ascii : bool)
    (chunk_spec : list ascii) (l : list Z) :
  parse_chunk_selection chunk_spec (len (CASReader.chunks self)) = Ok l →
  ∃ lines all_lines : list pystr,
    dump_lines self (Some l) show_hex show_ascii = Ok lines
    ∧ dump_lines self None show_hex show_ascii = Ok all_lines
    ∧ lines `sublist_of` all_lines
    ∧ Forall (λ i, chunk_section self show_hex show_ascii i ≠ []) l.
Proof.
  intros Hl.
  destruct (selection_in_range _ _ _ Hl) as (_ & Hr & Hsub & _).
  eexists _, _. split; [apply dump_lines_sections|].
  split; [apply dump_lines_default|]. split.
  - by apply sublist_concat_fmap.
  - eapply Forall_impl; [exact Hr|]. intros i Hi.
    by apply chunk_section_nonempty.
Qed.

Lemma dump_of_selection_witness :
  ∃ lines all_lines : list pystr,
    dump_lines demo_reader (Some [1]) true false = Ok lines
    ∧ dump_lines demo_reader None true false = Ok all_lines
    ∧ lines `sublist_of` all_lines.
Proof.
  destruct (dump_of_selection demo_reader true false (s_ "1,5-9,1") [1]
              ltac:(vm_compute; reflexivity))
    as (lines & all_lines & H1 & H2 & H3 & _).
  by exists lines, all_lines.
Defined.

Lemma step_raises_empty_side (max_chunks : Z) (acc : gset Z)
    (part : list ascii) :
  str_strip part = []
  ∨ (∃ rest, str_strip part = "-"%char :: rest)
  ∨ (∃ start, str_strip part = start ++ ["-"%char] ∧ "-"%char ∉ start) →
  parse_chunk_selection_step max_chunks acc part = Raise ValueError.
Proof.
  unfold parse_chunk_selection_step.
  intros [-> | [[rest ->] | (start & -> & Hs)]].
  - reflexivity.
  - rewrite bool_decide_eq_true_2 by left. reflexivity.
  - rewrite bool_decide_eq_true_2 by (apply elem_of_app; right; left).
    rewrite str_split_once_hyphen by exact Hs.
    cbn [unpack2 mbind outcome_bind bind].
    destruct (py_int_outcome (str_strip start)) as [[v ->] | ->];
      reflexivity.
Qed.

(** X13. A part that is empty once stripped (a doubled or trailing comma, or
    white space only), a part that starts with a hyphen (so no negative
    index can be written) and a part that ends with its only hyphen make
    [parse_chunk_selection] raise [ValueError]. *)
Theorem parse_chunk_selection_empty_side (chunk_spec part : list ascii)
    (max_chunks : Z) :
  chunk_spec ≠ [] → part ∈ str_split "," chunk_spec →
  str_strip part = []
  ∨ (∃ rest, str_strip part = "-"%char :: rest)
  ∨ (∃ start, str_strip part = start ++ ["-"%char] ∧ "-"%char ∉ start) →
  parse_chunk_selection chunk_spec max_chunks = Raise ValueError.
Proof.
  intros Hne Hpart Hside. unfold parse_chunk_selection.
  rewrite bool_decide_eq_false_2 by exact Hne.
  rewrite (for_in_step_raise max_chunks _ part Hpart); [reflexivity|].
  intros acc. by apply step_raises_empty_side.
Qed.

Lemma parse_chunk_selection_empty_side_witness :
  parse_chunk_selection (s_ "0, -1") 10 = Raise ValueError
  ∧ parse_chunk_selection (s_ "0,,1") 10 = Raise ValueError.
Proof.
  split.
  - apply (parse_chunk_selection_empty_side (s_ "0, -1") (s_ " -1") 10).
    + discriminate.
    + vm_compute. right. left.
    + right. left. exists (s_ "1"). reflexivity.
  - apply (parse_chunk_selection_empty_side (s_ "0,,1") [] 10).
    + discriminate.
    + vm_compute. right. left.
    + left. reflexivity.
Defined.

(** ** The console script *)

Section MainProperties.

Variable exn_text : exn → pystr.

Lemma read_ok (file_data : bytes) : ∃ r, read file_data init = Ok r.
Proof. destruct (read_spec file_data) as (cs & _ & H & _). eauto. Qed.

Lemma get_metadata_ok (self : CASReader.t) :
  ∃ metadata, get_metadata self = Ok metadata.
Proof. apply for_in_ok, get_metadata_step_ok. Qed.

Lemma get_chunk_info_ok (self : CASReader.t) :
  get_chunk_info self = Ok (imap chunk_summary (CASReader.chunks self)).
Proof.
  unfold get_chunk_info, enumerate. rewrite get_chunk_info_loop. reflexivity.
Qed.

Lemma dump_chunks_ok (self : CASReader.t) (chunk_indices : option (list Z))
    (show_hex show_ascii : bool) :
  dump_chunks self chunk_indices show_hex show_ascii
  = Ok (str_join [10%N]
          (concat (chunk_section self show_hex show_ascii
                     <$> default (py_range 0 (len (CASReader.chunks self)))
                           chunk_indices))).
Proof.
  unfold dump_chunks. destruct chunk_indices as [l|]; simpl default.
  - rewrite dump_lines_sections. reflexivity.
  - rewrite dump_lines_default. reflexivity.
Qed.

Lemma printed_nil (w : World.t) : printed w [] = w.
Proof. destruct w. unfold printed. simpl. by rewrite app_nil_r. Qed.

Lemma printed_app (w : World.t) (a b : list pystr) :
  printed (printed w a) b = printed w (a ++ b).
Proof. unfold printed. simpl. by rewrite <- app_assoc. Qed.

Lemma print_run (env : Env.t) (s : pystr) (w : World.t) :
  print env s w
  = if printable env s then (printed w [s], Ok ())
    else (w, Raise UnicodeEncodeError).
Proof. reflexivity. Qed.

Lemma not_printable (env : Env.t) (s : pystr) :
  printable env s = false → ∃ c, c ∈ s ∧ Env.encodable env c = false.
Proof.
  unfold printable. induction s as [|c s IH]; simpl; [discriminate|].
  destruct (Env.encodable env c) eqn:Hc; simpl.
  - intros H. destruct (IH H) as (c' & Hin & Hc'). exists c'.
    split; [by right | exact Hc'].
  - intros _. exists c. split; [left | exact Hc].
Qed.

Lemma script_bind_ext {A B : Type} (m : script A) (k1 k2 : A → script B)
    (w : World.t) :
  (∀ a w', k1 a w' = k2 a w') → (m ≫= k1) w = (m ≫= k2) w.
Proof.
  intros H. unfold mbind, script_bind.
  destruct (m w) as [w' [a| |]]; auto.
Qed.

Lemma script_bind_assoc {A B C : Type} (m : script A) (k : A → script B)
    (h : B → script C) (w : World.t) :
  ((m ≫= k) ≫= h) w = (m ≫= (λ a, k a ≫= h)) w.
Proof.
  unfold mbind, script_bind. destruct (m w) as [w' [a| |]]; reflexivity.
Qed.

Lemma script_bind_ret (m : script unit) (w : World.t) :
  (m;; mret ()) w = m w.
Proof.
  unfold mbind, script_bind, mret, script_ret.
  destruct (m w) as [w' [[]| |]]; reflexivity.
Qed.

Lemma for_each_snoc {A : Type} (f : A → pystr) (body : pystr → script unit)
    (xs : list A) (t : pystr) :
  ∀ w, (for_each xs (λ x, body (f x));; body t) w
       = for_each ((f <$> xs) ++ [t]) body w.
Proof.
  induction xs as [|x xs IH]; intros w.
  - cbn [fmap list_fmap app for_each]. by rewrite script_bind_ret.
  - cbn [fmap list_fmap app for_each]. rewrite script_bind_assoc.
    apply script_bind_ext. intros _ w'. apply IH.
Qed.

Lemma for_each_print (env : Env.t) (lines : list pystr) :
  ∀ w,
    (Forall (λ s, printable env s = true) lines
     ∧ for_each lines (print env) w = (printed w lines, Ok ()))
    ∨ (∃ (n : nat) (line : pystr),
         lines !! n = Some line ∧ printable env line = false
         ∧ Forall (λ s, printable env s = true) (take n lines)
         ∧ for_each lines (print env) w
           = (printed w (take n lines), Raise UnicodeEncodeError)).
Proof.
  induction lines as [|s lines IH]; intros w.
  - left. split; [constructor|]. by rewrite printed_nil.
  - cbn [for_each]. unfold mbind, script_bind. rewrite print_run.
    destruct (printable env s) eqn:Hs.
    + destruct (IH (printed w [s]))
        as [[Hall Hrun] | (n & line & Hn & Hline & Hpre & Hrun)].
      * left. split; [by constructor|]. rewrite Hrun, printed_app.
        reflexivity.
      * right. exists (S n), line. split; [exact Hn|]. split; [exact Hline|].
        split; [simpl; by constructor|]. rewrite Hrun, printed_app.
        reflexivity.
    + right. exists 0%nat, s. split; [reflexivity|]. split; [exact Hs|].
      split; [constructor|]. by rewrite printed_nil.
Qed.

Lemma main_info_lines (env : Env.t) (args : Args.t) (r : CASReader.t)
    (w : World.t) :
  CASReader.data_blocks r = data_payloads (CASReader.chunks r) →
  main_info env args r w
  = for_each (info_lines (Args.input args) r) (print env) w.
Proof.
  intros Hr. unfold main_info.
  rewrite (get_metadata_last r Hr), get_chunk_info_ok.
  unfold info_lines, metadata_lines. cbn [app for_each].
  apply script_bind_ext. intros _ w1.
  apply script_bind_ext. intros _ w2.
  change ((lift (Ok (last_chunk_metadata r)) ≫= ?k) w2)
    with (k (last_chunk_metadata r) w2).
  cbn beta.
  apply script_bind_ext. intros _ w3.
  apply script_bind_ext. intros _ w4.
  apply script_bind_ext. intros _ w5.
  apply script_bind_ext. intros _ w6.
  apply script_bind_ext. intros _ w7.
  apply (for_each_snoc chunk_line (print env)).
Qed.

(** What the branch of the dump command does with a decoded reader. *)
Lemma main_dump_run (env : Env.t) (args : Args.t) (reader : CASReader.t)
    (w : World.t) :
  (∃ spec,
     Args.chunk args = Some spec ∧ spec ≠ []
     ∧ parse_chunk_selection spec (len (CASReader.chunks reader))
       = Raise ValueError
     ∧ main_dump env exn_text args reader w
       = (print_err w (lit "Error parsing chunk selection: "
                       ++ exn_text ValueError),
          Exited 1))
  ∨ (∃ (l : list Z) (output : pystr),
       output = dump_text reader (Args.hex args || negb (Args.ascii args))
                  (Args.ascii args) l
       ∧ main_dump env exn_text args reader w
         = (if printable env output then (printed w [output], Returned)
            else (w, Uncaught UnicodeEncodeError))
       ∧ StronglySorted Z.lt l
       ∧ Forall (λ i, 0 ≤ i < len (CASReader.chunks reader)) l
       ∧ (Args.chunk args = None ∨ Args.chunk args = Some [] →
          l = py_range 0 (len (CASReader.chunks reader)))
       ∧ (∀ spec, Args.chunk args = Some spec → spec ≠ [] →
          parse_chunk_selection spec (len (CASReader.chunks reader)) = Ok l)).
Proof.
  assert ((if negb (Args.hex args) && negb (Args.ascii args) then true
           else Args.hex args)
          = Args.hex args || negb (Args.ascii args)) as Hhex
    by (destruct (Args.hex args), (Args.ascii args); reflexivity).
  assert (StronglySorted Z.lt (py_range 0 (len (CASReader.chunks reader)))
          ∧ Forall (λ i, 0 ≤ i < len (CASReader.chunks reader))
              (py_range 0 (len (CASReader.chunks reader)))) as [Hs Hr].
  { split; [apply py_range_sorted|]. apply Forall_forall.
    intros i Hi. by apply elem_of_py_range in Hi. }
  assert (∀ chunk_indices,
            ended ((output ← lift (dump_chunks reader chunk_indices
                                     (Args.hex args || negb (Args.ascii args))
                                     (Args.ascii args));
                    print env output) w)
            = (if printable env
                    (dump_text reader
                       (Args.hex args || negb (Args.ascii args))
                       (Args.ascii args)
                       (default (py_range 0 (len (CASReader.chunks reader)))
                          chunk_indices))
               then (printed w
                       [dump_text reader
                          (Args.hex args || negb (Args.ascii args))
                          (Args.ascii args)
                          (default
                             (py_range 0 (len (CASReader.chunks reader)))
                             chunk_indices)],
                     Returned)
               else (w, Uncaught UnicodeEncodeError))) as Hrun.
  { intros chunk_indices. rewrite dump_chunks_ok.
    unfold mbind, script_bind, lift. rewrite print_run. unfold dump_text.
    destruct (printable env _); reflexivity. }
  unfold main_dump. destruct (Args.chunk args) as [spec|] eqn:Hchunk.
  - case_bool_decide as Hne.
    + destruct (parse_chunk_selection_outcome spec
                  (len (CASReader.chunks reader))) as [[l Hl] | Hl];
        rewrite Hl.
      * right. exists l. eexists. split; [reflexivity|].
        cbn [fmap outcome_fmap bind]. cbn zeta.
        rewrite Hhex, Hrun. cbn [default].
        split; [reflexivity|].
        destruct (selection_in_range _ _ _ Hl) as (Hsl & Hrl & _).
        split; [exact Hsl|]. split; [exact Hrl|]. split.
        -- intros [H | H]; [discriminate | congruence].
        -- intros spec' [= <-] _. exact Hl.
      * left. exists spec. repeat split; done.
    + right. exists (py_range 0 (len (CASReader.chunks reader))).
      eexists. split; [reflexivity|].
      cbn zeta. rewrite Hhex, Hrun. cbn [default].
      split; [reflexivity|].
      split; [exact Hs|]. split; [exact Hr|]. split; [done|].
      intros spec' [= <-] Hne'. contradiction.
  - right. exists (py_range 0 (len (CASReader.chunks reader))).
    eexists. split; [reflexivity|].
    cbn zeta. rewrite Hhex, Hrun. cbn [default].
    split; [reflexivity|].
    split; [exact Hs|]. split; [exact Hr|]. split; [done|].
    intros spec' Hspec. discriminate.
Qed.

(** What the branch of the conversion does. *)
Lemma main_to_bin_run (env : Env.t) (output_path : string)
    (reader : CASReader.t) (w : World.t) :
  output_path ≠ ""%string →
  main_to_bin env exn_text output_path reader w
  = match Env.open_wb env output_path with
    | Some e =>
      (print_err w (lit "Error writing binary file: " ++ exn_text e),
       Exited 1)
    | None =>
      if printable env (wrote_line reader output_path)
      then (printed (stored w output_path (to_byte_array reader))
              [wrote_line reader output_path],
            Returned)
      else (print_err (stored w output_path (to_byte_array reader))
              (lit "Error writing binary file: "
               ++ exn_text UnicodeEncodeError),
            Exited 1)
    end.
Proof.
  intros Hne.
  unfold main_to_bin, mbind, script_bind, to_bin_file, open_for_writing.
  rewrite bool_decide_eq_false_2 by exact Hne.
  destruct (Env.open_wb env output_path) as [e|]; [reflexivity|].
  rewrite print_run. fold (wrote_line reader output_path).
  fold (stored w output_path (to_byte_array reader)).
  destruct (printable env (wrote_line reader output_path)); reflexivity.
Qed.

Lemma read_binary_outcome (env : Env.t) (path : string) :
  (∃ file_data, read_binary env path = Ok file_data)
  ∨ (∃ err, read_binary env path = Raise err).
Proof.
  unfold read_binary. case_bool_decide; [right; by eexists|].
  destruct (Env.read_file env path); [right | left]; by eexists.
Qed.

(** The branches of [main]. *)
Lemma main_cases (env : Env.t) (args : Args.t) (w : World.t) :
  (∃ err,
     read_binary env (Args.input args) = Raise err
     ∧ main env exn_text args w
       = (print_err w (read_error_line exn_text (Args.input args) err),
          Exited 1))
  ∨ (∃ (file_data : bytes) (r : CASReader.t),
       read_binary env (Args.input args) = Ok file_data
       ∧ read file_data init = Ok r
       ∧ CASReader.data_blocks r = data_payloads (CASReader.chunks r)
       ∧ 8 * len (CASReader.chunks r) + len (to_byte_array r) ≤ len file_data
       ∧ to_byte_array r = concat (get_data_blocks r)
       ∧ ((Args.command args = Some "dump"%string
           ∧ main env exn_text args w = main_dump env exn_text args r w)
          ∨ (Args.command args ≠ Some "dump"%string
             ∧ ∃ output_path,
                 Args.to_bin args = Some output_path
                 ∧ output_path ≠ ""%string
                 ∧ main env exn_text args w
                   = main_to_bin env exn_text output_path r w)
          ∨ (Args.command args ≠ Some "dump"%string
             ∧ (Args.to_bin args = None ∨ Args.to_bin args = Some ""%string)
             ∧ main env exn_text args w
               = ended (for_each (info_lines (Args.input args) r)
                          (print env) w)))).
Proof.
  unfold main, read_path.
  destruct (read_binary_outcome env (Args.input args))
    as [[file_data Hread] | [err Hread]]; rewrite Hread;
    cbn [mbind outcome_bind bind].
  2:{ left. exists err. split; [reflexivity|].
      unfold read_error_line. by destruct err. }
  right. destruct (read_spec file_data) as (cs & tail & Hr & Hcs & HB & _).
  exists file_data, (extend init cs). rewrite Hr.
  split; [reflexivity|]. split; [reflexivity|]. split; [reflexivity|].
  split.
  { rewrite to_byte_array_payloads. simpl.
    destruct (len_data_payloads cs Hcs) as [_ Hle].
    rewrite HB, len_app, (len_stream_bytes cs Hcs).
    pose proof (len_nonneg tail). lia. }
  split; [rewrite to_byte_array_payloads; reflexivity|].
  case_bool_decide as Hcmd; [left; by split|]. right.
  destruct (Args.to_bin args) as [output_path|].
  - case_bool_decide as Hpath.
    + left. split; [exact Hcmd|]. by exists output_path.
    + right. split; [exact Hcmd|].
      subst output_path.
      split; [by right|]. by rewrite main_info_lines.
  - right. split; [exact Hcmd|]. split; [by left|].
    by rewrite main_info_lines.
Qed.

End MainProperties.

(** X14. How a run of [main] ends. It returns, or exits with status 1, or
    is left by the [UnicodeEncodeError] of a [print]; the last only in
    an environment where [sys.stdout] lacks a character. When it
    returns, nothing was written to the error stream. When it exits,
    nothing was printed and one line was written to the error stream;
    it is the line of the failed read when the input file cannot be
    read. When the exception leaves it, nothing was written to the error
    stream and no file was written. A file is written only by the
    conversion, at a path that opens. The run exits with status 1
    exactly when the input file cannot be read, or the dump command is
    given a non-empty selection that [parse_chunk_selection] rejects, or
    the conversion meets a path that does not open or cannot print its
    line. *)
Theorem main_endings (env : Env.t) (exn_text : exn → pystr) (args : Args.t)
    (w : World.t) :
  ∃ (w' : World.t) (e : ending),
    main env exn_text args w = (w', e)
    ∧ (e = Returned ∨ e = Exited 1 ∨ e = Uncaught UnicodeEncodeError)
    ∧ (e = Returned → World.stderr w' = World.stderr w)
    ∧ (e = Exited 1 →
       World.stdout w' = World.stdout w
       ∧ ∃ line, World.stderr w' = World.stderr w ++ [line])
    ∧ (∀ err, read_binary env (Args.input args) = Raise err →
       w' = print_err w (read_error_line exn_text (Args.input args) err))
    ∧ (e = Uncaught UnicodeEncodeError →
       World.stderr w' = World.stderr w ∧ World.files w' = World.files w
       ∧ ∃ c, Env.encodable env c = false)
    ∧ (World.files w' = World.files w
       ∨ ∃ file_data r output_path,
           read_binary env (Args.input args) = Ok file_data
           ∧ read file_data init = Ok r
           ∧ Args.command args ≠ Some "dump"%string
           ∧ Args.to_bin args = Some output_path
           ∧ Env.open_wb env output_path = None
           ∧ World.files w'
             = <[output_path := concat (get_data_blocks r)]> (World.files w))
    ∧ (e = Exited 1
       ↔ (∃ err, read_binary env (Args.input args) = Raise err)
         ∨ ∃ file_data r,
             read_binary env (Args.input args) = Ok file_data
             ∧ read file_data init = Ok r
             ∧ ((Args.command args = Some "dump"%string
                 ∧ ∃ spec,
                     Args.chunk args = Some spec ∧ spec ≠ []
                     ∧ parse_chunk_selection spec (len (CASReader.chunks r))
                       = Raise ValueError)
                ∨ (Args.command args ≠ Some "dump"%string
                   ∧ ∃ output_path,
                       Args.to_bin args = Some output_path
                       ∧ output_path ≠ ""%string
                       ∧ (Env.open_wb env output_path ≠ None
                          ∨ printable env (wrote_line r output_path)
                            = false)))).
Proof.
  destruct (main_cases exn_text env args w)
    as [(err & Hread & Hm)
       | (file_data & r & Hread & Hr & _ & _ & Hbytes & Hbranch)].
  { eexists _, _. split; [exact Hm|].
    split; [right; by left|]. split; [discriminate|].
    split; [intros _; split; [reflexivity | by eexists]|].
    split; [intros err' Herr'; congruence|].
    split; [discriminate|]. split; [by left|].
    split; [intros _; left; by exists err | reflexivity]. }
  assert (∀ w' e,
            main env exn_text args w = (w', e) →
            e ≠ Exited 1 ∨ World.stdout w' = World.stdout w
                           ∧ (∃ line, World.stderr w'
                                      = World.stderr w ++ [line]) →
            e = Exited 1 ∨ World.stderr w' = World.stderr w →
            (e = Returned ∨ e = Exited 1 ∨ e = Uncaught UnicodeEncodeError) →
            (e = Uncaught UnicodeEncodeError →
             World.files w' = World.files w
             ∧ ∃ c, Env.encodable env c = false) →
            (World.files w' = World.files w
             ∨ ∃ output_path,
                 Args.command args ≠ Some "dump"%string
                 ∧ Args.to_bin args = Some output_path
                 ∧ Env.open_wb env output_path = None
                 ∧ World.files w'
                   = <[output_path := concat (get_data_blocks r)]>
                       (World.files w)) →
            (e = Exited 1
             ↔ (Args.command args = Some "dump"%string
                ∧ ∃ spec,
                    Args.chunk args = Some spec ∧ spec ≠ []
                    ∧ parse_chunk_selection spec (len (CASReader.chunks r))
                      = Raise ValueError)
               ∨ (Args.command args ≠ Some "dump"%string
                  ∧ ∃ output_path,
                      Args.to_bin args = Some output_path
                      ∧ output_path ≠ ""%string
                      ∧ (Env.open_wb env output_path ≠ None
                         ∨ printable env (wrote_line r output_path)
                           = false))) →
            ∃ (w' : World.t) (e : ending),
              main env exn_text args w = (w', e)
              ∧ (e = Returned ∨ e = Exited 1
                 ∨ e = Uncaught UnicodeEncodeError)
              ∧ (e = Returned → World.stderr w' = World.stderr w)
              ∧ (e = Exited 1 →
                 World.stdout w' = World.stdout w
                 ∧ ∃ line, World.stderr w' = World.stderr w ++ [line])
              ∧ (∀ err, read_binary env (Args.input args) = Raise err →
                 w' = print_err w
                        (read_error_line exn_text (Args.input args) err))
              ∧ (e = Uncaught UnicodeEncodeError →
                 World.stderr w' = World.stderr w
                 ∧ World.files w' = World.files w
                 ∧ ∃ c, Env.encodable env c = false)
              ∧ (World.files w' = World.files w
                 ∨ ∃ file_data r output_path,
                     read_binary env (Args.input args) = Ok file_data
                     ∧ read file_data init = Ok r
                     ∧ Args.command args ≠ Some "dump"%string
                     ∧ Args.to_bin args = Some output_path
                     ∧ Env.open_wb env output_path = None
                     ∧ World.files w'
                       = <[output_path := concat (get_data_blocks r)]>
                           (World.files w))
              ∧ (e = Exited 1
                 ↔ (∃ err, read_binary env (Args.input args) = Raise err)
                   ∨ ∃ file_data r,
                       read_binary env (Args.input args) = Ok file_data
                       ∧ read file_data init = Ok r
                       ∧ ((Args.command args = Some "dump"%string
                           ∧ ∃ spec,
                               Args.chunk args = Some spec ∧ spec ≠ []
                               ∧ parse_chunk_selection spec
                                   (len (CASReader.chunks r))
                                 = Raise ValueError)
                          ∨ (Args.command args ≠ Some "dump"%string
                             ∧ ∃ output_path,
                                 Args.to_bin args = Some output_path
                                 ∧ output_path ≠ ""%string
                                 ∧ (Env.open_wb env output_path ≠ None
                                    ∨ printable env
                                        (wrote_line r output_path)
                                      = false))))) as Hfinish.
  { intros w' e Hm Hexit Herr Hends Hunc Hfiles Hiff.
    exists w', e. split; [exact Hm|]. split; [exact Hends|].
    split.
    { intros ->. destruct Herr as [H | H]; [discriminate | exact H]. }
    split.
    { intros ->. destruct Hexit as [H | H]; [done | exact H]. }
    split; [intros err Herr'; congruence|].
    split.
    { intros ->. destruct Herr as [H | H]; [discriminate|].
      split; [exact H|]. by apply Hunc. }
    split.
    { destruct Hfiles as [H | (output_path & H1 & H2 & H3 & H4)];
        [by left|].
      right. by exists file_data, r, output_path. }
    rewrite Hiff. split.
    - intros H. right. by exists file_data, r.
    - intros [(err & Herr') | (fd & r' & Hfd & Hr' & H)]; [congruence|].
      rewrite Hread in Hfd. injection Hfd as <-.
      rewrite Hr in Hr'. injection Hr' as <-. exact H. }
  destruct Hbranch as [[Hcmd Hm] | [(Hcmd & output_path & Hbin & Hpath & Hm)
                                   | (Hcmd & Hbin & Hm)]].
  - destruct (main_dump_run exn_text env args r w)
      as [(spec & Hc & Hne & Hp & Hd)
         | (l & output & Hout & Hd & _ & _ & _ & Hok)];
      rewrite Hd in Hm.
    + apply (Hfinish _ _ Hm).
      * right. split; [reflexivity | by eexists].
      * by left.
      * right. by left.
      * discriminate.
      * by left.
      * split; [|reflexivity]. intros _. left. split; [exact Hcmd|].
        by exists spec.
    + destruct (printable env output) eqn:Hprint; apply (Hfinish _ _ Hm).
      * by left.
      * by right.
      * by left.
      * discriminate.
      * by left.
      * split; [discriminate|].
        intros [(_ & spec & Hc & Hne & Hp) | (Hcmd' & _)]; [|done].
        rewrite (Hok spec Hc Hne) in Hp. discriminate.
      * by left.
      * by right.
      * right. by right.
      * intros _. split; [reflexivity|].
        destruct (not_printable env output Hprint) as (c & _ & Hc).
        by exists c.
      * by left.
      * split; [discriminate|].
        intros [(_ & spec & Hc & Hne & Hp) | (Hcmd' & _)]; [|done].
        rewrite (Hok spec Hc Hne) in Hp. discriminate.
  - rewrite (main_to_bin_run exn_text env output_path r w Hpath) in Hm.
    destruct (Env.open_wb env output_path) as [e0|] eqn:Hopen.
    + apply (Hfinish _ _ Hm).
      * right. split; [reflexivity | by eexists].
      * by left.
      * right. by left.
      * discriminate.
      * by left.
      * split; [|reflexivity]. intros _. right. split; [exact Hcmd|].
        exists output_path. split; [exact Hbin|]. split; [exact Hpath|].
        left. by rewrite Hopen.
    + destruct (printable env (wrote_line r output_path)) eqn:Hprint;
        apply (Hfinish _ _ Hm).
      * by left.
      * by right.
      * by left.
      * discriminate.
      * right. exists output_path. rewrite <- Hbytes. done.
      * split; [discriminate|].
        intros [(Hcmd' & _) | (_ & p & Hp & _ & Hwhy)]; [done|].
        rewrite Hbin in Hp. injection Hp as <-.
        destruct Hwhy as [H | H]; [by rewrite Hopen in H | congruence].
      * right. split; [reflexivity | by eexists].
      * by left.
      * right. by left.
      * discriminate.
      * right. exists output_path. rewrite <- Hbytes. done.
      * split; [|reflexivity]. intros _. right. split; [exact Hcmd|].
        exists output_path. split; [exact Hbin|]. split; [exact Hpath|].
        by right.
  - assert (∀ output_path,
              Args.to_bin args = Some output_path →
              output_path ≠ ""%string → False) as Hnone.
    { intros p Hp Hne. destruct Hbin as [H | H]; rewrite H in Hp;
        [discriminate|]. injection Hp as <-. done. }
    destruct (for_each_print env (info_lines (Args.input args) r) w)
      as [[Hall Hrun] | (n & line & Hn & Hline & Hpre & Hrun)];
      rewrite Hrun in Hm; apply (Hfinish _ _ Hm).
    + by left.
    + by right.
    + by left.
    + discriminate.
    + by left.
    + split; [discriminate|].
      intros [(Hcmd' & _) | (_ & p & Hp & Hne & _)]; [done|].
      by destruct (Hnone p Hp Hne).
    + by left.
    + by right.
    + right. by right.
    + intros _. split; [reflexivity|].
      destruct (not_printable env line Hline) as (c & _ & Hc). by exists c.
    + by left.
    + split; [discriminate|].
      intros [(Hcmd' & _) | (_ & p & Hp & Hne & _)]; [done|].
      by destruct (Hnone p Hp Hne).
Qed.

Lemma main_endings_witness :
  ∃ w' : World.t,
    main (tape_env (λ _, true)) (λ _, [])
      (Args.mk "none.cas" false None None None false false)
      (World.mk [] [] ∅)
    = (w', Exited 1)
    ∧ World.stdout w' = []
    ∧ World.stderr w' = [lit "Error: File not found: none.cas"].
Proof.
  destruct (main_endings (tape_env (λ _, true)) (λ _, [])
              (Args.mk "none.cas" false None None None false false)
              (World.mk [] [] ∅))
    as (w' & e & Hm & _ & _ & Hexit & Hline & _ & _ & Hiff).
  assert (e = Exited 1) as ->.
  { apply Hiff. left. by exists FileNotFoundError. }
  exists w'. split; [exact Hm|]. split; [apply (Hexit eq_refl)|].
  by rewrite (Hline FileNotFoundError eq_refl).
Defined.

(** X15. The dump command, on an input file that can be read. Either the
    non-empty selection given with [--chunk] is rejected and the run
    exits with status 1 after one line on the error stream; or the
    selection is the list [parse_chunk_selection] returns for it (all
    chunks without [--chunk] or with an empty one), strictly ascending
    and in range, and the text of the dump is the sections of the
    selected chunks in that order, in hexadecimal unless [--ascii] is
    given without [--hex]. When [sys.stdout] can encode the text the run
    prints it alone and returns; otherwise the run is left by
    [UnicodeEncodeError] with nothing printed. No file is written,
    whatever [--info] and [--to-bin] say. *)
Theorem main_dump_output (env : Env.t) (exn_text : exn → pystr)
    (args : Args.t) (w : World.t) (file_data : bytes) :
  read_binary env (Args.input args) = Ok file_data →
  Args.command args = Some "dump"%string →
  ∃ r : CASReader.t,
    read file_data init = Ok r
    ∧ ((∃ spec,
          Args.chunk args = Some spec ∧ spec ≠ []
          ∧ parse_chunk_selection spec (len (CASReader.chunks r))
            = Raise ValueError
          ∧ main env exn_text args w
            = (print_err w (lit "Error parsing chunk selection: "
                            ++ exn_text ValueError),
               Exited 1))
       ∨ (∃ (l : list Z) (output : pystr),
            (Args.chunk args = None ∨ Args.chunk args = Some [] →
             l = py_range 0 (len (CASReader.chunks r)))
            ∧ (∀ spec, Args.chunk args = Some spec → spec ≠ [] →
               parse_chunk_selection spec (len (CASReader.chunks r)) = Ok l)
            ∧ StronglySorted Z.lt l
            ∧ Forall (λ i, 0 ≤ i < len (CASReader.chunks r)) l
            ∧ output
              = str_join [10%N]
                  (concat (chunk_section r
                             (Args.hex args || negb (Args.ascii args))
                             (Args.ascii args) <$> l))
            ∧ main env exn_text args w
              = (if printable env output then (printed w [output], Returned)
                 else (w, Uncaught UnicodeEncodeError)))).
Proof.
  intros Hfile Hcmd.
  destruct (main_cases exn_text env args w)
    as [(err & Hread & _)
       | (fd & r & Hread & Hr & _ & _ & _ & Hbranch)]; [congruence|].
  rewrite Hfile in Hread. injection Hread as <-.
  exists r. split; [exact Hr|].
  destruct Hbranch as [[_ Hm] | [(Hcmd' & _) | (Hcmd' & _)]]; [|done..].
  rewrite Hm.
  destruct (main_dump_run exn_text env args r w)
    as [(spec & Hc & Hne & Hp & Hd)
       | (l & output & Hout & Hd & Hs & Hrange & Hall & Htie)].
  - left. by exists spec.
  - right. by exists l, output.
Qed.

Lemma main_dump_output_witness :
  ∃ (r : CASReader.t) (output : pystr),
    read test_tape init = Ok r
    ∧ parse_chunk_selection (s_ "1,1,0") (len (CASReader.chunks r))
      = Ok [0; 1]
    ∧ main (tape_env (λ c, c <? 128)%N) (λ _, [])
        (Args.mk "tape.cas" true (Some "out.bin"%string)
           (Some "dump"%string) (Some (s_ "1,1,0")) false false)
        (World.mk [] [] ∅)
      = (World.mk [output] [] ∅, Returned).
Proof.
  destruct (main_dump_output (tape_env (λ c, c <? 128)%N) (λ _, [])
              (Args.mk "tape.cas" true (Some "out.bin"%string)
                 (Some "dump"%string) (Some (s_ "1,1,0")) false false)
              (World.mk [] [] ∅) test_tape eq_refl eq_refl)
    as (r & Hr & [(spec & Hc & _ & Hp & _)
                 | (l & output & _ & Htie & _ & _ & Hout & Hm)]).
  - exfalso. injection Hc as <-. vm_compute in Hr. injection Hr as <-.
    vm_compute in Hp. discriminate.
  - exists r, output. split; [exact Hr|].
    pose proof (Htie _ eq_refl ltac:(discriminate)) as Hl.
    assert (l = [0; 1]) as ->.
    { vm_compute in Hr. injection Hr as <-. vm_compute in Hl.
      by injection Hl as <-. }
    split; [exact Hl|]. rewrite Hm.
    assert (printable (tape_env (λ c, c <? 128)%N) output = true) as ->.
    { rewrite Hout. vm_compute in Hr. injection Hr as <-.
      vm_compute. reflexivity. }
    reflexivity.
Defined.

(** X16. The conversion, on an input file that can be read, when the
    command is not the dump and [--to-bin] names a path. When the path
    does not open for writing, the run exits with status 1 after the
    line [Error writing binary file: ...] on the error stream, and no
    file is written. When it opens, the file at that path holds the
    data blocks of the decoded input, one after the other; the run then
    prints [Wrote n bytes to <path>], where [n] is the size of that
    file, and returns, unless [sys.stdout] cannot encode that line: then
    it exits with status 1 after the error line, with the file written
    and nothing printed. Eight bytes for each chunk and the size of the
    file are together at most the size of the input. *)
Theorem main_to_bin_output (env : Env.t) (exn_text : exn → pystr)
    (args : Args.t) (w : World.t) (file_data : bytes)
    (output_path : string) :
  read_binary env (Args.input args) = Ok file_data →
  Args.command args ≠ Some "dump"%string →
  Args.to_bin args = Some output_path → output_path ≠ ""%string →
  ∃ (r : CASReader.t) (content : bytes) (line : pystr),
    read file_data init = Ok r
    ∧ content = concat (get_data_blocks r)
    ∧ 8 * len (CASReader.chunks r) + len content ≤ len file_data
    ∧ line = lit "Wrote " ++ str_of_int (len content) ++ lit " bytes to "
             ++ lit output_path
    ∧ main env exn_text args w
      = match Env.open_wb env output_path with
        | Some e =>
          (World.mk (World.stdout w)
             (World.stderr w
              ++ [lit "Error writing binary file: " ++ exn_text e])
             (World.files w),
           Exited 1)
        | None =>
          if printable env line
          then (World.mk (World.stdout w ++ [line]) (World.stderr w)
                  (<[output_path := content]> (World.files w)),
                Returned)
          else (World.mk (World.stdout w)
                  (World.stderr w
                   ++ [lit "Error writing binary file: "
                       ++ exn_text UnicodeEncodeError])
                  (<[output_path := content]> (World.files w)),
                Exited 1)
        end.
Proof.
  intros Hfile Hcmd Hbin Hpath.
  destruct (main_cases exn_text env args w)
    as [(err & Hread & _)
       | (fd & r & Hread & Hr & _ & Hsize & Hbytes & Hbranch)]; [congruence|].
  rewrite Hfile in Hread. injection Hread as <-.
  exists r, (concat (get_data_blocks r)). eexists.
  split; [exact Hr|]. split; [reflexivity|].
  split; [by rewrite <- Hbytes|]. split; [reflexivity|].
  destruct Hbranch as [[Hcmd' _] | [(_ & p & Hp & _ & Hm) | (_ & Hbin' & _)]].
  - done.
  - rewrite Hbin in Hp. injection Hp as <-. rewrite Hm.
    rewrite (main_to_bin_run exn_text env output_path r w Hpath).
    unfold wrote_line. rewrite Hbytes. reflexivity.
  - destruct Hbin' as [H | H]; rewrite H in Hbin; [discriminate|].
    injection Hbin as <-. done.
Qed.

Lemma main_to_bin_output_witness :
  (∃ w' : World.t,
     main (tape_env (λ c, c <? 128)%N) (λ _, [])
       (Args.mk "tape.cas" false (Some "out.bin"%string) None None
          false false)
       (World.mk [] [] ∅)
     = (w', Returned)
     ∧ World.stdout w' = [lit "Wrote 10 bytes to out.bin"])
  ∧ main (tape_env (λ c, c <? 128)%N) (λ _, lit "is a directory")
      (Args.mk "tape.cas" false (Some "/"%string) None None false false)
      (World.mk [] [] ∅)
    = (World.mk [] [lit "Error writing binary file: is a directory"] ∅,
       Exited 1).
Proof.
  split.
  - destruct (main_to_bin_output (tape_env (λ c, c <? 128)%N) (λ _, [])
                (Args.mk "tape.cas" false (Some "out.bin"%string) None None
                   false false)
                (World.mk [] [] ∅) test_tape "out.bin" eq_refl
                ltac:(discriminate) eq_refl ltac:(discriminate))
      as (r & content & line & Hr & Hc & _ & Hline & Hm).
    vm_compute in Hr. injection Hr as <-.
    assert (line = lit "Wrote 10 bytes to out.bin") as ->
      by (rewrite Hline, Hc; reflexivity).
    eexists. split; [exact Hm|]. reflexivity.
  - destruct (main_to_bin_output (tape_env (λ c, c <? 128)%N)
                (λ _, lit "is a directory")
                (Args.mk "tape.cas" false (Some "/"%string) None None
                   false false)
                (World.mk [] [] ∅) test_tape "/" eq_refl
                ltac:(discriminate) eq_refl ltac:(discriminate))
      as (r & content & line & _ & _ & _ & _ & Hm).
    exact Hm.
Defined.

(** X17. The file information, on an input file that can be read, when
    neither the dump nor a conversion is asked for. The lines are: the
    file name, the heading and the four lines of the metadata, the
    heading of the chunks and one line for each chunk in order with its
    index, type, length and auxiliary value, and the number of data
    bytes; that number, with 8 bytes for each chunk, is at most the size
    of the input file. When [sys.stdout] can encode all of them the run
    prints them in this order and returns; otherwise it prints the
    lines before the first one that cannot be encoded and is left by
    [UnicodeEncodeError]. Nothing is written to the error stream and no
    file is written. *)
Theorem main_info_output (env : Env.t) (exn_text : exn → pystr)
    (args : Args.t) (w : World.t) (file_data : bytes) :
  read_binary env (Args.input args) = Ok file_data →
  Args.command args ≠ Some "dump"%string →
  Args.to_bin args = None ∨ Args.to_bin args = Some ""%string →
  ∃ (r : CASReader.t) (metadata : Metadata) (lines : list pystr),
    read file_data init = Ok r
    ∧ get_metadata r = Ok metadata
    ∧ lines
      = [lit "CAS File: " ++ lit (Args.input args);
         [10%N] ++ lit "Metadata:";
         lit "  description: " ++ str_of_description (description metadata);
         lit "  baudrate: " ++ str_of_int (baudrate metadata);
         lit "  chunk_count: " ++ str_of_int (chunk_count metadata);
         lit "  data_block_count: "
         ++ str_of_int (data_block_count metadata);
         [10%N] ++ lit "Chunks:"]
        ++ imap (λ i c,
                   lit "  [" ++ str_of_int (Z.of_nat i) ++ lit "] "
                   ++ (Byte.to_N
                         <$> filter (λ b, (Byte.to_N b < 0x80)%N)
                               (ChunkHeader.chunk_type (Chunk.header c)))
                   ++ lit ": "
                   ++ str_of_int (ChunkHeader.length (Chunk.header c))
                   ++ lit " bytes (aux: "
                   ++ str_of_int (ChunkHeader.aux_data (Chunk.header c))
                   ++ lit ")")
            (CASReader.chunks r)
        ++ [[10%N] ++ lit "Total data bytes: "
            ++ str_of_int (len (concat (get_data_blocks r)))]
    ∧ 8 * len (CASReader.chunks r) + len (concat (get_data_blocks r))
      ≤ len file_data
    ∧ ((Forall (λ s, printable env s = true) lines
        ∧ main env exn_text args w = (printed w lines, Returned))
       ∨ (∃ (n : nat) (line : pystr),
            lines !! n = Some line ∧ printable env line = false
            ∧ Forall (λ s, printable env s = true) (take n lines)
            ∧ main env exn_text args w
              = (printed w (take n lines), Uncaught UnicodeEncodeError))).
Proof.
  intros Hfile Hcmd Hbin.
  destruct (main_cases exn_text env args w)
    as [(err & Hread & _)
       | (fd & r & Hread & Hr & Hblocks & Hsize & Hbytes & Hbranch)];
    [congruence|].
  rewrite Hfile in Hread. injection Hread as <-.
  exists r, (last_chunk_metadata r), (info_lines (Args.input args) r).
  split; [exact Hr|]. split; [by apply get_metadata_last|].
  split.
  { unfold info_lines, metadata_lines. rewrite Hbytes. cbn [app].
    do 8 f_equal. rewrite fmap_imap. reflexivity. }
  split; [by rewrite <- Hbytes|].
  destruct Hbranch as [[Hcmd' _] | [(_ & p & Hp & Hne & _) | (_ & _ & Hm)]].
  - done.
  - destruct Hbin as [H | H]; rewrite H in Hp; [discriminate|].
    injection Hp as <-. done.
  - rewrite Hm.
    destruct (for_each_print env (info_lines (Args.input args) r) w)
      as [[Hall Hrun] | (n & line & Hn & Hline & Hpre & Hrun)];
      rewrite Hrun.
    + left. by split.
    + right. by exists n, line.
Qed.

Lemma main_info_output_witness :
  ∃ w' : World.t,
    main (tape_env (λ c, c <? 128)%N) (λ _, [])
      (Args.mk "tape.cas" true (Some ""%string) None None false false)
      (World.mk [] [] ∅)
    = (w', Returned)
    ∧ World.stdout w'
      = [lit "CAS File: tape.cas";
         [10%N] ++ lit "Metadata:";
         lit "  description: Test Tape";
         lit "  baudrate: 600";
         lit "  chunk_count: 2";
         lit "  data_block_count: 1";
         [10%N] ++ lit "Chunks:";
         lit "  [0] FUJI: 9 bytes (aux: 0)";
         lit "  [1] data: 10 bytes (aux: 0)";
         [10%N] ++ lit "Total data bytes: 10"].
Proof.
  destruct (main_info_output (tape_env (λ c, c <? 128)%N) (λ _, [])
              (Args.mk "tape.cas" true (Some ""%string) None None false false)
              (World.mk [] [] ∅) test_tape eq_refl
              ltac:(discriminate) ltac:(by right))
    as (r & metadata & lines & Hr & Hmd & Hlines & _ & Hm).
  vm_compute in Hr. injection Hr as <-.
  vm_compute in Hmd. injection Hmd as <-.
  vm_compute in Hlines. subst lines.
  destruct Hm as [[_ Hm] | (n & line & Hn & Hline & _)].
  - eexists. split; [exact Hm|]. vm_compute. reflexivity.
  - exfalso.
    do 10 (destruct n as [|n];
           [injection Hn as <-; vm_compute in Hline; discriminate|]).
    discriminate.
Defined.

(** ** White space in selections, and the ranges of the metadata *)

Lemma drop_while_app_all {A : Type} (p : A → bool) (w l : list A) :
  Forall (λ x, p x = true) w → drop_while p (w ++ l) = drop_while p l.
Proof. induction 1 as [|x w Hx _ IH]; simpl; [|rewrite Hx]; done. Qed.

Lemma drop_while_stop {A : Type} (p : A → bool) (x : A) (l : list A) :
  p x = false → drop_while p (x :: l) = x :: l.
Proof. intros H. simpl. rewrite H. reflexivity. Qed.

Lemma str_strip_padded (w1 w2 s s1 s2 : list ascii) (c1 c2 : ascii) :
  Forall (λ c, is_space c = true) w1 → Forall (λ c, is_space c = true) w2 →
  s = c1 :: s1 → is_space c1 = false →
  s = s2 ++ [c2] → is_space c2 = false →
  str_strip (w1 ++ s ++ w2) = s.
Proof.
  intros H1 H2 Hhead Hc1 Hlast Hc2. unfold str_strip.
  rewrite drop_while_app_all by exact H1.
  rewrite Hhead at 1. cbn [app]. rewrite drop_while_stop by exact Hc1.
  change (c1 :: s1 ++ w2) with ((c1 :: s1) ++ w2). rewrite <- Hhead.
  rewrite reverse_app, drop_while_app_all by (by apply Forall_reverse).
  rewrite Hlast, reverse_snoc, drop_while_stop by exact Hc2.
  rewrite <- reverse_snoc. apply reverse_involutive.
Qed.

Lemma numeral_ends (ds : list ascii) :
  numeral ds →
  (∃ c s, ds = c :: s ∧ is_digit c = true)
  ∧ (∃ s c, ds = s ++ [c] ∧ is_digit c = true).
Proof.
  intros [Hne Hds]. split.
  - destruct ds as [|c s]; [done|]. exists c, s. split; [reflexivity|].
    by apply Forall_inv in Hds.
  - destruct (last ds) as [c|] eqn:Hl; [|by apply last_None in Hl].
    apply last_Some in Hl as [s ->]. exists s, c. split; [reflexivity|].
    apply Forall_app in Hds as [_ Hc]. by apply Forall_inv in Hc.
Qed.

Lemma space_not_digit (c : ascii) : is_space c = true → is_digit c = false.
Proof.
  intros H. destruct (is_digit c) eqn:E; [|reflexivity].
  apply digit_not_space in E. congruence.
Qed.

Lemma blank_not_elem (w : list ascii) (d : ascii) :
  Forall (λ c, is_space c = true) w → is_space d = false → d ∉ w.
Proof.
  intros Hw Hd Hin. rewrite Forall_forall in Hw.
  specialize (Hw d Hin). congruence.
Qed.

Lemma step_padded (max_chunks : Z) (acc : gset Z) (p : selection_part)
    (w : padding) :
  part_ok p → blank w →
  parse_chunk_selection_step max_chunks acc (padded_text (p, w))
  = parse_chunk_selection_step max_chunks acc (part_text p).
Proof.
  destruct w as [[[w1 w2] w3] w4]. intros Hp (H1 & H2 & H3 & H4).
  unfold parse_chunk_selection_step.
  rewrite (str_strip_id _ (part_text_no_space p Hp)).
  destruct p as [ds | a b]; cbn [padded_text part_text] in *.
  - destruct (numeral_ends ds Hp) as [(c1 & s1 & Hh & Hc1) (s2 & c2 & Hl & Hc2)].
    rewrite (str_strip_padded w1 w4 ds s1 s2 c1 c2)
      by (done || by apply digit_not_space).
    reflexivity.
  - destruct Hp as [Ha Hb].
    destruct (numeral_ends a Ha) as [(c1 & s1 & Hh & Hc1) (sa & ca & Hla & Hca)].
    destruct (numeral_ends b Hb) as [(cb & sb & Hhb & Hcb) (s2 & c2 & Hl & Hc2)].
    assert (str_strip (w1 ++ a ++ w2 ++ "-"%char :: w3 ++ b ++ w4)
            = a ++ w2 ++ "-"%char :: w3 ++ b) as ->.
    { replace (w1 ++ a ++ w2 ++ "-"%char :: w3 ++ b ++ w4)
        with (w1 ++ (a ++ w2 ++ "-"%char :: w3 ++ b) ++ w4)
        by (rewrite <- !app_assoc; cbn [app]; by rewrite <- !app_assoc).
      apply (str_strip_padded w1 w4 _ (s1 ++ w2 ++ "-"%char :: w3 ++ b)
               (a ++ w2 ++ "-"%char :: w3 ++ s2) c1 c2);
        [done | done | by rewrite Hh | by apply digit_not_space
        | | by apply digit_not_space].
      rewrite Hl, <- !app_assoc. cbn [app]. by rewrite <- !app_assoc. }
    rewrite !bool_decide_eq_true_2
      by (rewrite ?app_assoc; apply elem_of_app; right; left).
    rewrite (app_assoc a w2), str_split_once_hyphen.
    2:{ apply not_elem_of_app. split.
        - apply numeral_not_elem; [apply Ha | reflexivity].
        - by apply blank_not_elem. }
    rewrite str_split_once_hyphen
      by (apply numeral_not_elem; [apply Ha | reflexivity]).
    cbn [unpack2 mbind outcome_bind bind].
    rewrite <- (app_nil_l (a ++ w2)).
    rewrite (str_strip_padded [] w2 a s1 sa c1 ca)
      by (done || by apply digit_not_space).
    replace (w3 ++ b) with (w3 ++ b ++ []) by (by rewrite app_nil_r).
    rewrite (str_strip_padded w3 [] b sb s2 cb c2)
      by (done || by apply digit_not_space).
    rewrite !str_strip_id by (apply numeral_no_space; [apply Ha || apply Hb]).
    reflexivity.
Qed.

Lemma padded_text_no_comma (p : selection_part) (w : padding) :
  part_ok p → blank w → ","%char ∉ padded_text (p, w).
Proof.
  destruct w as [[[w1 w2] w3] w4]. intros Hp (H1 & H2 & H3 & H4).
  assert (∀ v, Forall (λ c, is_space c = true) v → ","%char ∉ v) as Hb
    by (intros v Hv; by apply blank_not_elem).
  assert (∀ ds, numeral ds → ","%char ∉ ds) as Hn
    by (intros ds [_ Hds]; by apply numeral_not_elem).
  destruct p as [ds | a b]; cbn [padded_text].
  - rewrite !not_elem_of_app. auto.
  - destruct Hp as [Ha Hb'].
    rewrite !not_elem_of_app, not_elem_of_cons, !not_elem_of_app.
    repeat split; auto; discriminate.
Qed.

Lemma padded_text_nonempty (p : selection_part) (w : padding) :
  part_ok p → padded_text (p, w) ≠ [].
Proof.
  destruct w as [[[w1 w2] w3] w4]. intros Hp H.
  destruct p as [ds | a b]; cbn [padded_text] in H.
  - apply app_eq_nil in H as [_ H]. apply app_eq_nil in H as [H _].
    by destruct Hp.
  - apply app_eq_nil in H as [_ H]. apply app_eq_nil in H as [H _].
    destruct Hp as [[Ha _] _]. done.
Qed.

Lemma str_split_padded (pps : list (selection_part * padding)) :
  pps ≠ [] → Forall (λ pp, part_ok pp.1 ∧ blank pp.2) pps →
  str_split "," (padded_spec_text pps) = padded_text <$> pps
  ∧ padded_spec_text pps ≠ [].
Proof.
  intros Hne Hpps. induction Hpps as [|[p w] pps [Hp Hw] Hpps IH]; [done|].
  simpl in Hp, Hw. destruct pps as [|q pps].
  - split; [|by apply padded_text_nonempty].
    simpl. by apply str_split_no_sep, padded_text_no_comma.
  - change (padded_spec_text ((p, w) :: q :: pps))
      with (padded_text (p, w) ++ ","%char :: padded_spec_text (q :: pps)).
    destruct IH as [IH _]; [done|].
    rewrite str_split_app by (by apply padded_text_no_comma).
    rewrite IH. split; [reflexivity|].
    intros H. apply app_eq_nil in H as [H _].
    by apply (padded_text_nonempty p w) in H.
Qed.

Lemma for_in_padded (max_chunks : Z)
    (pps : list (selection_part * padding)) :
  Forall (λ pp, part_ok pp.1 ∧ blank pp.2) pps →
  ∀ acc : gset Z,
    for_in (padded_text <$> pps) (parse_chunk_selection_step max_chunks) acc
    = for_in (part_text <$> (fst <$> pps))
        (parse_chunk_selection_step max_chunks) acc.
Proof.
  induction 1 as [|[p w] pps [Hp Hw] _ IH]; intros acc; [reflexivity|].
  simpl in Hp, Hw. rewrite !fmap_cons. cbn [for_in fst].
  rewrite (step_padded max_chunks acc p w Hp Hw).
  destruct (parse_chunk_selection_step max_chunks acc (part_text p));
    [apply IH | reflexivity..].
Qed.

(** X18. White space around a part and around the hyphen of a range does
    not count: a specification of numerals and hyphenated pairs of
    numerals with any white space put there selects what the same
    specification without white space selects. *)
Theorem parse_chunk_selection_padded (max_chunks : Z)
    (pps : list (selection_part * padding)) :
  pps ≠ [] → Forall (λ pp, part_ok pp.1 ∧ blank pp.2) pps →
  parse_chunk_selection (padded_spec_text pps) max_chunks
  = parse_chunk_selection (spec_text (fst <$> pps)) max_chunks.
Proof.
  intros Hne Hpps.
  destruct (str_split_padded pps Hne Hpps) as [Hsplit Hnonempty].
  assert (Forall part_ok (fst <$> pps)) as Hps.
  { apply Forall_fmap. eapply Forall_impl; [exact Hpps|]. by intros pp [H _]. }
  assert (fst <$> pps ≠ []) as Hne' by (by destruct pps).
  unfold parse_chunk_selection.
  rewrite bool_decide_eq_false_2 by exact Hnonempty.
  rewrite bool_decide_eq_false_2 by (by apply spec_text_nonempty).
  rewrite Hsplit, str_split_spec_text by done.
  rewrite for_in_padded by exact Hpps. reflexivity.
Qed.

Lemma parse_chunk_selection_padded_witness :
  parse_chunk_selection (s_ " 1 ,3 - 5") 10
  = parse_chunk_selection (s_ "1,3-5") 10.
Proof.
  apply (parse_chunk_selection_padded 10
           [(Single (s_ "1"), (s_ " ", [], [], s_ " "));
            (Range (s_ "3") (s_ "5"), ([], s_ " ", s_ " ", []))]).
  - discriminate.
  - repeat first [discriminate | constructor].
Defined.

Lemma u16_le_prefix_range (payload : bytes) :
  0 ≤ u16_le_prefix payload ≤ 65535.
Proof.
  destruct payload as [|b0 [|b1 r]]; simpl; try lia.
  pose proof (Z_of_byte_range b0). pose proof (Z_of_byte_range b1). lia.
Qed.

(** X19. On every reader state, also one built by hand, [get_metadata]
    gives a baud rate between 0 and 65535, a description exactly when
    some chunk has the type code [FUJI], the number of chunks as
    [chunk_count] and the number of entries of [data_blocks] as
    [data_block_count]. *)
Theorem get_metadata_ranges (self : CASReader.t) :
  ∃ metadata : Metadata,
    get_metadata self = Ok metadata
    ∧ 0 ≤ baudrate metadata ≤ 65535
    ∧ (description metadata = None
       ↔ Forall (λ c, ChunkHeader.chunk_type (Chunk.header c)
                      ≠ ChunkType.FUJI) (CASReader.chunks self))
    ∧ chunk_count metadata = len (CASReader.chunks self)
    ∧ data_block_count metadata = len (CASReader.data_blocks self).
Proof.
  unfold get_metadata. rewrite get_metadata_loop. eexists.
  split; [reflexivity|]. cbn [description baudrate chunk_count data_block_count].
  split; [|split; [|split; reflexivity]].
  - destruct (last (filter has_baudrate (CASReader.chunks self)));
      [apply u16_le_prefix_range | lia].
  - destruct (last (filter is_fuji (CASReader.chunks self))) as [c|] eqn:Hl.
    + split; [discriminate|]. intros Hall. exfalso.
      apply last_Some_elem_of, list_elem_of_filter in Hl as [Hf Hin].
      rewrite Forall_forall in Hall. apply (Hall c Hin).
      unfold is_fuji in Hf. by apply bool_decide_unpack in Hf.
    + split; [|reflexivity]. intros _. apply last_None in Hl.
      apply Forall_forall. intros c Hin Hc.
      assert (c ∈ filter is_fuji (CASReader.chunks self)) as Hcf.
      { apply list_elem_of_filter. split; [|exact Hin].
        unfold is_fuji. by apply bool_decide_pack. }
      rewrite Hl in Hcf. by apply elem_of_nil in Hcf.
Qed.
